(** * A verification model of the fetch/load batch-ingestion template

    The development embeds [fetchload.py] (the base processor
    [FetchLoadProcessor], the command-line resolution [iso_date] and
    [parse_arguments]) and the entry point of [hitwise.py] as Rocq
    functions, and proves properties of the fetch phase, the load phase,
    staging cleanup and path derivation.

    Conventions.
    - A Python [str] is a Rocq [string]; its characters are the 256 code
      points that [ascii] offers.  A Python [bytes] is a [string] as well,
      each [ascii] being one octet.
    - The platform is POSIX: paths are [PosixPath]s, [os.linesep] is a
      single line feed, and the locale encoding of text files is UTF-8.
    - The local file system is a finite map from absolute paths (lists of
      names) to nodes.  It has directories and regular files; it has no
      symbolic links, no permissions, and [..] is an ordinary name.  Its
      calls answer as Linux does for a path whose names a directory can
      hold (no NUL, no [..], within the limits on their length) when
      nothing is refused for lack of permission; [well_named] describes
      these paths.
    - A method of the processor is a function from the environment to an
      outcome: the value returned or the exception raised, the environment
      it leaves, and the events (calls, log lines) it produced. *)

From Stdlib Require Import ZArith String Ascii List Bool Lia DecimalString.
From stdpp Require Import base option gmap strings list fin_maps.
Import ListNotations.

Local Open Scope string_scope.
Local Open Scope list_scope.
Local Open Scope Z_scope.

(* ===================================================================== *)
(** ** Exceptions *)
(* ===================================================================== *)

(** The exception classes the code raises, catches or lets through. *)
Inductive exn : Type :=
| FileNotFoundError
| IsADirectoryError
| NotADirectoryError
| FileExistsError
| OSError (errno : string)          (* any other OSError: ENOTEMPTY, EBUSY, ... *)
| TypeError
| ValueError
| KeyError
| UnicodeEncodeError
| UnicodeDecodeError
| CsvError                          (* _csv.Error *)
| ArgumentTypeError (msg : string)  (* argparse.ArgumentTypeError *)
| SystemExit (code : Z)
| OtherError (name : string).       (* raised by a plug-in or a collaborator *)

(** [isinstance(e, OSError)]: the four named classes derive from OSError. *)
Definition is_OSError (e : exn) : bool :=
  match e with
  | FileNotFoundError | IsADirectoryError | NotADirectoryError
  | FileExistsError | OSError _ => true
  | _ => false
  end.

Inductive result (A : Type) : Type :=
| Ok (a : A)
| Raise (e : exn).
Arguments Ok {A} a.
Arguments Raise {A} e.

Definition is_raise {A} (r : result A) : bool :=
  match r with Raise _ => true | Ok _ => false end.

(* ===================================================================== *)
(** ** Calendar dates, [strftime] and [strptime] *)
(* ===================================================================== *)

Record date : Type := Date { year : Z; month : Z; day : Z }.

Definition is_leap (y : Z) : bool :=
  (y mod 4 =? 0) && (negb (y mod 100 =? 0) || (y mod 400 =? 0)).

Definition days_in_month (y m : Z) : Z :=
  if m =? 2 then (if is_leap y then 29 else 28)
  else if (m =? 4) || (m =? 6) || (m =? 9) || (m =? 11) then 30
  else 31.

(** What [datetime.date(y, m, d)] accepts. *)
Definition valid_date (d : date) : bool :=
  (1 <=? year d) && (year d <=? 9999) &&
  (1 <=? month d) && (month d <=? 12) &&
  (1 <=? day d) && (day d <=? days_in_month (year d) (month d)).

Definition digit_char (n : Z) : ascii := ascii_of_N (Z.to_N (48 + n mod 10)).

Definition fmt2 (n : Z) : string :=
  String (digit_char (n / 10)) (String (digit_char n) "").

(** [%Y] written with four digits.  All platforms agree from year 1000
    on; below, the C library and the version of Python decide (with glibc
    the year can come without leading zeros), so the statements that read
    the digits of a date are made for years from 1000 on. *)
Definition fmt4 (n : Z) : string :=
  String (digit_char (n / 1000)) (String (digit_char (n / 100))
    (String (digit_char (n / 10)) (String (digit_char n) ""))).

(** [strftime('%Y-%m-%d')] and [strftime('%Y%m%d')]. *)
Definition strftime_iso (d : date) : string :=
  fmt4 (year d) +:+ "-" +:+ fmt2 (month d) +:+ "-" +:+ fmt2 (day d).
Definition strftime_compact (d : date) : string :=
  fmt4 (year d) +:+ fmt2 (month d) +:+ fmt2 (day d).

Definition digit_val (c : ascii) : option Z :=
  let n := Z.of_N (N_of_ascii c) in
  if (48 <=? n) && (n <=? 57) then Some (n - 48) else None.

(** The directive [%m] of [_strptime]: the pattern [1[0-2]|0[1-9]|[1-9]]
    followed by the literal [-] of the format. *)
Definition strptime_month (s : string) : option (Z * string) :=
  match s with
  | String a (String b (String "-" rest)) =>
      match digit_val a, digit_val b with
      | Some 1, Some y => if y <=? 2 then Some (10 + y, rest) else None
      | Some 0, Some y => if 1 <=? y then Some (y, rest) else None
      | _, _ => None
      end
  | String a (String "-" rest) =>
      match digit_val a with
      | Some x => if 1 <=? x then Some (x, rest) else None
      | None => None
      end
  | _ => None
  end.

(** The directive [%d]: the pattern [3[01]|[12]\d|0[1-9]|[1-9]| [1-9]];
    the first alternative that matches wins, and what it leaves over is
    returned. *)
Definition strptime_day (s : string) : option (Z * string) :=
  let one :=
    match s with
    | String a rest =>
        match digit_val a with
        | Some x => if 1 <=? x then Some (x, rest) else None
        | None => None
        end
    | _ => None
    end in
  match s with
  | String a (String b rest) =>
      match digit_val a, digit_val b with
      | Some 3, Some y => if y <=? 1 then Some (30 + y, rest) else one
      | Some 1, Some y => Some (10 + y, rest)
      | Some 2, Some y => Some (20 + y, rest)
      | Some 0, Some y => if 1 <=? y then Some (y, rest) else one
      | Some _, _ => one
      | None, Some y =>
          if Ascii.eqb a " " then (if 1 <=? y then Some (y, rest) else None)
          else None
      | None, None => None
      end
  | _ => one
  end.

(** [datetime.strptime(s, '%Y-%m-%d').date()]; [None] stands for the
    [ValueError] it raises (no match, unconverted data, or a day that the
    calendar does not have). *)
Definition strptime_iso (s : string) : option date :=
  match s with
  | String a (String b (String c (String d (String "-" rest)))) =>
      match digit_val a, digit_val b, digit_val c, digit_val d with
      | Some y1, Some y2, Some y3, Some y4 =>
          match strptime_month rest with
          | Some (m, rest') =>
              match strptime_day rest' with
              | Some (dd, "") =>
                  let r := Date (1000 * y1 + 100 * y2 + 10 * y3 + y4) m dd in
                  if valid_date r then Some r else None
              | _ => None
              end
          | None => None
          end
      | _, _, _, _ => None
      end
  | _ => None
  end.

(** [iso_date]: the [type=] callback of [--rundate]. *)
Definition iso_date (datestr : string) : result date :=
  match strptime_iso datestr with
  | Some date_obj => Ok date_obj
  | None =>
      Raise (ArgumentTypeError
               (datestr +:+ " is not a valid date in YYYY-MM-DD format"))
  end.

(* ===================================================================== *)
(** ** [pathlib.PosixPath] *)
(* ===================================================================== *)

(** A pure POSIX path: the anchor (empty, one slash, or exactly two) and
    the names after it. *)
Record Path : Type := mkPath { anchor : string; parts : list string }.

(** [s.split('/')]. *)
Fixpoint split_slash (s : string) : list string :=
  match s with
  | EmptyString => [EmptyString]
  | String c s' =>
      if Ascii.eqb c "/" then EmptyString :: split_slash s'
      else match split_slash s' with
           | h :: t => String c h :: t
           | [] => [String c EmptyString]
           end
  end.

Definition keep_part (x : string) : bool :=
  negb (String.eqb x "") && negb (String.eqb x ".").

Definition starts_slash (s : string) : bool :=
  match s with
  | String c _ => Ascii.eqb c "/"
  | EmptyString => false
  end.

(** The root that [posixpath.splitroot] finds: one slash, exactly two
    slashes, or none. *)
Definition root_of (s : string) : string :=
  match s with
  | String a rest =>
      if Ascii.eqb a "/" then
        match rest with
        | String b rest' =>
            if Ascii.eqb b "/" then (if starts_slash rest' then "/" else "//")
            else "/"
        | EmptyString => "/"
        end
      else EmptyString
  | EmptyString => EmptyString
  end.

(** [Path(s)]: empty names and single dots are dropped. *)
Definition Path_of (s : string) : Path :=
  mkPath (root_of s) (List.filter keep_part (split_slash s)).

(** [p / s]: an anchored right operand replaces the left one. *)
Definition joinpath (p : Path) (s : string) : Path :=
  let q := Path_of s in
  if String.eqb (anchor q) "" then mkPath (anchor p) (parts p ++ parts q)
  else q.

Fixpoint join_slash (l : list string) : string :=
  match l with
  | [] => ""
  | [x] => x
  | x :: rest => x +:+ "/" +:+ join_slash rest
  end.

(** [str(p)]. *)
Definition Path_str (p : Path) : string :=
  match anchor p, parts p with
  | EmptyString, [] => "."
  | a, l => a +:+ join_slash l
  end.

(* ===================================================================== *)
(** ** The local file system *)
(* ===================================================================== *)

Inductive node : Type :=
| File (content : string)
| Dir.

(** The entries below the root, keyed by their absolute path; the root
    itself (the empty list) always is a directory. *)
Abbreviation FS := (gmap (list string) node).

(** Path resolution up to, and without, the last name: every name on the
    way has to be an existing directory. *)
Fixpoint walk (m : FS) (cur : list string) (names : list string) : option exn :=
  match names with
  | [] => None
  | c :: rest =>
      match rest with
      | [] => None
      | _ =>
          match m !! (cur ++ [c]) with
          | None => Some FileNotFoundError
          | Some (File _) => Some NotADirectoryError
          | Some Dir => walk m (cur ++ [c]) rest
          end
      end
  end.

Definition parent_of (q : list string) : option (list string) :=
  match q with
  | [] => None
  | _ => Some (removelast q)
  end.

(** Has the directory [p] an entry? *)
Definition has_entries (m : FS) (p : list string) : bool :=
  bool_decide (map_Exists (fun q _ => parent_of q = Some p) m).

(** [p.is_dir()]: false on any error. *)
Definition is_dir (m : FS) (p : list string) : bool :=
  match p with
  | [] => true
  | _ =>
      match walk m [] p with
      | Some _ => false
      | None => match m !! p with Some Dir => true | _ => false end
      end
  end.

(** [os.unlink(p)], as Linux answers it for a path of ordinary names
    ([well_named]): a NUL in the path ([ValueError]), a name or a path
    beyond the limits on their length and a refused permission (both
    [OSError]) are not part of this model. *)
Definition unlink (m : FS) (p : list string) : result FS :=
  match p with
  | [] => Raise IsADirectoryError
  | _ =>
      match walk m [] p with
      | Some e => Raise e
      | None =>
          match m !! p with
          | None => Raise FileNotFoundError
          | Some Dir => Raise IsADirectoryError
          | Some (File _) => Ok (delete p m)
          end
      end
  end.

(** [os.rmdir(p)], for a path of ordinary names as well. *)
Definition rmdir (m : FS) (p : list string) : result FS :=
  match p with
  | [] => Raise (OSError "EBUSY")
  | _ =>
      match walk m [] p with
      | Some e => Raise e
      | None =>
          match m !! p with
          | None => Raise FileNotFoundError
          | Some (File _) => Raise NotADirectoryError
          | Some Dir =>
              if has_entries m p then Raise (OSError "ENOTEMPTY")
              else Ok (delete p m)
          end
      end
  end.

(** [os.mkdir(p)]. *)
Definition os_mkdir (m : FS) (p : list string) : result FS :=
  match p with
  | [] => Raise FileExistsError
  | _ =>
      match walk m [] p with
      | Some e => Raise e
      | None =>
          match m !! p with
          | Some _ => Raise FileExistsError
          | None => Ok (<[p := Dir]> m)
          end
      end
  end.

(** [p.mkdir(parents=False, exist_ok=True)]: an OSError other than
    "not found" is forgiven when [p] is a directory. *)
Definition mkdir_exist_ok (m : FS) (p : list string) : result FS :=
  match os_mkdir m p with
  | Ok m' => Ok m'
  | Raise FileNotFoundError => Raise FileNotFoundError
  | Raise e => if is_dir m p then Ok m else Raise e
  end.

(** [p.mkdir(parents=True, exist_ok=True)] for the first [k] names of [p]:
    on "not found" the parent is made the same way, then [p] itself. *)
Fixpoint mkdir_parents (m : FS) (p : list string) (k : nat) : result FS :=
  let q := take k p in
  match os_mkdir m q with
  | Ok m' => Ok m'
  | Raise FileNotFoundError =>
      match k with
      | O => Raise FileNotFoundError
      | S k' =>
          match mkdir_parents m p k' with
          | Ok m' => mkdir_exist_ok m' q
          | Raise e => Raise e
          end
      end
  | Raise e => if is_dir m q then Ok m else Raise e
  end.

Definition mkdir (m : FS) (p : list string) : result FS :=
  mkdir_parents m p (length p).

(** [open(p, 'w')], [open(p, 'wb')], [open(p, 'w+')]: the file is created
    or truncated. *)
Definition open_w (m : FS) (p : list string) : result FS :=
  match p with
  | [] => Raise IsADirectoryError
  | _ =>
      match walk m [] p with
      | Some e => Raise e
      | None =>
          match m !! p with
          | Some Dir => Raise IsADirectoryError
          | _ => Ok (<[p := File ""]> m)
          end
      end
  end.

(** Writing [data] through the handle that [open_w] returned, and closing
    it. *)
Definition write_close (m : FS) (p : list string) (data : string) : FS :=
  <[p := File data]> m.

(** [open(p, 'rb').read()]. *)
Definition read_file (m : FS) (p : list string) : result string :=
  match p with
  | [] => Raise IsADirectoryError
  | _ =>
      match walk m [] p with
      | Some e => Raise e
      | None =>
          match m !! p with
          | None => Raise FileNotFoundError
          | Some Dir => Raise IsADirectoryError
          | Some (File c) => Ok c
          end
      end
  end.

(** The entries strictly below [p], as [p.glob('**/*')] lists them. *)
Definition glob_all (m : FS) (p : list string) : list (list string) :=
  filter (fun q => p `prefix_of` q /\ q <> p) (map fst (map_to_list m)).

(* ===================================================================== *)
(** ** Text files: the UTF-8 codec *)
(* ===================================================================== *)

Local Open Scope N_scope.

(** One character of a [str] as UTF-8: one octet below 128, two above. *)
Definition utf8_char (c : ascii) : string :=
  let n := N_of_ascii c in
  if n <? 128 then String c EmptyString
  else String (ascii_of_N (192 + n / 64))
         (String (ascii_of_N (128 + n mod 64)) EmptyString).

(** [s.encode('utf-8')]. *)
Fixpoint utf8_encode (s : string) : string :=
  match s with
  | EmptyString => EmptyString
  | String c rest => utf8_char c +:+ utf8_encode rest
  end.

(** [b.decode('utf-8')] for the characters a [str] of the model has;
    [None] is the UnicodeDecodeError of a malformed sequence (or a
    character outside the model). *)
Fixpoint utf8_decode (b : string) : option string :=
  match b with
  | EmptyString => Some EmptyString
  | String c rest =>
      let n := N_of_ascii c in
      if n <? 128 then
        match utf8_decode rest with
        | Some t => Some (String c t)
        | None => None
        end
      else if (194 <=? n) && (n <=? 195) then
        match rest with
        | String d rest' =>
            let k := N_of_ascii d in
            if (128 <=? k) && (k <=? 191) then
              match utf8_decode rest' with
              | Some t => Some (String (ascii_of_N ((n - 192) * 64 + (k - 128))) t)
              | None => None
              end
            else None
        | EmptyString => None
        end
      else None
  end.

Local Close Scope N_scope.

(* ===================================================================== *)
(** ** The [csv] module, dialect [excel] *)
(* ===================================================================== *)

Definition DQUOTE : ascii := "034"%char.
Definition COMMA : ascii := ","%char.
Definition CR : ascii := "013"%char.
Definition LF : ascii := "010"%char.

Definition is_newline (c : ascii) : bool := Ascii.eqb c CR || Ascii.eqb c LF.

(** A cell of a row as a plug-in may return it. *)
Inductive field : Type :=
| FNone
| FStr (s : string)
| FInt (z : Z).

(** What the writer makes of a cell: [None] is the empty string, anything
    else its [str()]. *)
Definition csv_str (f : field) : string :=
  match f with
  | FNone => EmptyString
  | FStr s => s
  | FInt z => DecimalString.NilZero.string_of_int (Z.to_int z)
  end.

(** QUOTE_MINIMAL: a cell is quoted when it holds the delimiter, the quote
    character, or a character of the line terminator. *)
Fixpoint needs_quote (s : string) : bool :=
  match s with
  | EmptyString => false
  | String c rest =>
      Ascii.eqb c COMMA || Ascii.eqb c DQUOTE || is_newline c || needs_quote rest
  end.

(** doublequote=True: each quote character is written twice. *)
Fixpoint double_quotes (s : string) : string :=
  match s with
  | EmptyString => EmptyString
  | String c rest =>
      if Ascii.eqb c DQUOTE then String DQUOTE (String DQUOTE (double_quotes rest))
      else String c (double_quotes rest)
  end.

Definition csv_field (s : string) : string :=
  if needs_quote s then String DQUOTE (double_quotes s +:+ String DQUOTE EmptyString)
  else s.

Fixpoint csv_join (l : list string) : string :=
  match l with
  | [] => EmptyString
  | [x] => csv_field x
  | x :: rest => csv_field x +:+ String COMMA (csv_join rest)
  end.

Definition CRLF : string := String CR (String LF EmptyString).

(** [writer.writerow(row)]: a record that would be empty although it has a
    cell is written as a pair of quotes. *)
Definition csv_writerow (row : list field) : string :=
  let cells := map csv_str row in
  (match cells with
   | [EmptyString] => String DQUOTE (String DQUOTE EmptyString)
   | _ => csv_join cells
   end) +:+ CRLF.

(** [writer.writerows(rows)]. *)
Fixpoint csv_writerows (rows : list (list field)) : string :=
  match rows with
  | [] => EmptyString
  | r :: rest => csv_writerow r +:+ csv_writerows rest
  end.

(** The reader of the [csv] module: the states of its parser. *)
Inductive csv_state : Type :=
| START_RECORD | START_FIELD | IN_FIELD
| IN_QUOTED_FIELD | QUOTE_IN_QUOTED_FIELD | EAT_CRNL.

Record csv_parser : Type := mkParser {
  state : csv_state;
  cell : string;               (* the cell being read *)
  cells : list string          (* the cells of the record read so far *)
}.

Definition parse_reset : csv_parser := mkParser START_RECORD EmptyString [].

Definition parse_save_field (st : csv_state) (r : csv_parser) : csv_parser :=
  mkParser st EmptyString (cells r ++ [cell r]).

Definition parse_add_char (st : csv_state) (r : csv_parser) (c : ascii) : csv_parser :=
  mkParser st (cell r +:+ String c EmptyString) (cells r).

Definition set_state (st : csv_state) (r : csv_parser) : csv_parser :=
  mkParser st (cell r) (cells r).

(** What the parser is fed: a character, or the end of a line. *)
Inductive csv_input : Type :=
| Ch (c : ascii)
| EOL.

Definition parse_start_field (r : csv_parser) (i : csv_input) : csv_parser :=
  match i with
  | EOL => parse_save_field START_RECORD r
  | Ch c =>
      if is_newline c then parse_save_field EAT_CRNL r
      else if Ascii.eqb c DQUOTE then set_state IN_QUOTED_FIELD r
      else if Ascii.eqb c COMMA then parse_save_field START_FIELD r
      else parse_add_char IN_FIELD r c
  end.

(** [parse_process_char] (not strict, no escape character, the field size
    limit lifted); [None] is the error of a character after a line end
    outside quotes. *)
Definition parse_process_char (r : csv_parser) (i : csv_input) : option csv_parser :=
  match state r with
  | START_RECORD =>
      match i with
      | EOL => Some r
      | Ch c =>
          if is_newline c then Some (set_state EAT_CRNL r)
          else Some (parse_start_field r i)
      end
  | START_FIELD => Some (parse_start_field r i)
  | IN_FIELD =>
      match i with
      | EOL => Some (parse_save_field START_RECORD r)
      | Ch c =>
          if is_newline c then Some (parse_save_field EAT_CRNL r)
          else if Ascii.eqb c COMMA then Some (parse_save_field START_FIELD r)
          else Some (parse_add_char IN_FIELD r c)
      end
  | IN_QUOTED_FIELD =>
      match i with
      | EOL => Some r
      | Ch c =>
          if Ascii.eqb c DQUOTE then Some (set_state QUOTE_IN_QUOTED_FIELD r)
          else Some (parse_add_char IN_QUOTED_FIELD r c)
      end
  | QUOTE_IN_QUOTED_FIELD =>
      match i with
      | EOL => Some (parse_save_field START_RECORD r)
      | Ch c =>
          if Ascii.eqb c DQUOTE then Some (parse_add_char IN_QUOTED_FIELD r c)
          else if Ascii.eqb c COMMA then Some (parse_save_field START_FIELD r)
          else if is_newline c then Some (parse_save_field EAT_CRNL r)
          else Some (parse_add_char IN_FIELD r c)
      end
  | EAT_CRNL =>
      match i with
      | EOL => Some (set_state START_RECORD r)
      | Ch c => if is_newline c then Some r else None
      end
  end.

(** A text file opened with [newline=''] ends a line after a line feed,
    after a carriage return that no line feed follows, and at its end. *)
Definition line_ends (c : ascii) (rest : string) : bool :=
  match rest with
  | EmptyString => true
  | String d _ => Ascii.eqb c LF || (Ascii.eqb c CR && negb (Ascii.eqb d LF))
  end.

(** The records the reader yields for the text [s]: each line is fed
    character by character and closed by [EOL]; a record is complete when
    the parser is back in START_RECORD at the end of a line. *)
Fixpoint csv_records (r : csv_parser) (s : string) : option (list (list string)) :=
  match s with
  | EmptyString =>
      if negb (String.eqb (cell r) EmptyString) ||
         match state r with IN_QUOTED_FIELD => true | _ => false end
      then Some [cells r ++ [cell r]]
      else Some []
  | String c rest =>
      match parse_process_char r (Ch c) with
      | None => None
      | Some r1 =>
          if line_ends c rest then
            match parse_process_char r1 EOL with
            | None => None
            | Some r2 =>
                match state r2 with
                | START_RECORD =>
                    match csv_records parse_reset rest with
                    | Some recs => Some (cells r2 :: recs)
                    | None => None
                    end
                | _ => csv_records r2 rest
                end
            end
          else csv_records r1 rest
      end
  end.

(** [list(csv.reader(f, delimiter=','))]. *)
Definition csv_reader (s : string) : option (list (list string)) :=
  csv_records parse_reset s.

(* ===================================================================== *)
(** ** Configuration, collaborators and the environment *)
(* ===================================================================== *)

(** The values the code reads from the module [config]. *)
Record Config : Type := mkConfig {
  ETL_DATA_HOME : string;
  ETL_S3_BUCKET : string;
  FETCH_DATA_FROM_SOURCE : bool;
  SFTP_PATH_SERVER : string;
  SFTP_USER_SERVER : string;
  SFTP_NAME_SERVER : string
}.

(** The object store behind [s3fs]: its objects, and whether it can be
    reached. *)
Record S3 : Type := mkS3 {
  objects : gmap string string;
  online : bool
}.

(** Modelled from the spec: the database session of
    [pymodules.dbwrapper.PostgresqlWrapper], which is not part of the
    sources.  Rows are inserted into the tables of the open session; a
    commit makes these the committed tables, which is what other sessions
    see.  Schema statements take effect when they have run. *)
Record DB : Type := mkDB {
  committed : gmap string (list (list string));
  session : option (gmap string (list (list string)));
  reachable : bool
}.

(** What [fetch_from_api] may return. *)
Inductive payload : Type :=
| PNone
| PBytes (b : string)
| PStr (s : string)
| PRows (rows : list (list field))
| PNames (names : list string).

Section Model.

(** The state of the remote source (an HTTP API, an SFTP server). *)
Context {Remote : Type}.

Record Env : Type := mkEnv {
  cwd : list string;            (* the working directory of the process *)
  fs : FS;
  s3 : S3;
  db : DB;
  remote : Remote
}.

Definition set_fs (e : Env) (m : FS) : Env :=
  mkEnv (cwd e) m (s3 e) (db e) (remote e).
Definition set_s3 (e : Env) (x : S3) : Env :=
  mkEnv (cwd e) (fs e) x (db e) (remote e).
Definition set_db (e : Env) (x : DB) : Env :=
  mkEnv (cwd e) (fs e) (s3 e) x (remote e).
Definition set_remote (e : Env) (x : Remote) : Env :=
  mkEnv (cwd e) (fs e) (s3 e) (db e) x.

(** The key of a path in the file system. *)
Definition abspath (e : Env) (p : Path) : list string :=
  if String.eqb (anchor p) EmptyString then cwd e ++ parts p else parts p.

(** The collaborators of [pymodules.command], which is not part of the
    sources, and the [str()] of a row: taken as they come. *)
Record Command : Type := mkCommand {
  local_cmd : string -> Env -> result unit * Env;
  ssh_enter : string -> string -> Env -> result unit * Env;
  ssh_get_file : string -> Path -> Env -> result unit * Env;
  ssh_exit : Env -> Env;
  str_of_row : list field -> string
}.

(** What a run does, in the order it does it.  An event is recorded when
    the call starts. *)
Inductive event : Type :=
| EvLog (msg : string)                     (* log.info *)
| EvLogExn (e : exn)
| EvPrint (msg : string)
| EvPrintExn (e : exn)
| EvUsage (prog : list string) (msg : string)   (* usage and error on stderr *)
| EvHelp (prog : list string)
| EvConfigureLogging
| EvConstruct                              (* a processor is instantiated *)
| EvMkdir (p : Path)
| EvFetch                                  (* self.fetch_from_api() *)
| EvOpen (p : Path) (mode : string)
| EvWrite (p : Path) (data : string)       (* the octets that reach the file *)
| EvS3Put (p : Path) (key : string)
| EvS3Get (key : string) (p : Path)
| EvLocalCmd (cmd : string)
| EvSshEnter (user server : string)
| EvSshGet (src : string) (dst : Path)
| EvSshExit
| EvCheckInserted                          (* self.check_inserted_files() *)
| EvCleanup                                (* self._cleanup() *)
| EvUnlink (p : Path)
| EvRmdir (p : Path)
| EvTransform                              (* self.pre_copy_transform() *)
| EvConnect                                (* db = PostgresqlWrapper(...) *)
| EvPreCopySql                             (* self.pre_copy_sql(db) *)
| EvCopyToDb                               (* self.copy_to_db(db) *)
| EvCommit.                                (* db.commit() *)

(** The outcome of a method: what it returned or raised, the environment
    it left, the events it produced. *)
Record outcome (A : Type) : Type := mkOutcome {
  res : result A;
  final : Env;
  events : list event
}.
Arguments mkOutcome {A} res final events.
Arguments res {A} o.
Arguments final {A} o.
Arguments events {A} o.

Definition M (A : Type) : Type := Env -> outcome A.

Definition ret {A} (a : A) : M A := fun e => mkOutcome (Ok a) e [].

Definition raise {A} (x : exn) : M A := fun e => mkOutcome (Raise x) e [].

Definition bind {A B} (m : M A) (k : A -> M B) : M B :=
  fun e =>
    let o := m e in
    match res o with
    | Ok a =>
        let o' := k a (final o) in
        mkOutcome (res o') (final o') (events o ++ events o')
    | Raise x => mkOutcome (Raise x) (final o) (events o)
    end.

Notation "'let*' x ':=' m 'in' k" := (bind m (fun x => k))
  (at level 10, x name, m at level 100, k at level 200).
Notation "m1 ';;' m2" := (bind m1 (fun _ => m2))
  (at level 100, m2 at level 200, right associativity).

Definition emit (ev : event) : M unit := fun e => mkOutcome (Ok tt) e [ev].

(** [try: m  except <catches> as x: handler x]. *)
Definition try_except {A} (m : M A) (catches : exn -> bool) (handler : exn -> M A) : M A :=
  fun e =>
    let o := m e in
    match res o with
    | Ok a => o
    | Raise x =>
        if catches x then
          let o' := handler x (final o) in
          mkOutcome (res o') (final o') (events o ++ events o')
        else o
    end.

(** [try: m  finally: cleanup], with a cleanup that cannot fail. *)
Definition try_finally {A} (m : M A) (cleanup : M unit) : M A :=
  fun e =>
    let o := m e in
    let o' := cleanup (final o) in
    mkOutcome (res o) (final o') (events o ++ events o').

(** A step of a plug-in or a collaborator on the environment. *)
Definition call (f : Env -> result unit * Env) : M unit :=
  fun e => let '(r, e') := f e in mkOutcome r e' [].

(** A file-system call on the path [p]. *)
Definition fs_call (op : FS -> list string -> result FS) (p : Path) : M unit :=
  fun e =>
    match op (fs e) (abspath e p) with
    | Ok m => mkOutcome (Ok tt) (set_fs e m) []
    | Raise x => mkOutcome (Raise x) e []
    end.

Fixpoint for_each {A} (l : list A) (body : A -> M unit) : M unit :=
  match l with
  | [] => ret tt
  | x :: rest => body x ;; for_each rest body
  end.

(** [s3.put(file_path, s3_path)]: the file is read and stored under the
    key. *)
Definition s3_put (p : Path) (key : string) : M unit :=
  fun e =>
    if negb (online (s3 e)) then mkOutcome (Raise (OtherError "ConnectionError")) e []
    else
      match read_file (fs e) (abspath e p) with
      | Ok c =>
          mkOutcome (Ok tt) (set_s3 e (mkS3 (<[key := c]> (objects (s3 e))) true)) []
      | Raise x => mkOutcome (Raise x) e []
      end.

(** [s3.get(s3_path, file_path)]: the object is written to the file. *)
Definition s3_get (key : string) (p : Path) : M unit :=
  fun e =>
    if negb (online (s3 e)) then mkOutcome (Raise (OtherError "ConnectionError")) e []
    else
      match objects (s3 e) !! key with
      | None => mkOutcome (Raise FileNotFoundError) e []
      | Some c =>
          match open_w (fs e) (abspath e p) with
          | Ok _ => mkOutcome (Ok tt) (set_fs e (write_close (fs e) (abspath e p) c)) []
          | Raise x => mkOutcome (Raise x) e []
          end
      end.

(** The constructor [PostgresqlWrapper]: a session is opened on the
    committed tables. *)
Definition db_connect : M unit :=
  fun e =>
    if reachable (db e)
    then mkOutcome (Ok tt) (set_db e (mkDB (committed (db e)) (Some (committed (db e))) true)) []
    else mkOutcome (Raise (OtherError "OperationalError")) e [].

(** [db.commit()]. *)
Definition db_commit : M unit :=
  fun e =>
    match reachable (db e), session (db e) with
    | true, Some t => mkOutcome (Ok tt) (set_db e (mkDB t (Some t) true)) []
    | _, _ => mkOutcome (Raise (OtherError "OperationalError")) e []
    end.

(* ===================================================================== *)
(** ** [FetchLoadProcessor] *)
(* ===================================================================== *)

(** The attributes that [__init__] sets. *)
Record Attrs : Type := mkAttrs {
  run_date : date;
  run_date_string : string;
  run_date_YYYYMMDD : string;
  local_folder : Path;
  file_path : Path;
  s3_path : string;
  api_return_type : string;
  sftp_path : string;
  sftp_path_server : string;
  sftp_user_server : string;
  sftp_name_server : string
}.

(** The methods a source overrides, bound to an instance. *)
Record Methods : Type := mkMethods {
  fetch_from_api : Remote -> result payload * Remote;
  check_inserted_files : Env -> result unit * Env;
  pre_copy_transform : Env -> result unit * Env;
  pre_copy_sql : Env -> result unit * Env;
  copy_to_db : Env -> result unit * Env
}.

Record Processor : Type := mkProcessor {
  attrs : Attrs;
  methods : Methods
}.

(** [f'{x}'] of an optional string. *)
Definition fmt_opt (x : option string) : string :=
  match x with Some s => s | None => "None" end.

(** [if filename:]. *)
Definition truthy (x : option string) : bool :=
  match x with
  | Some s => negb (String.eqb s EmptyString)
  | None => false
  end.

(** [FetchLoadProcessor.__init__]; [klass] gives the methods of the
    subclass that is instantiated. *)
Definition __init__ (cfg : Config) (klass : Attrs -> Methods)
    (run_date : date) (source_system : string) (filename : option string)
    (api_return_type : string) (target_table_name : option string) : Processor :=
  let run_date_string := strftime_iso run_date in
  let run_date_YYYYMMDD := strftime_compact run_date in
  let local_folder :=
    joinpath (joinpath (Path_of (ETL_DATA_HOME cfg)) source_system) run_date_YYYYMMDD in
  let file_path :=
    if truthy filename then joinpath local_folder (fmt_opt filename)
    else local_folder in
  let s3_path :=
    if truthy filename
    then ETL_S3_BUCKET cfg +:+ "/" +:+ source_system +:+ "/" +:+ run_date_YYYYMMDD
           +:+ "/" +:+ fmt_opt filename
    else ETL_S3_BUCKET cfg +:+ "/" +:+ source_system +:+ "/" +:+ run_date_YYYYMMDD in
  let a :=
    mkAttrs run_date run_date_string run_date_YYYYMMDD local_folder file_path
      s3_path api_return_type
      (ETL_DATA_HOME cfg +:+ "/" +:+ fmt_opt filename)
      (SFTP_PATH_SERVER cfg) (SFTP_USER_SERVER cfg) (SFTP_NAME_SERVER cfg) in
  mkProcessor a (klass a).

(** The methods of the base class itself. *)
Definition base_methods (a : Attrs) : Methods :=
  mkMethods
    (fun r => (Ok PNone, r))                          (* fetch_from_api *)
    (fun e => (Ok tt, e))                             (* check_inserted_files *)
    (fun e => (Ok tt, e))                             (* pre_copy_transform *)
    (fun e => (Ok tt, e))                             (* pre_copy_sql *)
    (fun e => (Raise (OtherError "AttributeError"), e)). (* copy_to_db *)

Definition self_fetch_from_api (self : Processor) : M payload :=
  fun e =>
    let '(r, x) := fetch_from_api (methods self) (remote e) in
    mkOutcome r (set_remote e x) [EvFetch].

(** [rmdir_if_empty]. *)
Definition rmdir_if_empty (path : Path) : M unit :=
  emit (EvLog ("Attempting removal of directory " +:+ Path_str path)) ;;
  try_except
    (emit (EvRmdir path) ;; fs_call rmdir path)
    is_OSError
    (fun x => emit (EvLogExn x)).

Definition caught_by_cleanup (x : exn) : bool :=
  match x with
  | FileNotFoundError | IsADirectoryError => true
  | _ => false
  end.

(** [_cleanup]. *)
Definition _cleanup (self : Processor) : M unit :=
  emit EvCleanup ;;
  emit (EvLog ("deleting " +:+ Path_str (file_path (attrs self)))) ;;
  try_except
    (emit (EvUnlink (file_path (attrs self))) ;; fs_call unlink (file_path (attrs self)))
    caught_by_cleanup
    (fun x => emit (EvPrintExn x) ;; emit (EvPrint "folder is not empty")) ;;
  rmdir_if_empty (local_folder (attrs self)).

(** [put_to_s3]. *)
Definition put_to_s3 (self : Processor) (file_path : Path) (s3_path : string) : M unit :=
  emit (EvLog ("copying " +:+ Path_str file_path +:+ " to " +:+ s3_path)) ;;
  emit (EvS3Put file_path s3_path) ;;
  s3_put file_path s3_path ;;
  _cleanup self.

(** [put_to_s3_using_cli]. *)
Definition put_to_s3_using_cli (cmd : Command) (self : Processor) : M unit :=
  let aws_s3_cmd :=
    "aws s3 cp " +:+ Path_str (local_folder (attrs self)) +:+ "/ "
      +:+ s3_path (attrs self) +:+ " --recursive" in
  emit (EvLocalCmd aws_s3_cmd) ;;
  call (local_cmd cmd aws_s3_cmd) ;;
  fun e =>
    for_each (glob_all (fs e) (abspath e (local_folder (attrs self))))
      (fun files =>
         emit (EvUnlink (mkPath "/" files)) ;; fs_call unlink (mkPath "/" files)) e.

(** What [for files in x] runs through, each item as an f-string shows
    it. *)
Definition iter_str (cmd : Command) (x : payload) : result (list string) :=
  match x with
  | PNone => Raise TypeError
  | PBytes b =>
      Ok (map (fun c => DecimalString.NilZero.string_of_uint (N.to_uint (N_of_ascii c)))
              (list_ascii_of_string b))
  | PStr s => Ok (map (fun c => String c EmptyString) (list_ascii_of_string s))
  | PRows rows => Ok (map (str_of_row cmd) rows)
  | PNames names => Ok names
  end.

Definition bool_str (b : bool) : string := if b then "True" else "False".

(** [sftp_fetch_and_archive_to_s3]. *)
Definition sftp_fetch_and_archive_to_s3 (cfg : Config) (cmd : Command)
    (self : Processor) : M unit :=
  let a := attrs self in
  if negb (FETCH_DATA_FROM_SOURCE cfg) then
    emit (EvLog ("copying all files from " +:+ Path_str (local_folder a)
                   +:+ " to " +:+ s3_path a)) ;;
    emit (EvPrint ("FETCH_DATA_FROM_SOURCE is set to "
                     +:+ bool_str (FETCH_DATA_FROM_SOURCE cfg)
                     +:+ " returning for fetch"))
  else
    emit (EvMkdir (local_folder a)) ;;
    fs_call mkdir (local_folder a) ;;
    emit (EvSshEnter (sftp_user_server a) (sftp_name_server a)) ;;
    call (ssh_enter cmd (sftp_user_server a) (sftp_name_server a)) ;;
    try_finally
      (let* x := self_fetch_from_api self in
       match iter_str cmd x with
       | Raise err => raise err
       | Ok items =>
           for_each items
             (fun files =>
                let sftp_dir := sftp_path_server a +:+ files in
                emit (EvLog ("copying files to " +:+ Path_str (local_folder a)
                               +:+ " " +:+ String LF EmptyString +:+ " from " +:+ sftp_dir)) ;;
                emit (EvSshGet sftp_dir (local_folder a)) ;;
                call (ssh_get_file cmd sftp_dir (local_folder a)))
       end)
      (emit EvSshExit ;; (fun e => mkOutcome (Ok tt) (ssh_exit cmd e) [])) ;;
    emit (EvLog ("copying all files from " +:+ Path_str (local_folder a)
                   +:+ " to " +:+ s3_path a)) ;;
    emit EvCheckInserted ;;
    call (check_inserted_files (methods self)) ;;
    put_to_s3_using_cli cmd self.

(** The rows that [csv.writer.writerows] is handed, for each value that
    [iter()] accepts; [None] is the error of an item that is no row.  The
    items are all there when [fetch_from_api] has returned (a list, a
    tuple, a string): an iterator that computes its rows while they are
    written is not part of this model. *)
Definition rows_of (x : payload) : option (list (list field)) :=
  match x with
  | PNone => None
  | PBytes b => match b with EmptyString => Some [] | _ => None end
  | PStr s => Some (map (fun c => [FStr (String c EmptyString)]) (list_ascii_of_string s))
  | PRows rows => Some rows
  | PNames names =>
      Some (map (fun n => map (fun c => FStr (String c EmptyString))
                              (list_ascii_of_string n)) names)
  end.

(** Opening the staging file for writing, once the handle exists. *)
Definition open_staging (p : Path) (mode : string) : M unit :=
  emit (EvOpen p mode) ;; fs_call open_w p.

Definition write_staging (p : Path) (data : string) : M unit :=
  emit (EvWrite p data) ;;
  (fun e => mkOutcome (Ok tt) (set_fs e (write_close (fs e) (abspath e p) data)) []).

(** [fetch_and_archive_to_s3]. *)
Definition fetch_and_archive_to_s3 (cfg : Config) (self : Processor) : M unit :=
  let a := attrs self in
  if negb (FETCH_DATA_FROM_SOURCE cfg) then
    emit (EvLog ("copying all files from " +:+ Path_str (local_folder a)
                   +:+ " to " +:+ s3_path a)) ;;
    emit (EvPrint ("FETCH_DATA_FROM_SOURCE is set to "
                     +:+ bool_str (FETCH_DATA_FROM_SOURCE cfg)
                     +:+ " returning for fetch"))
  else
    emit (EvMkdir (local_folder a)) ;;
    fs_call mkdir (local_folder a) ;;
    emit (EvLog ("writing locally to " +:+ Path_str (file_path a))) ;;
    if String.eqb (api_return_type a) "generator" then
      let* x := self_fetch_from_api self in
      match x with
      | PNone => raise TypeError
      | _ =>
          open_staging (file_path a) "w+" ;;
          match rows_of x with
          | None => raise CsvError
          | Some data =>
              write_staging (file_path a) (utf8_encode (csv_writerows data))
          end ;;
          put_to_s3 self (file_path a) (s3_path a)
      end
    else if String.eqb (api_return_type a) "list" then
      open_staging (file_path a) "w" ;;
      let* x := self_fetch_from_api self in
      match x with
      | PStr s => write_staging (file_path a) (utf8_encode s)
      | _ => raise TypeError
      end ;;
      put_to_s3 self (file_path a) (s3_path a)
    else
      open_staging (file_path a) "wb" ;;
      let* x := self_fetch_from_api self in
      match x with
      | PBytes b => write_staging (file_path a) b
      | _ => raise TypeError
      end ;;
      put_to_s3 self (file_path a) (s3_path a).

(** [get_from_s3]. *)
Definition get_from_s3 (self : Processor) (file_path : Path) (s3_path : string) : M unit :=
  emit (EvLog ("copying " +:+ Path_str file_path +:+ " to " +:+ s3_path)) ;;
  emit (EvS3Get s3_path file_path) ;;
  s3_get s3_path file_path.

(** [get_from_s3_using_cli]. *)
Definition get_from_s3_using_cli (cmd : Command) (self : Processor) : M unit :=
  let aws_s3_cmd :=
    "aws s3 cp " +:+ s3_path (attrs self) +:+ " "
      +:+ Path_str (local_folder (attrs self)) +:+ " --recursive" in
  emit (EvLocalCmd aws_s3_cmd) ;;
  call (local_cmd cmd aws_s3_cmd).

(** [load_from_s3_to_db]. *)
Definition load_from_s3_to_db (self : Processor) : M unit :=
  let a := attrs self in
  emit (EvMkdir (local_folder a)) ;;
  fs_call mkdir (local_folder a) ;;
  emit (EvLog ("copying " +:+ s3_path a +:+ " to " +:+ Path_str (file_path a))) ;;
  get_from_s3 self (file_path a) (s3_path a) ;;
  emit EvTransform ;;
  call (pre_copy_transform (methods self)) ;;
  emit EvConnect ;;
  db_connect ;;
  emit EvPreCopySql ;;
  call (pre_copy_sql (methods self)) ;;
  emit EvCopyToDb ;;
  call (copy_to_db (methods self)) ;;
  emit EvCommit ;;
  db_commit ;;
  _cleanup self.

(** [sftp_load_from_s3_to_db]. *)
Definition sftp_load_from_s3_to_db (cmd : Command) (self : Processor) : M unit :=
  let a := attrs self in
  emit (EvMkdir (local_folder a)) ;;
  fs_call mkdir (local_folder a) ;;
  emit (EvLog ("copying " +:+ s3_path a +:+ " to " +:+ Path_str (local_folder a))) ;;
  get_from_s3_using_cli cmd self ;;
  emit EvTransform ;;
  call (pre_copy_transform (methods self)) ;;
  emit EvConnect ;;
  db_connect ;;
  emit EvCommit ;;
  db_commit ;;
  emit EvPreCopySql ;;
  call (pre_copy_sql (methods self)) ;;
  emit EvCopyToDb ;;
  call (copy_to_db (methods self)) ;;
  emit EvCommit ;;
  db_commit ;;
  _cleanup self.

(** [sftp_add_file_name_for_cleanup]: the instance with its new
    [file_path], and the cleanup it runs. *)
Definition sftp_add_file_name_for_cleanup (self : Processor) (file_name : string)
    : Processor * M unit :=
  let a := attrs self in
  let self' :=
    mkProcessor
      (mkAttrs (run_date a) (run_date_string a) (run_date_YYYYMMDD a)
         (local_folder a) (joinpath (local_folder a) file_name) (s3_path a)
         (api_return_type a) (sftp_path a) (sftp_path_server a)
         (sftp_user_server a) (sftp_name_server a))
      (methods self) in
  (self', _cleanup self').

End Model.

Arguments mkEnv {Remote} cwd fs s3 db remote.
Arguments mkOutcome {Remote A} res final events.
Arguments res {Remote A} o.
Arguments final {Remote A} o.
Arguments events {Remote A} o.
Arguments mkCommand {Remote} local_cmd ssh_enter ssh_get_file ssh_exit str_of_row.
Arguments mkMethods {Remote} fetch_from_api check_inserted_files
  pre_copy_transform pre_copy_sql copy_to_db.
Arguments mkProcessor {Remote} attrs methods.

(* ===================================================================== *)
(** ** Command-line resolution *)
(* ===================================================================== *)

Module argparse.

(** The value of an attribute of the namespace. *)
Inductive argval : Type :=
| VNone
| VBool (b : bool)
| VStr (s : string)
| VDate (d : date).

Inductive action_kind : Type :=
| Store          (* the default action: one value is stored *)
| StoreTrue      (* action='store_true' *)
| Help.          (* the -h/--help that every parser has *)

(** One [add_argument]. *)
Record Action : Type := mkAction {
  option_string : string;
  dest : string;
  kind : action_kind;
  type_ : option (string -> result argval);
  required : bool;
  default : argval;
  choices : option (list string)
}.

Record ArgumentParser : Type := mkArgumentParser {
  prog : list string;
  actions : list Action
}.

(** [ArgumentParser(prog)]. *)
Definition new (prog : list string) : ArgumentParser :=
  mkArgumentParser prog
    [ mkAction "-h" "help" Help None false VNone None;
      mkAction "--help" "help" Help None false VNone None ].

Definition add_argument (parser : ArgumentParser) (a : Action) : ArgumentParser :=
  mkArgumentParser (prog parser) (actions parser ++ [a]).

(** What the scan of the command line meets, from left to right: an option
    of the parser with the value it takes, or an error (an ambiguous
    abbreviation, a missing value, ...). *)
Inductive occurrence : Type :=
| Occ (option_string : string) (value : option string)
| OccError (msg : string).

(** The scan itself belongs to [argparse]: it is given the options the
    parser declares (and whether each takes a value) and the arguments of
    the process, and returns the occurrences and the arguments it could
    not place. *)
Definition Scan : Type :=
  list (string * bool) -> list string -> list occurrence * list string.

Definition takes_value (a : Action) : bool :=
  match kind a with Store => true | _ => false end.

Definition find_action (parser : ArgumentParser) (o : string) : option Action :=
  find (fun a => String.eqb (option_string a) o) (actions parser).

Abbreviation Namespace := (gmap string argval).

(** [parser.error(msg)]: usage and message on stderr, exit status 2. *)
Definition error {A} (parser : ArgumentParser) (msg : string) : result A * list (list string * string) :=
  (Raise (SystemExit 2), [(prog parser, msg)]).

Definition in_choices (a : Action) (v : argval) : bool :=
  match choices a, v with
  | Some l, VStr s => existsb (String.eqb s) l
  | Some l, _ => false
  | None, _ => true
  end.

(** The actions of the occurrences, one after the other. *)
Fixpoint take_actions (parser : ArgumentParser) (occs : list occurrence) (ns : Namespace)
    : result Namespace * list (list string * string) :=
  match occs with
  | [] => (Ok ns, [])
  | OccError msg :: _ => error parser msg
  | Occ o v :: rest =>
      match find_action parser o with
      | None => error parser ("unrecognized arguments: " +:+ o)
      | Some a =>
          match kind a with
          | Help => (Raise (SystemExit 0), [])
          | StoreTrue => take_actions parser rest (<[dest a := VBool true]> ns)
          | Store =>
              match v with
              | None => error parser ("argument " +:+ o +:+ ": expected one argument")
              | Some arg_string =>
                  let converted :=
                    match type_ a with
                    | Some f => f arg_string
                    | None => Ok (VStr arg_string)
                    end in
                  match converted with
                  | Ok x =>
                      if in_choices a x
                      then take_actions parser rest (<[dest a := x]> ns)
                      else error parser ("argument " +:+ o +:+ ": invalid choice")
                  | Raise (ArgumentTypeError msg) =>
                      error parser ("argument " +:+ o +:+ ": " +:+ msg)
                  | Raise _ =>
                      error parser ("argument " +:+ o +:+ ": invalid value")
                  end
              end
          end
      end
  end.

Definition defaults (parser : ArgumentParser) : Namespace :=
  fold_left (fun ns a => <[dest a := default a]> ns)
    (List.filter (fun a => match kind a with Help => false | _ => true end)
       (actions parser)) ∅.

Definition missing (parser : ArgumentParser) (seen : list occurrence) : list Action :=
  List.filter
    (fun a => required a &&
              negb (existsb (fun o => match o with
                                      | Occ s _ => String.eqb s (option_string a)
                                      | OccError _ => false
                                      end) seen))
    (actions parser).

(** [parser.parse_args()] on the arguments of the process. *)
Definition parse_args (scan : Scan) (parser : ArgumentParser) (sys_argv : list string)
    : result Namespace * list (list string * string) :=
  let '(occs, extras) :=
    scan (map (fun a => (option_string a, takes_value a)) (actions parser)) (tail sys_argv) in
  match take_actions parser occs (defaults parser) with
  | (Ok ns, _) =>
      match missing parser occs with
      | a :: _ =>
          error parser ("the following arguments are required: " +:+ option_string a)
      | [] =>
          match extras with
          | [] => (Ok ns, [])
          | x :: _ => error parser ("unrecognized arguments: " +:+ x)
          end
      end
  | other => other
  end.

(** A plain scan for examples: options are spelled out in full and a value
    is the argument that follows its option. *)
Fixpoint exact_scan_from (opts : list (string * bool)) (args : list string)
    (fuel : nat) : list occurrence * list string :=
  match fuel, args with
  | O, _ | _, [] => ([], [])
  | S n, x :: rest =>
      match find (fun o => String.eqb (fst o) x) opts with
      | Some (o, true) =>
          match rest with
          | v :: rest' =>
              let '(occs, extras) := exact_scan_from opts rest' n in
              (Occ o (Some v) :: occs, extras)
          | [] => ([Occ o None], [])
          end
      | Some (o, false) =>
          let '(occs, extras) := exact_scan_from opts rest n in
          (Occ o None :: occs, extras)
      | None =>
          let '(occs, extras) := exact_scan_from opts rest n in
          (occs, x :: extras)
      end
  end.

Definition exact_scan : Scan :=
  fun opts args => exact_scan_from opts args (length args).

(** The truth value of an attribute. *)
Definition truth (v : option argval) : bool :=
  match v with
  | Some (VBool b) => b
  | Some (VStr s) => negb (String.eqb s EmptyString)
  | Some (VDate _) => true
  | _ => false
  end.

End argparse.

Import argparse.

(** The [type=] callback of [--rundate] as [argparse] calls it. *)
Definition iso_date_arg (datestr : string) : result argval :=
  match iso_date datestr with
  | Ok d => Ok (VDate d)
  | Raise x => Raise x
  end.

(** [parse_arguments]: [argv] becomes the first argument of the parser,
    [parse_args()] reads the arguments of the process. *)
Definition parse_arguments (scan : Scan) (sys_argv : list string)
    (argv : list string) (fileformats : list string)
    : result Namespace * list (list string * string) :=
  let parser := argparse.new argv in
  let parser := add_argument parser
    (mkAction "--rundate" "run_date" Store (Some iso_date_arg) true VNone None) in
  let parser := add_argument parser
    (mkAction "--fetch" "fetch" StoreTrue None false (VBool false) None) in
  let parser := add_argument parser
    (mkAction "--load" "load" StoreTrue None false (VBool false) None) in
  let parser := add_argument parser
    (mkAction "--fileformat" "fileformat" Store None false VNone (Some fileformats)) in
  match parse_args scan parser sys_argv with
  | (Ok args, out) =>
      if negb (truth (args !! "fetch")) && negb (truth (args !! "load"))
      then (Raise (ArgumentTypeError "You must specify either --fetch, --load or both"), out)
      else (Ok args, out)
  | other => other
  end.

(* ===================================================================== *)
(** ** [hitwise.py] *)
(* ===================================================================== *)

Section Hitwise.

Context {Remote : Type}.

(** Modelled from the spec: the statements of the schema hook, created if
    absent and then truncated; [execddl] and [csv_to_table] belong to
    [pymodules.dbwrapper], which is not part of the sources. *)
Inductive stmt : Type :=
| CreateTableIfNotExists (table : string)
| TruncateTable (table : string)
| Blank.

Definition exec_stmt (t : gmap string (list (list string))) (q : stmt)
    : result (gmap string (list (list string))) :=
  match q with
  | CreateTableIfNotExists name =>
      match t !! name with
      | Some _ => Ok t
      | None => Ok (<[name := []]> t)
      end
  | TruncateTable name =>
      match t !! name with
      | Some _ => Ok (<[name := []]> t)
      | None => Raise (OtherError "UndefinedTable")
      end
  | Blank => Ok t
  end.

Fixpoint exec_stmts (t : gmap string (list (list string))) (l : list stmt)
    : result (gmap string (list (list string))) :=
  match l with
  | [] => Ok t
  | q :: rest =>
      match exec_stmt t q with
      | Ok t' => exec_stmts t' rest
      | Raise x => Raise x
      end
  end.

(** Modelled from the spec: [db.execddl(statements)].  The statements run
    one after the other and take effect when they have run, in the
    session and in the committed tables alike: the spec has the table
    emptied by the truncate of a load that was never committed, and left
    as it was when the schema step itself fails. *)
Definition execddl (l : list stmt) (e : @Env Remote) : result unit * @Env Remote :=
  match session (db e) with
  | None => (Raise (OtherError "InterfaceError"), e)
  | Some t =>
      match exec_stmts t l, exec_stmts (committed (db e)) l with
      | Ok t', Ok c' => (Ok tt, set_db e (mkDB c' (Some t') (reachable (db e))))
      | Raise x, _ => (Raise x, e)
      | Ok _, Raise x => (Raise x, e)
      end
  end.

(** Modelled from the spec: [db.csv_to_table(filehandle, tablename)], a
    bulk insert of the records of the staged file. *)
Definition csv_to_table (content : string) (tablename : string) (e : @Env Remote)
    : result unit * @Env Remote :=
  match session (db e) with
  | None => (Raise (OtherError "InterfaceError"), e)
  | Some t =>
      match t !! tablename, utf8_decode content with
      | Some rows, Some text =>
          match csv_reader text with
          | Some recs =>
              (Ok tt, set_db e (mkDB (committed (db e))
                                  (Some (<[tablename := rows ++ recs]> t))
                                  (reachable (db e))))
          | None => (Raise (OtherError "DataError"), e)
          end
      | None, _ => (Raise (OtherError "UndefinedTable"), e)
      | _, None => (Raise UnicodeDecodeError, e)
      end
  end.

(** What [requests] and [pandas] do for the class. *)
Record Libraries : Type := mkLibraries {
  http_get : Remote -> result string * Remote;
  xl_to_csv : Path -> string -> Path -> @Env Remote -> result unit * @Env Remote
}.

Definition hitwise_tables : list stmt :=
  [ CreateTableIfNotExists "ddd_staging.hitwise";
    TruncateTable "ddd_staging.hitwise";
    CreateTableIfNotExists "ddd_staging.hitwise_wider_comparison";
    TruncateTable "ddd_staging.hitwise_wider_comparison";
    Blank ].

(** [load_table] of [CompetitorRankings.copy_to_db]. *)
Definition load_table (from_path : Path) (tablename : string) (e : @Env Remote)
    : result unit * @Env Remote :=
  match read_file (fs e) (abspath e from_path) with
  | Raise x => (Raise x, e)
  | Ok content =>
      match csv_to_table content tablename e with
      | (Ok _, e1) =>
          match unlink (fs e1) (abspath e1 from_path) with
          | Ok m => (Ok tt, set_fs e1 m)
          | Raise x => (Raise x, e1)
          end
      | other => other
      end
  end.

(** The class [CompetitorRankings]. *)
Definition CompetitorRankings (lib : Libraries) (a : Attrs) : @Methods Remote :=
  mkMethods
    (fun r =>
       match http_get lib r with
       | (Ok content, r') => (Ok (PBytes content), r')
       | (Raise x, r') => (Raise x, r')
       end)
    (fun e => (Ok tt, e))
    (fun e =>
       match xl_to_csv lib (file_path a) "DFS Competitors"
               (joinpath (local_folder a) "dfs_competitors.csv") e with
       | (Ok _, e1) =>
           xl_to_csv lib (file_path a) "DFS Competitors (sections)"
             (joinpath (local_folder a) "dfs_competitors_sections.csv") e1
       | other => other
       end)
    (execddl hitwise_tables)
    (fun e =>
       match load_table (joinpath (local_folder a) "dfs_competitors.csv")
               "ddd_staging.hitwise" e with
       | (Ok _, e1) =>
           load_table (joinpath (local_folder a) "dfs_competitors_sections.csv")
             "ddd_staging.hitwise_wider_comparison" e1
       | other => other
       end).

(** An entry of [file_formats]. *)
Record FileFormat : Type := mkFileFormat {
  ff_filename : string;
  ff_klass : Attrs -> @Methods Remote;
  ff_api_return_type : string
}.

Definition file_formats (lib : Libraries) : list (string * FileFormat) :=
  [ ("competitor_rankings",
     mkFileFormat "competitor_rankings_weekly.xls" (CompetitorRankings lib) "bytes") ].

Definition dict_get {A} (d : list (string * A)) (k : string) : option A :=
  match find (fun kv => String.eqb (fst kv) k) d with
  | Some kv => Some (snd kv)
  | None => None
  end.

Definition usage_events (l : list (list string * string)) : list event :=
  map (fun pm => EvUsage (fst pm) (snd pm)) l.

(** [main(argv)]. *)
Definition main (cfg : Config) (lib : Libraries) (scan : Scan)
    (sys_argv : list string) (argv : list string) : @M Remote unit :=
  fun e =>
    let formats := file_formats lib in
    match parse_arguments scan sys_argv argv (map fst formats) with
    | (Raise x, out) =>
        mkOutcome (Raise x) e (EvConfigureLogging :: usage_events out)
    | (Ok args, out) =>
        let pre := EvConfigureLogging :: usage_events out in
        match args !! "fileformat" with
        | Some (VStr k) =>
            match dict_get formats k, args !! "run_date" with
            | Some ff, Some (VDate d) =>
                let processor :=
                  __init__ cfg (ff_klass ff) d "hitwise" (Some (ff_filename ff))
                    (ff_api_return_type ff) None in
                let o :=
                  bind (emit EvConstruct) (fun _ =>
                  bind (if truth (args !! "fetch")
                        then fetch_and_archive_to_s3 cfg processor else ret tt) (fun _ =>
                  if truth (args !! "load")
                  then load_from_s3_to_db processor else ret tt)) e in
                mkOutcome (res o) (final o) (pre ++ events o)
            | None, _ => mkOutcome (Raise KeyError) e pre
            | Some _, _ => mkOutcome (Raise TypeError) e pre
            end
        | _ => mkOutcome (Raise KeyError) e pre
        end
    end.

End Hitwise.


(* ===================================================================== *)
(** ** Predicates of the statements *)
(* ===================================================================== *)

Fixpoint has_slash (s : string) : bool :=
  match s with
  | EmptyString => false
  | String c rest => Ascii.eqb c "/" || has_slash rest
  end.

(** A name of one path segment: not empty, not a single dot, no slash. *)
Definition plain_name (s : string) : bool :=
  keep_part s && negb (has_slash s).

Definition plain_filename (x : option string) : bool :=
  match x with
  | Some s => plain_name s
  | None => true
  end.

(** The path below a root that a run is given: source system, compact
    date, and the file name if there is one. *)
Definition relative_names (source_system : string) (d : date) (filename : option string)
    : list string :=
  [source_system; strftime_compact d] ++
  match filename with Some f => [f] | None => [] end.

(** The number that a string of decimal digits writes. *)
Fixpoint decimal_from (acc : Z) (s : string) : option Z :=
  match s with
  | EmptyString => Some acc
  | String c rest =>
      match digit_val c with
      | Some v => decimal_from (10 * acc + v) rest
      | None => None
      end
  end.

Definition decimal_value (s : string) : option Z :=
  match s with
  | EmptyString => None
  | _ => decimal_from 0 s
  end.

(** Is there a NUL among the characters? *)
Fixpoint has_nul (s : string) : bool :=
  match s with
  | EmptyString => false
  | String c rest => Ascii.eqb c Ascii.zero || has_nul rest
  end.

(** The limits of Linux on the octets of a name and of a path (the path
    with the NUL that ends it). *)
Definition NAME_MAX : nat := 255.
Definition PATH_MAX : nat := 4096.

(** A path of ordinary names: it names an entry, holds no NUL and no
    [..], and stays within the limits on the length of a name and of a
    path.  These are the paths on which [unlink] and [rmdir] answer as
    the system calls do. *)
Definition well_named (p : Path) : bool :=
  match parts p with [] => false | _ => true end &&
  negb (has_nul (Path_str p)) &&
  Nat.ltb (String.length (utf8_encode (Path_str p))) PATH_MAX &&
  forallb (fun x => negb (String.eqb x "..") &&
                    Nat.leb (String.length (utf8_encode x)) NAME_MAX)
          (parts p).

(** A hook that commits nothing itself: the committed tables are the same
    after it as before, whether it returns or raises. *)
Definition commits_nothing {Remote : Type}
    (hook : @Env Remote -> result unit * @Env Remote) : Prop :=
  forall e, committed (db (snd (hook e))) = committed (db e).

(** The outcome [o] with the events [evs] in front of its own. *)
Definition prepend {Remote A : Type} (evs : list event) (o : @outcome Remote A)
    : @outcome Remote A :=
  mkOutcome (res o) (final o) (evs ++ events o).

(* ===================================================================== *)
(** ** A concrete installation, for examples *)
(* ===================================================================== *)

Module Example.

(** The remote source is a counter of the requests it served. *)
Definition cfg : Config :=
  mkConfig "/etl" "etl-bucket" true "/srv/export/" "etl" "sftp.example.org".

Definition env0 : @Env nat :=
  mkEnv [] ∅ (mkS3 ∅ true) (mkDB ∅ None true) 0%nat.

(** [requests] answers with three octets; the conversion of the workbook
    writes nothing. *)
Definition lib : @Libraries nat :=
  mkLibraries (fun r => (Ok "ABC", S r)) (fun _ _ _ e => (Ok tt, e)).

Definition cmd : @Command nat :=
  mkCommand (fun _ e => (Ok tt, e)) (fun _ _ e => (Ok tt, e))
    (fun _ _ e => (Ok tt, e)) (fun e => e) (fun _ => EmptyString).

Definition hitwise : @Processor nat :=
  __init__ cfg (CompetitorRankings lib) (Date 2023 5 1) "hitwise"
    (Some "competitor_rankings_weekly.xls") "bytes" None.



(** A source that answers with rows, declared as such. *)
Definition some_rows : list (list field) :=
  [ [FStr "a,b"; FInt (-5); FNone]; []; [FStr EmptyString];
    [FStr (String DQUOTE "q"); FStr (String CR (String LF "x"))] ].

Definition rows_class (a : Attrs) : @Methods nat :=
  mkMethods (fun r => (Ok (PRows some_rows), S r))
    (fun e => (Ok tt, e)) (fun e => (Ok tt, e)) (fun e => (Ok tt, e))
    (fun e => (Ok tt, e)).

Definition rows_processor : @Processor nat :=
  __init__ cfg rows_class (Date 2023 5 1) "api" (Some "r.csv") "generator" None.

Definition rows_staging_made : FS :=
  <[ ["etl"; "api"; "20230501"] := Dir ]>
  (<[ ["etl"; "api"] := Dir ]> (<[ ["etl"] := Dir ]> ∅)).

(** The archive holds the workbook of the run. *)
Definition env_archived : @Env nat :=
  mkEnv [] ∅
    (mkS3 {[ "etl-bucket/hitwise/20230501/competitor_rankings_weekly.xls" := "ABC" ]} true)
    (mkDB ∅ None true) 0%nat.

(** The archive cannot be reached. *)
Definition env_offline : @Env nat :=
  mkEnv [] ∅ (mkS3 ∅ false) (mkDB ∅ None true) 0%nat.

(** The same installation with fetching switched off. *)
Definition cfg_off : Config :=
  mkConfig "/etl" "etl-bucket" false "/srv/export/" "etl" "sftp.example.org".

(** The staging area once the folder of the run has been made. *)
Definition staging_made : FS :=
  <[ ["etl"; "hitwise"; "20230501"] := Dir ]>
  (<[ ["etl"; "hitwise"] := Dir ]> (<[ ["etl"] := Dir ]> ∅)).

(** The staging area after a fetch: the folder of the run is gone again. *)
Definition staging_left : FS :=
  <[ ["etl"; "hitwise"] := Dir ]> (<[ ["etl"] := Dir ]> ∅).

End Example.

(** The environment [e] with a session just opened on its committed
    tables. *)
Definition opened {Remote : Type} (e : @Env Remote) : @Env Remote :=
  set_db e (mkDB (committed (db e)) (Some (committed (db e))) true).

(** The events by which staging files go away. *)
Definition is_removal (ev : event) : bool :=
  match ev with
  | EvCleanup | EvUnlink _ | EvRmdir _ => true
  | _ => false
  end.

(** The order of upload and cleanup in an outcome [o] of the fetch phase
    that started in [e]: cleanup comes right after the upload of what was
    written, and the archive then holds it.  With an archive that cannot
    be reached the run removes nothing, and once it has got as far as the
    upload it ends there with an exception and the staging file in
    place. *)
Definition upload_then_cleanup {Remote : Type} (self : @Processor Remote)
    (e : @Env Remote) (o : @outcome Remote unit) : Prop :=
  let fp := file_path (attrs self) in
  let key := s3_path (attrs self) in
  (In EvCleanup (events o) ->
   exists pre post l data,
     events o = pre ++ [EvWrite fp data; EvLog l; EvS3Put fp key; EvCleanup] ++ post /\
     forallb (fun ev => negb (is_removal ev)) pre = true /\
     ~ In EvCleanup post /\
     objects (s3 (final o)) !! key = Some data) /\
  (online (s3 e) = false ->
   forallb (fun ev => negb (is_removal ev)) (events o) = true /\
   (In (EvS3Put fp key) (events o) ->
    is_raise (res o) = true /\
    last (events o) = Some (EvS3Put fp key) /\
    exists data,
      In (EvWrite fp data) (events o) /\
      fs (final o) !! abspath e fp = Some (File data))).

(** The options of the parser of [parse_arguments], each with whether it
    takes a value: what the scan of the command line is given. *)
Definition declared_options : list (string * bool) :=
  [ ("-h", false); ("--help", false); ("--rundate", true); ("--fetch", false);
    ("--load", false); ("--fileformat", true) ].

(** What the spec calls the encoding matching the tag: the mode in which
    the staging file is opened and the octets written to it, for a payload
    of the shape that the tag declares: rows as delimited text, a string
    as text, octets as they are. *)
Definition staging_of (api_return_type : string) (x : payload) : option (string * string) :=
  if String.eqb api_return_type "generator" then
    match x with
    | PRows rows => Some ("w+", utf8_encode (csv_writerows rows))
    | _ => None
    end
  else if String.eqb api_return_type "list" then
    match x with
    | PStr s => Some ("w", utf8_encode s)
    | _ => None
    end
  else
    match x with
    | PBytes b => Some ("wb", b)
    | _ => None
    end.

(** Modelled from the spec: the decode that matches each encoding of the
    staging file, which the sources do not contain.  Octets are read as
    they are; text is decoded as UTF-8 without translation of line ends;
    rows are what the reader of the [csv] module reads from that text
    (with the field size limit lifted). *)
Definition matching_decode (api_return_type : string) (content : string) : option payload :=
  if String.eqb api_return_type "generator" then
    match utf8_decode content with
    | Some text =>
        match csv_reader text with
        | Some recs => Some (PRows (map (map FStr) recs))
        | None => None
        end
    | None => None
    end
  else if String.eqb api_return_type "list" then
    match utf8_decode content with
    | Some text => Some (PStr text)
    | None => None
    end
  else Some (PBytes content).

(** Payloads that stand for the same value: rows are compared cell by
    cell, each cell as the string that is written for it. *)
Definition equivalent (x y : payload) : Prop :=
  match x, y with
  | PRows r1, PRows r2 => map (map csv_str) r1 = map (map csv_str) r2
  | _, _ => x = y
  end.

(** A character that needs no quoting. *)
Definition plain_char (c : ascii) : bool :=
  negb (Ascii.eqb c COMMA || Ascii.eqb c DQUOTE || is_newline c).

(** The states in which a cell begins. *)
Definition at_start (st : csv_state) : Prop := st = START_RECORD \/ st = START_FIELD.

(** The states in which a cell can end. *)
Definition at_end (st : csv_state) : Prop :=
  st = IN_FIELD \/ st = QUOTE_IN_QUOTED_FIELD \/ st = START_FIELD.

(** A record that is complete, in front of the ones that follow. *)
Definition and_then (record : list string) (o : option (list (list string)))
    : option (list (list string)) :=
  match o with
  | Some recs => Some (record :: recs)
  | None => None
  end.

(* ===================================================================== *)
(** ** Predicates of the further statements *)
(* ===================================================================== *)

(** Does the path [q] resolve: is every name on the way to it a
    directory? *)
Definition resolves (m : FS) (q : list string) : bool :=
  match walk m [] q with None => true | Some _ => false end.



(** The entry [q] after a step from [m] to [m']: as it was, or a directory
    that was made on the way to [p]. *)
Definition kept_or_made (m m' : FS) (p q : list string) : Prop :=
  m' !! q = m !! q \/ (m !! q = None /\ m' !! q = Some Dir /\ q `prefix_of` p).

(** What is left of the folder [p] once the regular file [x] in it, if
    there is one, is gone: the folder goes as well when it is empty. *)
Definition without_file (m : FS) (p : list string) (x : string) : FS :=
  let gone :=
    match m !! (p ++ [x]) with
    | Some (File _) => delete (p ++ [x]) m
    | _ => m
    end in
  if has_entries gone p then gone else delete p gone.

(** The staging area once the staging file [fp] in the folder [lf] was
    unlinked and the folder removed if nothing was left in it. *)
Definition cleaned (m : FS) (lf fp : list string) : FS :=
  let gone := delete fp m in
  if has_entries gone lf then gone else delete lf gone.

(** The environment [e'] differs from [e] at most in the staging file, the
    staging folder, the object of the run, and the state of the source. *)
Definition same_but {Remote : Type} (self : @Processor Remote) (e e' : @Env Remote)
    : Prop :=
  (forall q, q <> abspath e (file_path (attrs self)) ->
             q <> abspath e (local_folder (attrs self)) ->
             fs e' !! q = fs e !! q) /\
  (forall k, k <> s3_path (attrs self) ->
             objects (s3 e') !! k = objects (s3 e) !! k) /\
  db e' = db e /\ cwd e' = cwd e.

(** The mode in which the branches other than the one of rows open the
    staging file. *)
Definition write_mode (api_return_type : string) : string :=
  if String.eqb api_return_type "list" then "w" else "wb".

(** The command lines that [put_to_s3_using_cli] and
    [get_from_s3_using_cli] hand to [local_cmd]. *)
Definition upload_command {Remote : Type} (self : @Processor Remote) : string :=
  "aws s3 cp " +:+ Path_str (local_folder (attrs self)) +:+ "/ "
    +:+ s3_path (attrs self) +:+ " --recursive".

Definition download_command {Remote : Type} (self : @Processor Remote) : string :=
  "aws s3 cp " +:+ s3_path (attrs self) +:+ " "
    +:+ Path_str (local_folder (attrs self)) +:+ " --recursive".

(** What the loop of [put_to_s3_using_cli] does with one entry. *)
Definition unlink_entry {Remote : Type} (files : list string) : @M Remote unit :=
  bind (emit (EvUnlink (mkPath "/" files)))
       (fun _ => fs_call unlink (mkPath "/" files)).

(** One round of the loop of [sftp_fetch_and_archive_to_s3], and the
    events of the rounds that were started. *)
Definition get_one {Remote : Type} (cmd : @Command Remote) (self : @Processor Remote)
    (files : string) : @M Remote unit :=
  let a := attrs self in
  let sftp_dir := sftp_path_server a +:+ files in
  bind (emit (EvLog ("copying files to " +:+ Path_str (local_folder a)
                       +:+ " " +:+ String LF EmptyString +:+ " from " +:+ sftp_dir)))
    (fun _ => bind (emit (EvSshGet sftp_dir (local_folder a)))
    (fun _ => call (ssh_get_file cmd sftp_dir (local_folder a)))).

Definition rounds {Remote : Type} (self : @Processor Remote) (items : list string)
    : list event :=
  flat_map
    (fun files =>
       let a := attrs self in
       let sftp_dir := sftp_path_server a +:+ files in
       [ EvLog ("copying files to " +:+ Path_str (local_folder a)
                  +:+ " " +:+ String LF EmptyString +:+ " from " +:+ sftp_dir);
         EvSshGet sftp_dir (local_folder a) ])
    items.

(** The block of [sftp_fetch_and_archive_to_s3] that runs while the
    connection is open, and what the method does once it is closed. *)
Definition transfer_block {Remote : Type} (cmd : @Command Remote)
    (self : @Processor Remote) : @M Remote unit :=
  bind (self_fetch_from_api self)
    (fun x => match iter_str cmd x with
              | Raise err => raise err
              | Ok items => for_each items (get_one cmd self)
              end).

Definition after_transfer {Remote : Type} (cmd : @Command Remote)
    (self : @Processor Remote) : @M Remote unit :=
  bind (emit (EvLog ("copying all files from " +:+ Path_str (local_folder (attrs self))
                       +:+ " to " +:+ s3_path (attrs self))))
    (fun _ => bind (emit EvCheckInserted)
    (fun _ => bind (call (check_inserted_files (methods self)))
    (fun _ => put_to_s3_using_cli cmd self))).

(** Events of the transfer from the source, and events of the upload of a
    folder. *)
Definition transfer_event (ev : event) : bool :=
  match ev with
  | EvFetch | EvSshGet _ _ => true
  | _ => false
  end.

Definition upload_event (ev : event) : bool :=
  match ev with
  | EvCheckInserted | EvLocalCmd _ | EvUnlink _ => true
  | _ => false
  end.

(** The transfers among the events: what was asked for, and where to. *)
Definition ssh_get_of (ev : event) : option (string * Path) :=
  match ev with
  | EvSshGet src dst => Some (src, dst)
  | _ => None
  end.

(** The events that only the fetch phase produces, and the events that
    only the load phase produces. *)
Definition fetch_phase_event (ev : event) : bool :=
  match ev with
  | EvFetch | EvOpen _ _ | EvWrite _ _ | EvS3Put _ _ => true
  | _ => false
  end.

Definition load_phase_event (ev : event) : bool :=
  match ev with
  | EvS3Get _ _ | EvTransform | EvConnect | EvPreCopySql | EvCopyToDb | EvCommit => true
  | _ => false
  end.

Definition no_phase_event (ev : event) : bool :=
  negb (fetch_phase_event ev) && negb (load_phase_event ev).

(** The parser that [parse_arguments] builds. *)
Definition the_parser (argv fileformats : list string) : ArgumentParser :=
  add_argument (add_argument (add_argument (add_argument (argparse.new argv)
    (mkAction "--rundate" "run_date" Store (Some iso_date_arg) true VNone None))
    (mkAction "--fetch" "fetch" StoreTrue None false (VBool false) None))
    (mkAction "--load" "load" StoreTrue None false (VBool false) None))
    (mkAction "--fileformat" "fileformat" Store None false VNone (Some fileformats)).

(** What a namespace of that parser holds while the command line is
    read, and what it holds once [--rundate] was read. *)
Definition well_typed (fileformats : list string) (ns : Namespace) : Prop :=
  (ns !! "run_date" = Some VNone \/
   exists d, ns !! "run_date" = Some (VDate d) /\ valid_date d = true) /\
  (exists b, ns !! "fetch" = Some (VBool b)) /\
  (exists b, ns !! "load" = Some (VBool b)) /\
  (ns !! "fileformat" = Some VNone \/
   exists k, ns !! "fileformat" = Some (VStr k) /\ In k fileformats).

Definition dated (ns : Namespace) : Prop :=
  exists d, ns !! "run_date" = Some (VDate d) /\ valid_date d = true.

(* ===================================================================== *)
(** ** More states of the example installation *)
(* ===================================================================== *)

Module Staged.

Definition env_of (m : FS) : @Env nat :=
  mkEnv [] m (mkS3 ∅ true) (mkDB ∅ None true) 0%nat.

(** The folder of the run with two files in it. *)
Definition two_files : FS :=
  <[ ["etl"; "hitwise"; "20230501"; "b.csv"] := File "2" ]>
  (<[ ["etl"; "hitwise"; "20230501"; "a.csv"] := File "1" ]> Example.staging_made).

(** The folder of the run with a file and a folder in it. *)
Definition file_and_folder : FS :=
  <[ ["etl"; "hitwise"; "20230501"; "sub"; "c.csv"] := File "3" ]>
  (<[ ["etl"; "hitwise"; "20230501"; "sub"] := Dir ]>
   (<[ ["etl"; "hitwise"; "20230501"; "a.csv"] := File "1" ]> Example.staging_made)).

(** The staging file of an earlier run is still there. *)
Definition old_file : FS :=
  <[ ["etl"; "hitwise"; "20230501"; "competitor_rankings_weekly.xls"] := File "old" ]>
  Example.staging_made.

(** The staging file of the run, written and not yet uploaded. *)
Definition staged_file : FS :=
  <[ ["etl"; "hitwise"; "20230501"; "competitor_rankings_weekly.xls"] := File "ABC" ]>
  Example.staging_made.

(** A source that cannot be reached. *)
Definition lib_down : @Libraries nat :=
  mkLibraries (fun r => (Raise (OtherError "HTTPError"), S r)) (fun _ _ _ e => (Ok tt, e)).

Definition hitwise_down : @Processor nat :=
  __init__ Example.cfg (CompetitorRankings lib_down) (Date 2023 5 1) "hitwise"
    (Some "competitor_rankings_weekly.xls") "bytes" None.

(** A source on an SFTP server that names two files. *)
Definition names_class (a : Attrs) : @Methods nat :=
  mkMethods (fun r => (Ok (PNames ["a.csv"; "b.csv"]), S r))
    (fun e => (Ok tt, e)) (fun e => (Ok tt, e)) (fun e => (Ok tt, e))
    (fun e => (Ok tt, e)).

Definition sftp_processor : @Processor nat :=
  __init__ Example.cfg names_class (Date 2023 5 1) "sftp" None "list" None.

Definition sftp_staging_made : FS :=
  <[ ["etl"; "sftp"; "20230501"] := Dir ]>
  (<[ ["etl"; "sftp"] := Dir ]> (<[ ["etl"] := Dir ]> ∅)).

(** A processor that was given no file name. *)
Definition no_filename : @Processor nat :=
  __init__ Example.cfg (CompetitorRankings Example.lib) (Date 2023 5 1) "hitwise"
    None "bytes" None.

(** A command line without [--fileformat], and one of a fetch. *)
Definition argv_no_fileformat : list string :=
  ["hitwise.py"; "--rundate"; "2023-05-01"; "--fetch"].

Definition argv_fetch : list string :=
  ["hitwise.py"; "--rundate"; "2023-5-1"; "--fetch"; "--fileformat"; "competitor_rankings"].

(** What the second command line resolves to. *)
Definition fetch_args : Namespace :=
  <[ "fileformat" := VStr "competitor_rankings" ]>
  (<[ "load" := VBool false ]>
   (<[ "fetch" := VBool true ]>
    (<[ "run_date" := VDate (Date 2023 5 1) ]> ∅))).

End Staged.

(* ===================================================================== *)
(** * Properties *)
(* ===================================================================== *)

(** ** Path resolution *)

Lemma split_slash_no_slash (s : string) :
  has_slash s = false -> split_slash s = [s].
Proof.
  induction s as [|c s IH]; simpl; [reflexivity|].
  intros H. apply orb_false_iff in H as [Hc Hs].
  rewrite Hc, (IH Hs). reflexivity.
Qed.

Lemma root_of_no_slash (s : string) :
  has_slash s = false -> root_of s = EmptyString.
Proof.
  destruct s as [|c s]; simpl; [reflexivity|].
  intros H. apply orb_false_iff in H as [Hc _]. rewrite Hc. reflexivity.
Qed.

Lemma Path_of_plain (s : string) :
  plain_name s = true -> Path_of s = mkPath EmptyString [s].
Proof.
  unfold plain_name, Path_of. intros H.
  apply andb_true_iff in H as [Hk Hs]. apply negb_true_iff in Hs.
  rewrite (root_of_no_slash _ Hs), (split_slash_no_slash _ Hs).
  simpl. rewrite Hk. reflexivity.
Qed.

Lemma joinpath_plain (p : Path) (s : string) :
  plain_name s = true -> joinpath p s = mkPath (anchor p) (parts p ++ [s]).
Proof.
  intros H. unfold joinpath. rewrite (Path_of_plain _ H). reflexivity.
Qed.

Lemma digit_char_cases (n : Z) :
  In (digit_char n)
     ["0"; "1"; "2"; "3"; "4"; "5"; "6"; "7"; "8"; "9"]%char.
Proof.
  unfold digit_char.
  assert (H : 0 <= n mod 10 < 10) by (apply Z.mod_pos_bound; lia).
  assert (C : n mod 10 = 0 \/ n mod 10 = 1 \/ n mod 10 = 2 \/ n mod 10 = 3 \/
              n mod 10 = 4 \/ n mod 10 = 5 \/ n mod 10 = 6 \/ n mod 10 = 7 \/
              n mod 10 = 8 \/ n mod 10 = 9) by lia.
  repeat (destruct C as [C|C]; [rewrite C; simpl; tauto|]).
  rewrite C; simpl; tauto.
Qed.

Lemma digit_char_no_slash (n : Z) : Ascii.eqb (digit_char n) "/" = false.
Proof.
  pose proof (digit_char_cases n) as H. simpl in H.
  repeat (destruct H as [H|H]; [rewrite <- H; reflexivity|]).
  destruct H.
Qed.

Lemma keep_part_two (a b : ascii) (s : string) :
  keep_part (String a (String b s)) = true.
Proof.
  unfold keep_part. simpl. destruct (Ascii.eqb a "."); reflexivity.
Qed.

Lemma strftime_compact_plain (d : date) : plain_name (strftime_compact d) = true.
Proof.
  unfold plain_name, strftime_compact, fmt4, fmt2.
  cbv [String.append]. rewrite keep_part_two. cbn [has_slash].
  rewrite !digit_char_no_slash. reflexivity.
Qed.

Lemma strftime_compact_length (d : date) : String.length (strftime_compact d) = 8%nat.
Proof. reflexivity. Qed.

Lemma truthy_plain (f : string) : plain_name f = true -> truthy (Some f) = true.
Proof.
  unfold plain_name, keep_part, truthy. intros H.
  apply andb_true_iff in H as [H _]. apply andb_true_iff in H as [H _].
  exact H.
Qed.

(** The two locations that [__init__] derives, spelled out. *)
Lemma init_paths {Remote : Type} (cfg : Config) (klass : Attrs -> @Methods Remote)
    (d : date) (source_system : string) (filename : option string)
    (art : string) (ttn : option string) :
  plain_name source_system = true ->
  plain_filename filename = true ->
  let a := attrs (__init__ cfg klass d source_system filename art ttn) in
  let root := Path_of (ETL_DATA_HOME cfg) in
  local_folder a =
    mkPath (anchor root) (parts root ++ [source_system; strftime_compact d]) /\
  file_path a =
    mkPath (anchor root) (parts root ++ relative_names source_system d filename) /\
  s3_path a =
    ETL_S3_BUCKET cfg +:+ "/" +:+ join_slash (relative_names source_system d filename).
Proof.
  intros Hs Hf. cbv zeta. unfold __init__, relative_names. cbn [attrs local_folder file_path s3_path].
  rewrite (joinpath_plain _ _ Hs), (joinpath_plain _ _ (strftime_compact_plain d)).
  cbn [anchor parts]. rewrite <- app_assoc. cbn [app].
  split; [reflexivity|].
  destruct filename as [f|]; cbn [plain_filename] in Hf.
  - rewrite (truthy_plain _ Hf). cbn [fmt_opt].
    rewrite (joinpath_plain _ _ Hf). cbn [anchor parts].
    rewrite <- app_assoc. split; reflexivity.
  - cbn [truthy]. split; reflexivity.
Qed.

Lemma digit_val_digit_char (n : Z) : digit_val (digit_char n) = Some (n mod 10).
Proof.
  unfold digit_char.
  assert (H : 0 <= n mod 10 < 10) by (apply Z.mod_pos_bound; lia).
  assert (C : n mod 10 = 0 \/ n mod 10 = 1 \/ n mod 10 = 2 \/ n mod 10 = 3 \/
              n mod 10 = 4 \/ n mod 10 = 5 \/ n mod 10 = 6 \/ n mod 10 = 7 \/
              n mod 10 = 8 \/ n mod 10 = 9) by lia.
  repeat (destruct C as [C|C]; [rewrite C; reflexivity|]).
  rewrite C; reflexivity.
Qed.

Lemma days_in_month_le (y m : Z) : days_in_month y m <= 31.
Proof.
  unfold days_in_month.
  destruct (m =? 2); [destruct (is_leap y); lia|].
  destruct ((m =? 4) || (m =? 6) || (m =? 9) || (m =? 11)); lia.
Qed.

Lemma valid_date_bounds (d : date) :
  valid_date d = true ->
  1 <= year d <= 9999 /\ 1 <= month d <= 12 /\ 1 <= day d <= 31.
Proof.
  unfold valid_date. intros H.
  repeat (apply andb_true_iff in H as [H ?]).
  pose proof (days_in_month_le (year d) (month d)). lia.
Qed.

Lemma four_digits (y : Z) :
  0 <= y <= 9999 ->
  1000 * ((y / 1000) mod 10) + 100 * ((y / 100) mod 10) +
  10 * ((y / 10) mod 10) + y mod 10 = y.
Proof.
  intros H.
  replace (y / 1000) with (y / 10 / 10 / 10) by (rewrite !Z.div_div by lia; reflexivity).
  replace (y / 100) with (y / 10 / 10) by (rewrite !Z.div_div by lia; reflexivity).
  pose proof (Z.div_mod y 10 ltac:(lia)).
  pose proof (Z.div_mod (y / 10) 10 ltac:(lia)).
  pose proof (Z.div_mod (y / 10 / 10) 10 ltac:(lia)).
  pose proof (Z.mod_pos_bound y 10 ltac:(lia)).
  pose proof (Z.mod_pos_bound (y / 10) 10 ltac:(lia)).
  pose proof (Z.mod_pos_bound (y / 10 / 10) 10 ltac:(lia)).
  assert (y / 10 / 10 / 10 < 10)
    by (rewrite !Z.div_div by lia; apply Z.div_lt_upper_bound; lia).
  assert (0 <= y / 10 / 10 / 10) by (repeat apply Z.div_pos; lia).
  rewrite (Z.mod_small (y / 10 / 10 / 10)) by lia.
  lia.
Qed.

Lemma two_digits (n : Z) : 0 <= n <= 99 -> 10 * ((n / 10) mod 10) + n mod 10 = n.
Proof.
  intros H.
  pose proof (Z.div_mod n 10 ltac:(lia)).
  pose proof (Z.mod_pos_bound n 10 ltac:(lia)).
  assert (n / 10 < 10) by (apply Z.div_lt_upper_bound; lia).
  assert (0 <= n / 10) by (apply Z.div_pos; lia).
  rewrite (Z.mod_small (n / 10)) by lia. lia.
Qed.

(** The compact date, read as a number, is the date. *)
Lemma strftime_compact_value (d : date) :
  valid_date d = true ->
  decimal_value (strftime_compact d) = Some (10000 * year d + 100 * month d + day d).
Proof.
  intros Hv. destruct (valid_date_bounds d Hv) as (Hy & Hm & Hd).
  unfold strftime_compact, fmt4, fmt2, decimal_value. cbv [String.append].
  repeat (cbn [decimal_from]; rewrite digit_val_digit_char).
  cbn [decimal_from]. f_equal.
  pose proof (four_digits (year d) ltac:(lia)).
  pose proof (two_digits (month d) ltac:(lia)).
  pose proof (two_digits (day d) ltac:(lia)).
  lia.
Qed.

(** C4. Path resolution in the constructor is a function of the staging
    root, the bucket, the source system, the run date and the file name
    alone: two constructions that agree on these yield the same staging
    path and the same archive key, whatever class, return type or table
    name they are given.  Both locations have the relative structure
    source-system/YYYYMMDD[/filename] and differ only in what stands in
    front of it: the names of the staging root for the path, the bucket
    for the key.  For a date of the calendar with a year of four digits,
    the date segment is eight digits that write year, month and day. *)
Theorem path_resolution_parallel {R1 R2 : Type} (cfg1 cfg2 : Config)
    (klass1 : Attrs -> @Methods R1) (klass2 : Attrs -> @Methods R2)
    (d : date) (source_system : string) (filename : option string)
    (art1 art2 : string) (ttn1 ttn2 : option string) :
  ETL_DATA_HOME cfg1 = ETL_DATA_HOME cfg2 ->
  ETL_S3_BUCKET cfg1 = ETL_S3_BUCKET cfg2 ->
  plain_name source_system = true ->
  plain_filename filename = true ->
  valid_date d = true ->
  1000 <= year d ->
  let a1 := attrs (__init__ cfg1 klass1 d source_system filename art1 ttn1) in
  let a2 := attrs (__init__ cfg2 klass2 d source_system filename art2 ttn2) in
  let root := Path_of (ETL_DATA_HOME cfg1) in
  let rel := relative_names source_system d filename in
  (file_path a1 = file_path a2 /\ s3_path a1 = s3_path a2) /\
  file_path a1 = mkPath (anchor root) (parts root ++ rel) /\
  s3_path a1 = ETL_S3_BUCKET cfg1 +:+ "/" +:+ join_slash rel /\
  rel = [source_system; strftime_compact d] ++
        match filename with Some f => [f] | None => [] end /\
  String.length (strftime_compact d) = 8%nat /\
  decimal_value (strftime_compact d) = Some (10000 * year d + 100 * month d + day d).
Proof.
  intros Hh Hb Hs Hf Hv _. cbv zeta.
  destruct (init_paths cfg1 klass1 d source_system filename art1 ttn1 Hs Hf)
    as (_ & Hp1 & Hk1).
  destruct (init_paths cfg2 klass2 d source_system filename art2 ttn2 Hs Hf)
    as (_ & Hp2 & Hk2).
  cbv zeta in *. rewrite Hp1, Hp2, Hk1, Hk2, Hh, Hb.
  repeat split; try reflexivity. exact (strftime_compact_value d Hv).
Qed.

(** ** The file system *)

Section FileSystemFacts.

Implicit Types (m : FS) (p q cur names : list string).

(** [walk] only looks at the entries strictly between [cur] and the whole
    path. *)
Lemma walk_ext m m' cur names :
  (forall q, q `prefix_of` (cur ++ names) -> q <> cur ++ names -> m !! q = m' !! q) ->
  walk m cur names = walk m' cur names.
Proof.
  revert cur. induction names as [|c rest IH]; intros cur H; [reflexivity|].
  cbn. destruct rest as [|d rest]; [reflexivity|].
  rewrite <- (H (cur ++ [c])).
  - destruct (m !! (cur ++ [c])) as [[|]|]; try reflexivity.
    apply IH. intros q Hq Hne. apply H; rewrite <- app_assoc in *; assumption.
  - exists (d :: rest). rewrite <- app_assoc. reflexivity.
  - intros Heq. apply (f_equal length) in Heq. rewrite !length_app in Heq.
    cbn in Heq. lia.
Qed.

Lemma walk_insert m p n names :
  ~ (p `prefix_of` names /\ p <> names) ->
  walk (<[p := n]> m) [] names = walk m [] names.
Proof.
  intros H. apply walk_ext. cbn. intros q Hq Hne.
  apply lookup_insert_ne. intros ->. apply H. split; assumption.
Qed.

Lemma walk_delete m p names :
  ~ (p `prefix_of` names /\ p <> names) ->
  walk (delete p m) [] names = walk m [] names.
Proof.
  intros H. apply walk_ext. cbn. intros q Hq Hne.
  apply lookup_delete_ne. intros ->. apply H. split; assumption.
Qed.

(** Resolution of a path with one more name. *)
Lemma walk_snoc m cur names x :
  names <> [] ->
  walk m cur (names ++ [x]) =
    match walk m cur names with
    | Some err => Some err
    | None =>
        match m !! (cur ++ names) with
        | None => Some FileNotFoundError
        | Some (File _) => Some NotADirectoryError
        | Some Dir => None
        end
    end.
Proof.
  revert cur. induction names as [|c rest IH]; intros cur Hne; [congruence|].
  destruct rest as [|d rest].
  - cbn. destruct (m !! (cur ++ [c])) as [[|]|]; reflexivity.
  - change (walk m cur ((c :: d :: rest) ++ [x]))
      with (match m !! (cur ++ [c]) with
            | None => Some FileNotFoundError
            | Some (File _) => Some NotADirectoryError
            | Some Dir => walk m (cur ++ [c]) ((d :: rest) ++ [x])
            end).
    change (walk m cur (c :: d :: rest))
      with (match m !! (cur ++ [c]) with
            | None => Some FileNotFoundError
            | Some (File _) => Some NotADirectoryError
            | Some Dir => walk m (cur ++ [c]) (d :: rest)
            end).
    destruct (m !! (cur ++ [c])) as [[|]|]; try reflexivity.
    rewrite IH by discriminate. rewrite <- app_assoc. reflexivity.
Qed.



Lemma is_dir_spec m p :
  is_dir m p = true <-> p = [] \/ (walk m [] p = None /\ m !! p = Some Dir).
Proof.
  unfold is_dir. destruct p as [|c p]; [tauto|].
  destruct (walk m [] (c :: p)) as [err|].
  - split; [discriminate|]. intros [H|[H _]]; discriminate.
  - destruct (m !! (c :: p)) as [[|]|]; split; try discriminate; try tauto;
      intros [H|[_ H]]; discriminate.
Qed.

Lemma os_mkdir_ok m p m' :
  os_mkdir m p = Ok m' -> is_dir m' p = true.
Proof.
  unfold os_mkdir. destruct p as [|c p]; [discriminate|].
  destruct (walk m [] (c :: p)) eqn:Hw; [discriminate|].
  destruct (m !! (c :: p)); [discriminate|]. intros [= <-].
  apply is_dir_spec. right. split.
  - rewrite walk_insert; [exact Hw|]. intros [_ H]. congruence.
  - apply lookup_insert_eq.
Qed.

Lemma mkdir_exist_ok_ok m p m' :
  mkdir_exist_ok m p = Ok m' -> is_dir m' p = true.
Proof.
  unfold mkdir_exist_ok. destruct (os_mkdir m p) as [m1|err] eqn:H.
  - intros [= <-]. exact (os_mkdir_ok _ _ _ H).
  - destruct err; try discriminate;
      (destruct (is_dir m p) eqn:Hd; [intros [= <-]; exact Hd | discriminate]).
Qed.

Lemma mkdir_parents_ok m p k m' :
  mkdir_parents m p k = Ok m' -> is_dir m' (take k p) = true.
Proof.
  revert m'. induction k as [|k IH]; intros m'; cbn [mkdir_parents];
    destruct (os_mkdir m (take _ p)) as [m1|err] eqn:H;
    try (intros [= <-]; exact (os_mkdir_ok _ _ _ H)).
  - destruct err; try discriminate;
      (destruct (is_dir m (take 0 p)) eqn:Hd; [intros [= <-]; exact Hd | discriminate]).
  - destruct err;
      try (destruct (is_dir m (take (S k) p)) eqn:Hd; [intros [= <-]; exact Hd | discriminate]).
    destruct (mkdir_parents m p k) as [m2|err]; [|discriminate].
    apply mkdir_exist_ok_ok.
Qed.

(** After a successful [mkdir] the path is a directory. *)
Lemma mkdir_ok m p m' : mkdir m p = Ok m' -> is_dir m' p = true.
Proof.
  unfold mkdir. intros H. apply mkdir_parents_ok in H.
  rewrite firstn_all in H. exact H.
Qed.

(** Below a directory every name resolves. *)
Lemma walk_child m p x : is_dir m p = true -> walk m [] (p ++ [x]) = None.
Proof.
  intros H. apply is_dir_spec in H. destruct H as [->|[Hw Hl]]; [reflexivity|].
  destruct p as [|c p]; [reflexivity|].
  rewrite walk_snoc by discriminate. rewrite Hw. cbn [app]. rewrite Hl. reflexivity.
Qed.

Lemma open_w_child m p x :
  is_dir m p = true -> m !! (p ++ [x]) <> Some Dir ->
  open_w m (p ++ [x]) = Ok (<[p ++ [x] := File EmptyString]> m).
Proof.
  intros Hd Hn. unfold open_w. rewrite (walk_child _ _ _ Hd).
  destruct (m !! (p ++ [x])) as [[|]|] eqn:E; try congruence;
    destruct (p ++ [x]) eqn:E'; try reflexivity; destruct p; discriminate.
Qed.

Lemma open_w_ok m p m' :
  open_w m p = Ok m' -> p <> [] /\ walk m [] p = None /\ m !! p <> Some Dir.
Proof.
  unfold open_w. destruct p as [|c p]; [discriminate|].
  destruct (walk m [] (c :: p)); [discriminate|].
  destruct (m !! (c :: p)) as [[|]|]; try discriminate; intros _;
    repeat split; congruence.
Qed.

(** What was written is what is read. *)
Lemma read_after_write m p data :
  p <> [] -> walk m [] p = None ->
  read_file (write_close m p data) p = Ok data.
Proof.
  intros Hp Hw. unfold read_file, write_close.
  destruct p as [|c p]; [congruence|].
  rewrite walk_insert, Hw; [|intros [_ H]; congruence].
  rewrite lookup_insert_eq. reflexivity.
Qed.

Lemma unlink_after_write m p data :
  p <> [] -> walk m [] p = None ->
  unlink (write_close m p data) p = Ok (delete p m).
Proof.
  intros Hp Hw. unfold unlink, write_close.
  destruct p as [|c p]; [congruence|].
  rewrite walk_insert, Hw; [|intros [_ H]; congruence].
  rewrite lookup_insert_eq, delete_insert_eq. reflexivity.
Qed.

(** What [unlink] does when it succeeds, and what it raises. *)
Lemma unlink_ok m p m' :
  unlink m p = Ok m' -> m' = delete p m /\ exists c, m !! p = Some (File c).
Proof.
  unfold unlink. destruct p as [|c p]; [discriminate|].
  destruct (walk m [] (c :: p)); [discriminate|].
  destruct (m !! (c :: p)) as [[f|]|]; try discriminate.
  intros [= <-]. eauto.
Qed.


Lemma rmdir_ok m p m' :
  rmdir m p = Ok m' ->
  m' = delete p m /\ m !! p = Some Dir /\ has_entries m p = false.
Proof.
  unfold rmdir. destruct p as [|c p]; [discriminate|].
  destruct (walk m [] (c :: p)); [discriminate|].
  destruct (m !! (c :: p)) as [[f|]|]; try discriminate.
  destruct (has_entries m (c :: p)); [discriminate|].
  intros [= <-]. auto.
Qed.


End FileSystemFacts.

(** ** Running a method step by step *)

Section Running.

Context {Remote : Type}.
Implicit Types e : @Env Remote.

Lemma prepend_nil {A : Type} (o : @outcome Remote A) : prepend [] o = o.
Proof. destruct o; reflexivity. Qed.

Lemma prepend_prepend {A : Type} (l1 l2 : list event) (o : @outcome Remote A) :
  prepend l1 (prepend l2 o) = prepend (l1 ++ l2) o.
Proof. unfold prepend; cbn. rewrite app_assoc. reflexivity. Qed.

(** A [bind] whose first step is known. *)
Lemma bind_run {A B : Type} (m : M A) (k : A -> M B) e r e1 evs :
  m e = mkOutcome r e1 evs ->
  bind m k e =
    match r with
    | Ok a => prepend evs (k a e1)
    | Raise x => mkOutcome (Raise x) e1 evs
    end.
Proof. intros H. unfold bind. rewrite H. cbn. destruct r; reflexivity. Qed.

Lemma bind_emit {B : Type} (ev : event) (k : unit -> M B) e :
  bind (emit ev) k e = prepend [ev] (k tt e).
Proof. reflexivity. Qed.

Lemma bind_call {B : Type} (f : Env -> result unit * Env) (k : unit -> M B) e :
  bind (call f) k e =
    match f e with
    | (Ok _, e') => k tt e'
    | (Raise x, e') => mkOutcome (Raise x) e' []
    end.
Proof.
  unfold bind, call. destruct (f e) as [[[]|x] e']; cbn; [|reflexivity].
  apply prepend_nil.
Qed.

Lemma bind_fs_call {B : Type} (op : FS -> list string -> result FS) (p : Path)
    (k : unit -> M B) e :
  bind (fs_call op p) k e =
    match op (fs e) (abspath e p) with
    | Ok m => k tt (set_fs e m)
    | Raise x => mkOutcome (Raise x) e []
    end.
Proof.
  unfold bind, fs_call. destruct (op (fs e) (abspath e p)); cbn; [|reflexivity].
  apply prepend_nil.
Qed.

Lemma bind_s3_get {B : Type} (key : string) (p : Path) (k : unit -> M B) e :
  bind (s3_get key p) k e =
    if negb (online (s3 e)) then mkOutcome (Raise (OtherError "ConnectionError")) e []
    else match objects (s3 e) !! key with
         | None => mkOutcome (Raise FileNotFoundError) e []
         | Some c =>
             match open_w (fs e) (abspath e p) with
             | Ok _ => k tt (set_fs e (write_close (fs e) (abspath e p) c))
             | Raise x => mkOutcome (Raise x) e []
             end
         end.
Proof.
  unfold bind, s3_get. destruct (negb (online (s3 e))); [reflexivity|].
  destruct (objects (s3 e) !! key); [|reflexivity].
  destruct (open_w (fs e) (abspath e p)); cbn; [|reflexivity].
  apply prepend_nil.
Qed.

Lemma bind_s3_put {B : Type} (p : Path) (key : string) (k : unit -> M B) e :
  bind (s3_put p key) k e =
    if negb (online (s3 e)) then mkOutcome (Raise (OtherError "ConnectionError")) e []
    else match read_file (fs e) (abspath e p) with
         | Ok c => k tt (set_s3 e (mkS3 (<[key := c]> (objects (s3 e))) true))
         | Raise x => mkOutcome (Raise x) e []
         end.
Proof.
  unfold bind, s3_put. destruct (negb (online (s3 e))); [reflexivity|].
  destruct (read_file (fs e) (abspath e p)); cbn; [|reflexivity].
  apply prepend_nil.
Qed.

Lemma bind_db_connect {B : Type} (k : unit -> M B) e :
  bind db_connect k e =
    if reachable (db e)
    then k tt (set_db e (mkDB (committed (db e)) (Some (committed (db e))) true))
    else mkOutcome (Raise (OtherError "OperationalError")) e [].
Proof.
  unfold bind, db_connect. destruct (reachable (db e)); cbn; [|reflexivity].
  apply prepend_nil.
Qed.

Lemma bind_db_commit {B : Type} (k : unit -> M B) e :
  bind db_commit k e =
    match reachable (db e), session (db e) with
    | true, Some t => k tt (set_db e (mkDB t (Some t) true))
    | _, _ => mkOutcome (Raise (OtherError "OperationalError")) e []
    end.
Proof.
  unfold bind, db_commit.
  destruct (reachable (db e)), (session (db e)); cbn; try reflexivity.
  apply prepend_nil.
Qed.

Lemma bind_fetch {B : Type} (self : @Processor Remote) (k : payload -> M B) e :
  bind (self_fetch_from_api self) k e =
    match fetch_from_api (methods self) (remote e) with
    | (Ok x, r) => prepend [EvFetch] (k x (set_remote e r))
    | (Raise x, r) => mkOutcome (Raise x) (set_remote e r) [EvFetch]
    end.
Proof.
  unfold bind, self_fetch_from_api.
  destruct (fetch_from_api (methods self) (remote e)) as [[x|x] r]; reflexivity.
Qed.

Lemma bind_write_staging {B : Type} (p : Path) (data : string) (k : unit -> M B) e :
  bind (write_staging p data) k e =
    prepend [EvWrite p data]
      (k tt (set_fs e (write_close (fs e) (abspath e p) data))).
Proof. reflexivity. Qed.

Lemma bind_assoc {A B C : Type} (m : M A) (k : A -> M B) (h : B -> M C) e :
  bind (bind m k) h e = bind m (fun a => bind (k a) h) e.
Proof.
  unfold bind. destruct (m e) as [[a|x] e1 evs]; cbn; [|reflexivity].
  destruct (k a e1) as [[b|x] e2 evs2]; cbn; [|reflexivity].
  rewrite app_assoc. reflexivity.
Qed.

(** [os.rmdir] raises nothing but an OSError. *)
Lemma rmdir_raises_OSError (m : FS) (p : list string) (x : exn) :
  rmdir m p = Raise x -> is_OSError x = true.
Proof.
  unfold rmdir. destruct p as [|c p]; [intros [= <-]; reflexivity|].
  destruct (walk m [] (c :: p)) as [w|] eqn:Hw.
  - intros [= <-]. revert Hw. generalize (@nil string) as cur.
    generalize (c :: p) as l. clear. induction l as [|a l IH]; intros cur; cbn; [discriminate|].
    destruct l as [|b l]; [discriminate|].
    destruct (m !! (cur ++ [a])) as [[|]|]; try (intros [= <-]; reflexivity).
    apply IH.
  - destruct (m !! (c :: p)) as [[|]|]; try (intros [= <-]; reflexivity).
    destruct (has_entries m (c :: p)); [intros [= <-]; reflexivity | discriminate].
Qed.

(** What [rmdir_if_empty] amounts to. *)
Lemma rmdir_if_empty_run (path : Path) e :
  rmdir_if_empty path e =
    let said := EvLog ("Attempting removal of directory " +:+ Path_str path) in
    match rmdir (fs e) (abspath e path) with
    | Ok m => mkOutcome (Ok tt) (set_fs e m) [said; EvRmdir path]
    | Raise x => mkOutcome (Ok tt) e [said; EvRmdir path; EvLogExn x]
    end.
Proof.
  unfold rmdir_if_empty. rewrite bind_emit. unfold try_except.
  rewrite bind_emit. unfold fs_call.
  destruct (rmdir (fs e) (abspath e path)) as [m|x] eqn:H; cbn; [reflexivity|].
  rewrite (rmdir_raises_OSError _ _ _ H). reflexivity.
Qed.

Lemma try_unlink_run (fp : Path) e :
  try_except (bind (emit (EvUnlink fp)) (fun _ => fs_call unlink fp))
    caught_by_cleanup
    (fun x => bind (emit (EvPrintExn x)) (fun _ => emit (EvPrint "folder is not empty"))) e =
  match unlink (fs e) (abspath e fp) with
  | Ok m => mkOutcome (Ok tt) (set_fs e m) [EvUnlink fp]
  | Raise x =>
      if caught_by_cleanup x
      then mkOutcome (Ok tt) e [EvUnlink fp; EvPrintExn x; EvPrint "folder is not empty"]
      else mkOutcome (Raise x) e [EvUnlink fp]
  end.
Proof.
  unfold try_except. rewrite bind_emit. unfold fs_call.
  destruct (unlink (fs e) (abspath e fp)) as [m|x]; cbn; [reflexivity|].
  destruct (caught_by_cleanup x); reflexivity.
Qed.

(** What [_cleanup] amounts to. *)
Lemma cleanup_run (self : @Processor Remote) e :
  _cleanup self e =
    let fp := file_path (attrs self) in
    let lf := local_folder (attrs self) in
    let said := [EvCleanup; EvLog ("deleting " +:+ Path_str fp); EvUnlink fp] in
    match unlink (fs e) (abspath e fp) with
    | Ok m => prepend said (rmdir_if_empty lf (set_fs e m))
    | Raise x =>
        if caught_by_cleanup x
        then prepend (said ++ [EvPrintExn x; EvPrint "folder is not empty"])
               (rmdir_if_empty lf e)
        else mkOutcome (Raise x) e said
    end.
Proof.
  unfold _cleanup. cbv zeta.
  generalize (@rmdir_if_empty Remote (local_folder (attrs self))). intros R.
  rewrite !bind_emit.
  unfold bind at 1. rewrite try_unlink_run.
  destruct (unlink (fs e) (abspath e (file_path (attrs self)))) as [m|x]; cbn.
  - reflexivity.
  - destruct (caught_by_cleanup x); cbn; reflexivity.
Qed.

End Running.

Ltac unfold_methods :=
  unfold load_from_s3_to_db, sftp_load_from_s3_to_db, fetch_and_archive_to_s3,
    sftp_fetch_and_archive_to_s3, put_to_s3, get_from_s3, get_from_s3_using_cli,
    open_staging.

(** One step of a run: the events go in front, a call is split into its
    two outcomes by the caller. *)
Ltac step :=
  first
    [ rewrite bind_assoc
    | rewrite bind_emit
    | rewrite bind_fs_call
    | rewrite bind_call
    | rewrite bind_s3_get
    | rewrite bind_s3_put
    | rewrite bind_db_connect
    | rewrite bind_db_commit
    | rewrite bind_fetch
    | rewrite bind_write_staging ].

Ltac run := cbn [prepend res final events app fst snd].

(** Membership in the events of a run that have been computed. *)
Ltac not_in_events :=
  let H := fresh in
  intros H; cbn [In app] in H;
  repeat (destruct H as [H|H]; [discriminate H|]); destruct H.

(** ** The fetch phase when fetching is switched off *)

(** C6. With the fetch-enabled flag false, [fetch_and_archive_to_s3] and
    [sftp_fetch_and_archive_to_s3] return at once: they log and print one
    line each and leave the environment (staging area, archive, source) as
    it was. *)
Theorem fetch_disabled_is_noop {Remote : Type} (cfg : Config) (cmd : @Command Remote)
    (self : @Processor Remote) (e : @Env Remote) :
  FETCH_DATA_FROM_SOURCE cfg = false ->
  let o := fetch_and_archive_to_s3 cfg self e in
  let o' := sftp_fetch_and_archive_to_s3 cfg cmd self e in
  let said :=
    [ EvLog ("copying all files from " +:+ Path_str (local_folder (attrs self))
               +:+ " to " +:+ s3_path (attrs self));
      EvPrint "FETCH_DATA_FROM_SOURCE is set to False returning for fetch" ] in
  (res o = Ok tt /\ final o = e /\ events o = said) /\
  (res o' = Ok tt /\ final o' = e /\ events o' = said).
Proof.
  intros H. cbv zeta. unfold_methods. rewrite H. cbn [negb bool_str].
  repeat split; reflexivity.
Qed.

(** ** The load phase *)

(** What a hook that commits nothing leaves of the committed tables. *)
Lemma commits_nothing_run {Remote : Type}
    (hook : @Env Remote -> result unit * @Env Remote) (e e' : @Env Remote)
    (r : result unit) :
  commits_nothing hook -> hook e = (r, e') -> committed (db e') = committed (db e).
Proof. intros H Hh. specialize (H e). rewrite Hh in H. exact H. Qed.

(** C1. [load_from_s3_to_db] after the download, which leaves the
    environment [e1].  When [pre_copy_transform], [pre_copy_sql] or
    [copy_to_db] raises, the run ends there with that exception: the
    events end with the call of the hook, so no [db.commit] was issued,
    [_cleanup] was not invoked and nothing was unlinked or removed, and
    the environment is the one the hook left behind, staging files
    included.  What [copy_to_db] did before it raised is not committed:
    the committed tables are those the schema hook left, and as long as
    no commit was issued they are those from before the load, provided
    the hooks commit nothing themselves.  [_cleanup] is invoked only
    after every earlier step, the commit included, has returned. *)
Theorem load_abort_skips_commit_and_cleanup {Remote : Type}
    (self : @Processor Remote) (e : @Env Remote) :
  let o := load_from_s3_to_db self e in
  let a := attrs self in
  let m := methods self in
  let lf := local_folder a in
  let fp := file_path a in
  let downloaded :=
    [ EvMkdir lf;
      EvLog ("copying " +:+ s3_path a +:+ " to " +:+ Path_str fp);
      EvLog ("copying " +:+ Path_str fp +:+ " to " +:+ s3_path a);
      EvS3Get (s3_path a) fp ] in
  (forall m1 c m2,
     mkdir (fs e) (abspath e lf) = Ok m1 ->
     online (s3 e) = true ->
     objects (s3 e) !! s3_path a = Some c ->
     open_w m1 (abspath e fp) = Ok m2 ->
     let e1 := set_fs e (write_close m1 (abspath e fp) c) in
     (forall x e2,
        pre_copy_transform m e1 = (Raise x, e2) ->
        res o = Raise x /\ final o = e2 /\
        events o = downloaded ++ [EvTransform]) /\
     (forall e2,
        pre_copy_transform m e1 = (Ok tt, e2) ->
        reachable (db e2) = true ->
        (forall x e3,
           pre_copy_sql m (opened e2) = (Raise x, e3) ->
           res o = Raise x /\ final o = e3 /\
           events o = downloaded ++ [EvTransform; EvConnect; EvPreCopySql]) /\
        (forall e3 x e4,
           pre_copy_sql m (opened e2) = (Ok tt, e3) ->
           copy_to_db m e3 = (Raise x, e4) ->
           res o = Raise x /\ final o = e4 /\
           events o =
             downloaded ++ [EvTransform; EvConnect; EvPreCopySql; EvCopyToDb] /\
           (commits_nothing (copy_to_db m) ->
            committed (db (final o)) = committed (db e3))))) /\
  (commits_nothing (pre_copy_transform m) ->
   commits_nothing (pre_copy_sql m) ->
   commits_nothing (copy_to_db m) ->
   ~ In EvCommit (events o) ->
   committed (db (final o)) = committed (db e)) /\
  (In EvCleanup (events o) ->
   exists post,
     events o =
       downloaded ++ [EvTransform; EvConnect; EvPreCopySql; EvCopyToDb; EvCommit; EvCleanup]
       ++ post).
Proof.
  cbv zeta. split.
  - (* a hook raises *)
    intros m1 c m2 Hmk Hon Hobj Hop.
    remember (load_from_s3_to_db self e) as o eqn:Ho. revert Ho.
    unfold_methods. cbv zeta. repeat step. rewrite Hmk. repeat step.
    cbn [s3 fs set_fs].
    change (abspath (set_fs e m1) (file_path (attrs self)))
      with (abspath e (file_path (attrs self))).
    rewrite Hon, Hobj, Hop. cbn [negb].
    repeat step.
    change (set_fs (set_fs e m1) (write_close m1 (abspath e (file_path (attrs self))) c))
      with (set_fs e (write_close m1 (abspath e (file_path (attrs self))) c)).
    intros Ho. split.
    + intros x e2 Ht. rewrite Ht in Ho. subst o. run. repeat split; reflexivity.
    + intros e2 Ht Hr. rewrite Ht in Ho. revert Ho. repeat step. rewrite Hr.
      repeat step. fold (opened e2). intros Ho. split.
      * intros x e3 Hs. rewrite Hs in Ho. subst o. run. repeat split; reflexivity.
      * intros e3 x e4 Hs Hc. rewrite Hs in Ho. revert Ho. repeat step.
        rewrite Hc. intros ->. run. repeat split; try reflexivity.
        intros H. exact (commits_nothing_run _ _ _ _ H Hc).
  - (* every exit of the run *)
    remember (load_from_s3_to_db self e) as o eqn:Ho. revert Ho.
    unfold_methods. cbv zeta. repeat step.
    destruct (mkdir _ _) as [m1|x].
    2:{ intros ->; run. split; [reflexivity | not_in_events]. }
    repeat step.
    destruct (negb _).
    { intros ->; run. split; [reflexivity | not_in_events]. }
    destruct (objects _ !! _) as [c|].
    2:{ intros ->; run. split; [reflexivity | not_in_events]. }
    destruct (open_w _ _) as [m2|x].
    2:{ intros ->; run. split; [reflexivity | not_in_events]. }
    repeat step.
    destruct (pre_copy_transform _ _) as [[[]|x] e3] eqn:Ht.
    2:{ intros ->; run. split; [|not_in_events].
        intros H1 _ _ _. exact (commits_nothing_run _ _ _ _ H1 Ht). }
    repeat step.
    destruct (reachable _).
    2:{ intros ->; run. split; [|not_in_events].
        intros H1 _ _ _. exact (commits_nothing_run _ _ _ _ H1 Ht). }
    repeat step.
    destruct (pre_copy_sql _ _) as [[[]|x] e4] eqn:Hs.
    2:{ intros ->; run. split; [|not_in_events].
        intros H1 H2 _ _. rewrite (commits_nothing_run _ _ _ _ H2 Hs).
        exact (commits_nothing_run _ _ _ _ H1 Ht). }
    repeat step.
    destruct (copy_to_db _ _) as [[[]|x] e5] eqn:Hc.
    2:{ intros ->; run. split; [|not_in_events].
        intros H1 H2 H3 _. rewrite (commits_nothing_run _ _ _ _ H3 Hc).
        rewrite (commits_nothing_run _ _ _ _ H2 Hs).
        exact (commits_nothing_run _ _ _ _ H1 Ht). }
    repeat step.
    destruct (reachable (db e5)), (session (db e5)) as [t|];
      try (intros ->; run; split; [|not_in_events];
           intros H1 H2 H3 _; rewrite (commits_nothing_run _ _ _ _ H3 Hc);
           rewrite (commits_nothing_run _ _ _ _ H2 Hs);
           exact (commits_nothing_run _ _ _ _ H1 Ht)).
    rewrite cleanup_run. cbv zeta.
    destruct (unlink _ _) as [m6|x]; [|destruct (caught_by_cleanup x)];
      rewrite ?rmdir_if_empty_run; cbv zeta; try destruct (rmdir _ _);
      intros ->; run;
      (split; [intros _ _ _ H; exfalso; apply H; cbn [In]; tauto|]);
      intros _; eexists; reflexivity.
Qed.



(** ** Cleanup *)

Section CleanupFacts.

Context {Remote : Type}.
Implicit Types (e : @Env Remote) (m : FS) (p : list string).

Lemma abspath_set_fs e m (q : Path) : abspath (set_fs e m) q = abspath e q.
Proof. reflexivity. Qed.

Lemma abspath_set_s3 e (x : S3) (q : Path) : abspath (set_s3 e x) q = abspath e q.
Proof. reflexivity. Qed.

Lemma abspath_set_db e (x : DB) (q : Path) : abspath (set_db e x) q = abspath e q.
Proof. reflexivity. Qed.

Lemma abspath_set_remote e (x : Remote) (q : Path) :
  abspath (set_remote e x) q = abspath e q.
Proof. reflexivity. Qed.

Lemma walk_stays_blocked m m' cur names :
  m' ⊆ m -> walk m cur names <> None -> walk m' cur names <> None.
Proof.
  intros Hsub. revert cur. induction names as [|c rest IH]; intros cur; cbn; [congruence|].
  destruct rest as [|d rest]; [congruence|].
  destruct (m' !! (cur ++ [c])) as [[f|]|] eqn:Hl; try discriminate.
  rewrite (lookup_weaken _ _ _ _ Hl Hsub). apply IH.
Qed.



(** A directory that was removed cannot be removed again. *)
Lemma rmdir_after_rmdir m m1 p :
  rmdir m p = Ok m1 -> exists x, rmdir m1 p = Raise x.
Proof.
  intros H. pose proof (rmdir_ok _ _ _ H) as (-> & _ & _).
  unfold rmdir in *. destruct p as [|c p]; [discriminate|].
  destruct (walk (delete (c :: p) m) [] (c :: p)); [eauto|].
  rewrite lookup_delete_eq. eauto.
Qed.


End CleanupFacts.

(** The key of a path does not depend on what a step changed. *)
Ltac norm_abspath :=
  repeat first
    [ rewrite abspath_set_fs | rewrite abspath_set_s3
    | rewrite abspath_set_db | rewrite abspath_set_remote ].



(** ** The fetch phase *)

Section FetchFacts.

Context {Remote : Type}.
Implicit Types (e : @Env Remote) (self : @Processor Remote).

Lemma bind_raise {A B : Type} (x : exn) (k : A -> M B) e :
  bind (raise x) k e = mkOutcome (Raise x) e [].
Proof. reflexivity. Qed.

(** What [put_to_s3] amounts to. *)
Lemma put_to_s3_run self (fp : Path) (key : string) e :
  put_to_s3 self fp key e =
    prepend [EvLog ("copying " +:+ Path_str fp +:+ " to " +:+ key); EvS3Put fp key]
      (if negb (online (s3 e))
       then mkOutcome (Raise (OtherError "ConnectionError")) e []
       else match read_file (fs e) (abspath e fp) with
            | Ok c => _cleanup self (set_s3 e (mkS3 (<[key := c]> (objects (s3 e))) true))
            | Raise x => mkOutcome (Raise x) e []
            end).
Proof.
  unfold put_to_s3. rewrite !bind_emit, bind_s3_put, prepend_prepend. reflexivity.
Qed.

(** [_cleanup] touches the file system only. *)
Lemma cleanup_frame self e :
  s3 (final (_cleanup self e)) = s3 e /\
  db (final (_cleanup self e)) = db e /\
  remote (final (_cleanup self e)) = remote e /\
  cwd (final (_cleanup self e)) = cwd e.
Proof.
  rewrite cleanup_run. cbv zeta.
  destruct (unlink _ _); [|destruct (caught_by_cleanup _)];
    rewrite ?rmdir_if_empty_run; cbv zeta; try destruct (rmdir _ _);
    repeat split; reflexivity.
Qed.

(** The events of [_cleanup]: one [EvCleanup] in front, and an upload is
    not the last of them. *)
Lemma cleanup_events self e :
  exists rest,
    events (_cleanup self e) = EvCleanup :: rest /\
    ~ In EvCleanup rest /\
    (exists ev, last rest = Some ev /\ forall p k, ev <> EvS3Put p k).
Proof.
  rewrite cleanup_run. cbv zeta.
  destruct (unlink _ _); [|destruct (caught_by_cleanup _)];
    rewrite ?rmdir_if_empty_run; cbv zeta; try destruct (rmdir _ _);
    run; eexists; (split; [reflexivity|]); (split; [not_in_events|]);
    eexists; (split; [reflexivity|]); discriminate.
Qed.

Lemma no_removal_not_in (l : list event) (ev : event) :
  forallb (fun ev => negb (is_removal ev)) l = true ->
  is_removal ev = true -> ~ In ev l.
Proof.
  intros H Hev Hin. rewrite forallb_forall in H. specialize (H _ Hin).
  rewrite Hev in H. discriminate.
Qed.

(** The staging file is written, uploaded and cleaned up: what this part
    of [fetch_and_archive_to_s3] says about the order. *)
Lemma stage_and_put_order self e0 e (pre : list event) (data : string) :
  let fp := file_path (attrs self) in
  abspath e fp = abspath e0 fp ->
  s3 e = s3 e0 ->
  abspath e fp <> [] ->
  walk (fs e) [] (abspath e fp) = None ->
  forallb (fun ev => negb (is_removal ev)) pre = true ->
  upload_then_cleanup self e0
    (prepend pre
       (bind (write_staging fp data)
          (fun _ => put_to_s3 self fp (s3_path (attrs self))) e)).
Proof.
  cbv zeta. intros Habs Hs3 Hne Hw Hpre.
  rewrite bind_write_staging, put_to_s3_run, !prepend_prepend.
  cbn [s3 set_fs fs]. rewrite abspath_set_fs, (read_after_write _ _ _ Hne Hw).
  unfold upload_then_cleanup. cbv zeta. rewrite <- Hs3.
  destruct (online (s3 e)); cbn [negb].
  2:{ (* the store cannot be reached *)
    run. rewrite app_nil_r, <- !app_assoc. cbn [app]. split.
    + intros H. exfalso. apply in_app_or in H as [H|H].
      * exact (no_removal_not_in _ EvCleanup Hpre eq_refl H).
      * revert H. not_in_events.
    + intros _. split; [rewrite forallb_app, Hpre; reflexivity|].
      intros _. split; [reflexivity|]. split.
      * rewrite last_app. reflexivity.
      * exists data. split.
        -- apply in_or_app. right. left. reflexivity.
        -- cbn [fs set_fs]. rewrite <- Habs. apply lookup_insert_eq. }
  - (* the object is stored *)
    destruct (cleanup_events self
      (set_s3 (set_fs e (write_close (fs e) (abspath e (file_path (attrs self))) data))
         (mkS3 (<[s3_path (attrs self) := data]> (objects (s3 e))) true)))
      as (rest & Hev & Hnot & ev & Hlast & Hput).
    run. rewrite Hev, <- !app_assoc. cbn [app]. split.
    + intros _. exists pre, rest. eexists _, data.
      split; [reflexivity|]. split; [exact Hpre|].
      split; [exact Hnot|].
      destruct (cleanup_frame self
        (set_s3 (set_fs e (write_close (fs e) (abspath e (file_path (attrs self))) data))
           (mkS3 (<[s3_path (attrs self) := data]> (objects (s3 e))) true)))
        as (-> & _).
      cbn [s3 set_s3 objects]. apply lookup_insert_eq.
    + discriminate.
Qed.

Lemma open_w_walk (m m' : FS) (p : list string) :
  open_w m p = Ok m' -> p <> [] /\ walk m' [] p = None.
Proof.
  intros H. pose proof (open_w_ok _ _ _ H) as (Hne & Hw & _).
  split; [exact Hne|]. unfold open_w in H.
  destruct p as [|c p]; [congruence|]. rewrite Hw in H.
  destruct (m !! (c :: p)) as [[|]|]; try discriminate; injection H as <-;
    (rewrite walk_insert; [exact Hw | intros [_ ?]; congruence]).
Qed.

End FetchFacts.

(** A run of the fetch phase that ended before anything was uploaded. *)
Ltac no_upload :=
  intros ->; run; unfold upload_then_cleanup; cbv zeta; run;
  split; [not_in_events | intros _; split; [reflexivity | not_in_events]].

Lemma fetch_upload_then_cleanup {Remote : Type} (cfg : Config)
    (self : @Processor Remote) (e : @Env Remote) :
  upload_then_cleanup self e (fetch_and_archive_to_s3 cfg self e).
Proof.
  remember (fetch_and_archive_to_s3 cfg self e) as o eqn:Ho. revert Ho.
  unfold fetch_and_archive_to_s3, open_staging. cbv zeta.
  destruct (negb (FETCH_DATA_FROM_SOURCE cfg)).
  { rewrite bind_emit. unfold emit. no_upload. }
  repeat step.
  destruct (mkdir _ _) as [m1|x] eqn:Hmk; [|no_upload].
  repeat step.
  destruct (String.eqb _ "generator"); [|destruct (String.eqb _ "list")].
  - (* rows *)
    repeat step. cbn [remote set_fs].
    destruct (fetch_from_api _ _) as [[x|x] r]; [|no_upload].
    destruct x as [|b|t|rows|names]; [unfold raise; no_upload | | | |];
      repeat step;
      (destruct (open_w _ _) as [m2|x] eqn:Hop; [|no_upload]);
      pose proof (open_w_walk _ _ _ Hop) as [Hne Hw];
      cbn [rows_of];
      try (destruct b; [|rewrite bind_raise; no_upload]);
      intros ->; rewrite !prepend_prepend;
      (apply stage_and_put_order; [reflexivity | reflexivity | exact Hne | exact Hw | reflexivity]).
  - (* text *)
    repeat step.
    destruct (open_w _ _) as [m2|x] eqn:Hop; [|no_upload].
    pose proof (open_w_walk _ _ _ Hop) as [Hne Hw].
    repeat step. cbn [remote set_fs].
    destruct (fetch_from_api _ _) as [[x|x] r]; [|no_upload].
    destruct x as [|b|t|rows|names]; try (rewrite bind_raise; no_upload).
    intros ->. rewrite !prepend_prepend.
    apply stage_and_put_order; [reflexivity | reflexivity | exact Hne | exact Hw | reflexivity].
  - (* bytes *)
    repeat step.
    destruct (open_w _ _) as [m2|x] eqn:Hop; [|no_upload].
    pose proof (open_w_walk _ _ _ Hop) as [Hne Hw].
    repeat step. cbn [remote set_fs].
    destruct (fetch_from_api _ _) as [[x|x] r]; [|no_upload].
    destruct x as [|b|t|rows|names]; try (rewrite bind_raise; no_upload).
    intros ->. rewrite !prepend_prepend.
    apply stage_and_put_order; [reflexivity | reflexivity | exact Hne | exact Hw | reflexivity].
Qed.

(** C8. In [fetch_and_archive_to_s3], cleanup is invoked only right after
    the upload of the staging file that was just written, with nothing
    removed before it, and the archive then holds what was written.  When
    the archive cannot be reached, so that the transfer raises, the run
    invokes no [_cleanup] and unlinks and removes nothing; once it has got
    as far as the upload it ends there with an exception, the upload being
    the last thing it did, and the staging file is in place with what was
    written to it. *)
Theorem fetch_uploads_before_cleanup {Remote : Type} (cfg : Config)
    (self : @Processor Remote) (e : @Env Remote) :
  let o := fetch_and_archive_to_s3 cfg self e in
  let fp := file_path (attrs self) in
  let key := s3_path (attrs self) in
  (In EvCleanup (events o) ->
   exists pre post l data,
     events o = pre ++ [EvWrite fp data; EvLog l; EvS3Put fp key; EvCleanup] ++ post /\
     forallb (fun ev => negb (is_removal ev)) pre = true /\
     ~ In EvCleanup post /\
     objects (s3 (final o)) !! key = Some data) /\
  (online (s3 e) = false ->
   forallb (fun ev => negb (is_removal ev)) (events o) = true /\
   (In (EvS3Put fp key) (events o) ->
    is_raise (res o) = true /\
    last (events o) = Some (EvS3Put fp key) /\
    exists data,
      In (EvWrite fp data) (events o) /\
      fs (final o) !! abspath e fp = Some (File data))).
Proof. exact (fetch_upload_then_cleanup cfg self e). Qed.

Section Scenario.

Context {Remote : Type}.
Implicit Types (e : @Env Remote) (m : FS).

Lemma abspath_snoc e (a : string) (l : list string) (x : string) :
  abspath e (mkPath a (l ++ [x])) = abspath e (mkPath a l) ++ [x].
Proof.
  unfold abspath. cbn [anchor parts].
  destruct (String.eqb a EmptyString); [rewrite app_assoc|]; reflexivity.
Qed.

(** Removing a directory after one of its entries was deleted. *)
Lemma rmdir_after_child m (p : list string) (x : string) :
  p <> [] -> is_dir m p = true ->
  rmdir (delete (p ++ [x]) m) p =
    if has_entries (delete (p ++ [x]) m) p then Raise (OSError "ENOTEMPTY")
    else Ok (delete p (delete (p ++ [x]) m)).
Proof.
  intros Hne Hd. apply is_dir_spec in Hd as [Hd|[Hw Hl]]; [contradiction|].
  assert (Hx : p ++ [x] <> p).
  { intros H. apply (f_equal length) in H. rewrite length_app in H. cbn in H. lia. }
  unfold rmdir. destruct p as [|c p]; [contradiction|].
  rewrite walk_delete, Hw.
  - rewrite lookup_delete_ne, Hl by exact Hx. reflexivity.
  - intros [[k Hk] _]. apply (f_equal length) in Hk.
    rewrite !length_app in Hk. cbn in Hk. lia.
Qed.

End Scenario.

(** C3. Run date 2023-05-01, source system [hitwise], file name
    [competitor_rankings_weekly.xls], return type [bytes], fetching
    enabled, the source answering with the three octets ABC; the staging
    folder can be made, the staging path is no directory, the archive can
    be reached.  Then [fetch_and_archive_to_s3] returns normally; it
    writes exactly ABC to {root}/hitwise/20230501/competitor_rankings_weekly.xls
    in binary mode, uploads that file, so that the archive holds ABC under
    {bucket}/hitwise/20230501/competitor_rankings_weekly.xls, then unlinks
    the staging file and removes the staging folder if nothing is left in
    it. *)
Theorem hitwise_fetch_scenario {Remote : Type} (cfg : Config)
    (klass : Attrs -> @Methods Remote) (e : @Env Remote) (r' : Remote) (m1 : FS) :
  let self :=
    __init__ cfg klass (Date 2023 5 1) "hitwise"
      (Some "competitor_rankings_weekly.xls") "bytes" None in
  let root := Path_of (ETL_DATA_HOME cfg) in
  let lf := mkPath (anchor root) (parts root ++ ["hitwise"; "20230501"]) in
  let fp := mkPath (anchor root)
              (parts root ++ ["hitwise"; "20230501"; "competitor_rankings_weekly.xls"]) in
  let key := ETL_S3_BUCKET cfg +:+ "/hitwise/20230501/competitor_rankings_weekly.xls" in
  FETCH_DATA_FROM_SOURCE cfg = true ->
  fetch_from_api (methods self) (remote e) = (Ok (PBytes "ABC"), r') ->
  mkdir (fs e) (abspath e lf) = Ok m1 ->
  m1 !! abspath e fp <> Some Dir ->
  online (s3 e) = true ->
  let o := fetch_and_archive_to_s3 cfg self e in
  let gone := delete (abspath e fp) m1 in
  file_path (attrs self) = fp /\ s3_path (attrs self) = key /\
  res o = Ok tt /\
  (exists l1 l2 l3 l4 tail,
     events o =
       [EvMkdir lf; EvLog l1; EvOpen fp "wb"; EvFetch; EvWrite fp "ABC";
        EvLog l2; EvS3Put fp key;
        EvCleanup; EvLog l3; EvUnlink fp; EvLog l4; EvRmdir lf] ++ tail) /\
  objects (s3 (final o)) !! key = Some "ABC" /\
  fs (final o) !! abspath e fp = None /\
  fs (final o) =
    if has_entries gone (abspath e lf) then gone else delete (abspath e lf) gone.
Proof.
  cbv zeta. intros Hfetch Hsrc Hmk Hnd Hon.
  destruct (init_paths cfg klass (Date 2023 5 1) "hitwise"
              (Some "competitor_rankings_weekly.xls") "bytes" None eq_refl eq_refl)
    as (Hlf & Hfp & Hkey).
  cbv zeta in Hlf, Hfp, Hkey.
  change (relative_names "hitwise" (Date 2023 5 1) (Some "competitor_rankings_weekly.xls"))
    with ["hitwise"; "20230501"; "competitor_rankings_weekly.xls"] in Hfp, Hkey.
  change (strftime_compact (Date 2023 5 1)) with "20230501" in Hlf.
  set (self := __init__ cfg klass (Date 2023 5 1) "hitwise"
                 (Some "competitor_rankings_weekly.xls") "bytes" None) in *.
  set (root := Path_of (ETL_DATA_HOME cfg)) in *.
  set (lf := mkPath (anchor root) (parts root ++ ["hitwise"; "20230501"])) in *.
  set (fp := mkPath (anchor root)
               (parts root ++ ["hitwise"; "20230501"; "competitor_rankings_weekly.xls"])) in *.
  assert (Hart : api_return_type (attrs self) = "bytes") by reflexivity.
  assert (Habs : abspath e fp = abspath e lf ++ ["competitor_rankings_weekly.xls"]).
  { unfold fp, lf.
    change (parts root ++ ["hitwise"; "20230501"; "competitor_rankings_weekly.xls"])
      with (parts root ++ ["hitwise"; "20230501"] ++ ["competitor_rankings_weekly.xls"]).
    rewrite app_assoc. apply abspath_snoc. }
  assert (Hlfne : abspath e lf <> []).
  { unfold abspath, lf. cbn [anchor parts].
    destruct (String.eqb _ _); intros H; apply (f_equal length) in H;
      rewrite ?length_app in H; cbn in H; lia. }
  pose proof (mkdir_ok _ _ _ Hmk) as Hdir.
  split; [exact Hfp|]. split; [exact Hkey|].
  remember (fetch_and_archive_to_s3 cfg self e) as o eqn:Ho. revert Ho.
  unfold fetch_and_archive_to_s3, open_staging. cbv zeta.
  rewrite Hfetch, Hart, Hlf, Hfp, Hkey. cbn [negb String.eqb Ascii.eqb Bool.eqb].
  repeat step. rewrite Hmk. repeat step. cbn [fs set_fs].
  norm_abspath. rewrite Habs.
  rewrite (open_w_child _ _ _ Hdir) by (rewrite <- Habs; exact Hnd).
  repeat step. cbn [remote set_fs]. rewrite Hsrc. repeat step.
  rewrite put_to_s3_run. cbn [s3 set_fs set_remote fs]. rewrite Hon. cbn [negb].
  norm_abspath. rewrite Habs.
  unfold write_close. rewrite insert_insert_eq.
  pose proof (walk_child _ _ "competitor_rankings_weekly.xls" Hdir) as Hw.
  assert (Hne : abspath e lf ++ ["competitor_rankings_weekly.xls"] <> [])
    by (destruct (abspath e lf); discriminate).
  pose proof (read_after_write m1 _ "ABC" Hne Hw) as Hrd.
  pose proof (unlink_after_write m1 _ "ABC" Hne Hw) as Hul.
  unfold write_close in Hrd, Hul. rewrite Hrd.
  rewrite cleanup_run. cbv zeta. rewrite Hlf, Hfp. cbn [fs set_fs set_s3].
  norm_abspath. rewrite Habs, Hul.
  rewrite rmdir_if_empty_run. cbv zeta. cbn [fs set_fs].
  norm_abspath.
  rewrite (rmdir_after_child _ _ _ Hlfne Hdir).
  destruct (has_entries _ _); intros ->; run; cbn [fs set_fs s3 set_s3 objects];
    (split; [reflexivity|]);
    (split; [eexists _, _, _, _, _; reflexivity|]);
    (split; [apply lookup_insert_eq|]);
    (split; [|reflexivity]).
  - apply lookup_delete_eq.
  - rewrite lookup_delete_ne; [apply lookup_delete_eq|].
    intros H. apply (f_equal length) in H. rewrite length_app in H. cbn in H. lia.
Qed.

(** ** Command-line resolution *)

Section ArgparseFacts.

Implicit Types (parser : ArgumentParser) (occs : list occurrence) (ns : Namespace).

Lemma find_action_spec parser o a :
  find_action parser o = Some a -> In a (actions parser) /\ option_string a = o.
Proof.
  unfold find_action. intros H. apply find_some in H as [Hin Heq].
  split; [exact Hin|]. apply String.eqb_eq. exact Heq.
Qed.

(** The program name of the parser only shows in what goes to stderr. *)
Lemma take_actions_prog parser parser' occs ns :
  actions parser = actions parser' ->
  fst (take_actions parser occs ns) = fst (take_actions parser' occs ns) /\
  map snd (snd (take_actions parser occs ns)) =
    map snd (snd (take_actions parser' occs ns)) /\
  Forall (fun pm => fst pm = prog parser) (snd (take_actions parser occs ns)).
Proof.
  intros Hact. revert ns. induction occs as [|[o v|msg] rest IH]; intros ns; cbn [take_actions].
  - repeat split. constructor.
  - unfold find_action. rewrite <- Hact.
    destruct (find _ (actions parser)) as [a|]; [|unfold error; cbn; auto].
    destruct (kind a); [|apply IH|cbn; auto].
    destruct v as [arg_string|]; [|unfold error; cbn; auto].
    destruct (match type_ a with Some f => f arg_string | None => Ok (VStr arg_string) end)
      as [x|[]]; try (unfold error; cbn; auto).
    destruct (in_choices a x); [apply IH|unfold error; cbn; auto].
  - unfold error; cbn; auto.
Qed.

Lemma parse_args_prog (scan : Scan) parser parser' (sys_argv : list string) :
  actions parser = actions parser' ->
  fst (parse_args scan parser sys_argv) = fst (parse_args scan parser' sys_argv) /\
  map snd (snd (parse_args scan parser sys_argv)) =
    map snd (snd (parse_args scan parser' sys_argv)) /\
  Forall (fun pm => fst pm = prog parser) (snd (parse_args scan parser sys_argv)).
Proof.
  intros Hact. unfold parse_args, defaults, missing. rewrite <- Hact.
  destruct (scan _ (tail sys_argv)) as [occs extras].
  destruct (take_actions_prog parser parser' occs
              (fold_left (fun ns a => <[dest a := default a]> ns)
                 (List.filter (fun a => match kind a with Help => false | _ => true end)
                    (actions parser)) ∅) Hact) as (H1 & H2 & H3).
  destruct (take_actions parser occs _) as [[ns|x] out],
           (take_actions parser' occs _) as [[ns'|x'] out'];
    cbn [fst snd] in *; try discriminate; [|auto].
  injection H1 as <-.
  destruct (List.filter _ (actions parser)) as [|a l]; [|unfold error; cbn; auto].
  destruct extras; [|unfold error; cbn; auto].
  cbn. auto.
Qed.

(** An occurrence of an option with an argument that its [type=] callback
    refuses ends the parse with an exit. *)
Lemma take_actions_refused parser occs ns o s a f :
  find_action parser o = Some a -> kind a = Store -> type_ a = Some f ->
  is_raise (f s) = true ->
  In (Occ o (Some s)) occs ->
  exists code out, take_actions parser occs ns = (Raise (SystemExit code), out).
Proof.
  intros Hfind Hkind Htype Hbad. revert ns.
  induction occs as [|[o' v|msg] rest IH]; intros ns Hin; [destruct Hin| |].
  - cbn [take_actions].
    destruct Hin as [[= -> ->]|Hin].
    + rewrite Hfind, Hkind, Htype.
      destruct (f s) as [x|[]]; try discriminate; unfold error; eauto.
    + destruct (find_action parser o') as [a'|]; [|unfold error; eauto].
      destruct (kind a'); [|apply IH; exact Hin|eauto].
      destruct v as [arg_string|]; [|unfold error; eauto].
      destruct (match type_ a' with Some g => g arg_string | None => Ok (VStr arg_string) end)
        as [x|[]]; try (unfold error; eauto).
      destruct (in_choices a' x); [apply IH; exact Hin|unfold error; eauto].
  - cbn [take_actions]. unfold error. eauto.
Qed.

(** An attribute keeps its value when its option does not occur. *)
Lemma take_actions_untouched parser occs ns ns' out (d od : string) :
  (forall a, In a (actions parser) -> dest a = d -> option_string a = od) ->
  (forall v, ~ In (Occ od v) occs) ->
  take_actions parser occs ns = (Ok ns', out) ->
  ns' !! d = ns !! d.
Proof.
  intros Hd. revert ns. induction occs as [|[o v|msg] rest IH]; intros ns Hno; cbn [take_actions].
  - intros [= <- _]. reflexivity.
  - assert (Hrest : forall v', ~ In (Occ od v') rest)
      by (intros v' H; apply (Hno v'); right; exact H).
    destruct (find_action parser o) as [a|] eqn:Hfind; [|discriminate].
    apply find_action_spec in Hfind as [Hin Ho].
    assert (Hne : dest a <> d).
    { intros E. apply (Hno v). left. rewrite <- (Hd a Hin E), Ho. reflexivity. }
    destruct (kind a); [| |discriminate].
    + destruct v as [arg_string|]; [|discriminate].
      destruct (match type_ a with Some g => g arg_string | None => Ok (VStr arg_string) end)
        as [x|[]]; try discriminate.
      destruct (in_choices a x); [|discriminate].
      intros H. rewrite (IH _ Hrest H). apply lookup_insert_ne. exact Hne.
    + intros H. rewrite (IH _ Hrest H). apply lookup_insert_ne. exact Hne.
  - discriminate.
Qed.

End ArgparseFacts.

(** C10. The value that [parse_arguments] returns, or the exception it
    raises, does not depend on its parameter [argv]: with the same file
    formats and the same arguments of the process, two values of [argv]
    give the same result and the same messages.  [argv] only becomes the
    program name of the parser, under which those messages are printed;
    what is parsed are the arguments of the process. *)
Theorem parse_arguments_ignores_argv (scan : Scan) (sys_argv : list string)
    (argv1 argv2 : list string) (fileformats : list string) :
  let r1 := parse_arguments scan sys_argv argv1 fileformats in
  let r2 := parse_arguments scan sys_argv argv2 fileformats in
  fst r1 = fst r2 /\
  map snd (snd r1) = map snd (snd r2) /\
  Forall (fun pm => fst pm = argv1) (snd r1).
Proof.
  cbv zeta. unfold parse_arguments. cbv zeta.
  set (p1 := add_argument _ _). set (p2 := add_argument _ _).
  destruct (parse_args_prog scan p1 p2 sys_argv eq_refl) as (H1 & H2 & H3).
  destruct (parse_args scan p1 sys_argv) as [[ns|x] out],
           (parse_args scan p2 sys_argv) as [[ns'|x'] out'];
    cbn [fst snd] in *; try discriminate.
  - injection H1 as <-.
    destruct (negb (truth (ns !! "fetch")) && negb (truth (ns !! "load")));
      cbn [fst snd]; auto.
  - auto.
Qed.

Lemma take_actions_raise_exit (parser : ArgumentParser) (occs : list occurrence)
    (ns : Namespace) (x : exn) (out : list (list string * string)) :
  take_actions parser occs ns = (Raise x, out) -> exists code, x = SystemExit code.
Proof.
  revert ns. induction occs as [|[o v|msg] rest IH]; intros ns; cbn [take_actions].
  - discriminate.
  - destruct (find_action parser o) as [a|]; [|unfold error; intros [= <- _]; eauto].
    destruct (kind a); [|apply IH|intros [= <- _]; eauto].
    destruct v as [arg_string|]; [|unfold error; intros [= <- _]; eauto].
    destruct (match type_ a with Some g => g arg_string | None => Ok (VStr arg_string) end)
      as [y|[]]; try (unfold error; intros [= <- _]; eauto).
    destruct (in_choices a y); [apply IH|unfold error; intros [= <- _]; eauto].
  - unfold error; intros [= <- _]; eauto.
Qed.

(** The options that [parse_arguments] declares, as the scan is given
    them. *)
Lemma declared_options_eq (argv fileformats : list string) :
  map (fun a => (option_string a, takes_value a))
    (actions
       (add_argument (add_argument (add_argument (add_argument (argparse.new argv)
          (mkAction "--rundate" "run_date" Store (Some iso_date_arg) true VNone None))
          (mkAction "--fetch" "fetch" StoreTrue None false (VBool false) None))
          (mkAction "--load" "load" StoreTrue None false (VBool false) None))
          (mkAction "--fileformat" "fileformat" Store None false VNone (Some fileformats)))) =
  declared_options.
Proof. reflexivity. Qed.

(** When the value of [--rundate] is no date, or when neither [--fetch]
    nor [--load] occurs, [parse_arguments] raises. *)
Lemma parse_arguments_rejects (scan : Scan) (sys_argv argv fileformats : list string) :
  let occs := fst (scan declared_options (tail sys_argv)) in
  (exists s, In (Occ "--rundate" (Some s)) occs /\ strptime_iso s = None) \/
  (forall v, ~ In (Occ "--fetch" v) occs) /\ (forall v, ~ In (Occ "--load" v) occs) ->
  exists x out,
    parse_arguments scan sys_argv argv fileformats = (Raise x, out) /\
    ((exists code, x = SystemExit code) \/
     x = ArgumentTypeError "You must specify either --fetch, --load or both").
Proof.
  cbv zeta. unfold parse_arguments. cbv zeta.
  set (parser := add_argument _ _). unfold parse_args.
  change (map (fun a => (option_string a, takes_value a)) (actions parser))
    with declared_options.
  destruct (scan declared_options (tail sys_argv)) as [occs extras]. cbn [fst].
  intros [(s & Hin & Hbad)|[Hf Hl]].
  - destruct (take_actions_refused parser occs (defaults parser) "--rundate" s
                (mkAction "--rundate" "run_date" Store (Some iso_date_arg) true VNone None)
                iso_date_arg eq_refl eq_refl eq_refl) as (code & out & ->);
      [unfold iso_date_arg, iso_date; rewrite Hbad; reflexivity | exact Hin |].
    eexists _, _. split; [reflexivity|]. left. eexists. reflexivity.
  - destruct (take_actions parser occs (defaults parser)) as [[ns|x] out] eqn:Hta.
    + destruct (missing parser occs);
        [|unfold error; eexists _, _; split; [reflexivity|]; left; eexists; reflexivity].
      destruct extras;
        [|unfold error; eexists _, _; split; [reflexivity|]; left; eexists; reflexivity].
      assert (Hfetch : ns !! "fetch" = Some (VBool false)).
      { rewrite (take_actions_untouched parser occs (defaults parser) ns out "fetch" "--fetch");
          [vm_compute; reflexivity | | exact Hf | exact Hta].
        intros a Hin Hd. cbn in Hin.
        repeat (destruct Hin as [<-|Hin]; [first [reflexivity | discriminate Hd]|]).
        destruct Hin. }
      assert (Hload : ns !! "load" = Some (VBool false)).
      { rewrite (take_actions_untouched parser occs (defaults parser) ns out "load" "--load");
          [vm_compute; reflexivity | | exact Hl | exact Hta].
        intros a Hin Hd. cbn in Hin.
        repeat (destruct Hin as [<-|Hin]; [first [reflexivity | discriminate Hd]|]).
        destruct Hin. }
      rewrite Hfetch, Hload. cbn. eexists _, _. split; [reflexivity|]. right. reflexivity.
    + destruct (take_actions_raise_exit _ _ _ _ _ Hta) as [code ->].
      eexists _, _. split; [reflexivity|]. left. eexists. reflexivity.
Qed.

(** C9. A value of [--rundate] that [strptime] cannot read as a date makes
    [iso_date] raise ArgumentTypeError.  When such a value occurs on the
    command line, or when neither [--fetch] nor [--load] occurs, [main]
    ends with the exception of the argument resolution (the exit of a
    usage error, or the ArgumentTypeError that asks for one of the two
    flags): the environment is untouched, no processor was instantiated,
    and nothing happened but the set-up of logging and the usage message. *)
Theorem main_rejects_before_construction {Remote : Type} (cfg : Config)
    (lib : @Libraries Remote) (scan : Scan) (sys_argv argv : list string)
    (e : @Env Remote) :
  let occs := fst (scan declared_options (tail sys_argv)) in
  let o := main cfg lib scan sys_argv argv e in
  (forall s, strptime_iso s = None ->
     iso_date s =
       Raise (ArgumentTypeError (s +:+ " is not a valid date in YYYY-MM-DD format"))) /\
  ((exists s, In (Occ "--rundate" (Some s)) occs /\ strptime_iso s = None) \/
   (forall v, ~ In (Occ "--fetch" v) occs) /\ (forall v, ~ In (Occ "--load" v) occs) ->
   ((exists code, res o = Raise (SystemExit code)) \/
    res o = Raise (ArgumentTypeError "You must specify either --fetch, --load or both")) /\
   final o = e /\
   ~ In EvConstruct (events o) /\
   Forall (fun ev => ev = EvConfigureLogging \/ exists p msg, ev = EvUsage p msg)
     (events o)).
Proof.
  cbv zeta. split.
  - intros s H. unfold iso_date. rewrite H. reflexivity.
  - intros H. unfold main.
    destruct (parse_arguments_rejects scan sys_argv argv
                (map fst (file_formats lib)) H) as (x & out & -> & Hx).
    run. split; [|split; [reflexivity|split]].
    + destruct Hx as [[code ->]| ->]; eauto.
    + unfold usage_events. intros [H'|H']; [discriminate|].
      apply in_map_iff in H' as (pm & Hpm & _). discriminate.
    + constructor; [left; reflexivity|].
      unfold usage_events. apply Forall_forall. intros ev Hin.
      apply list_elem_of_In, in_map_iff in Hin as (pm & <- & _). right. eauto.
Qed.

(** ** Encodings of the staging file *)

Section CodecFacts.

Lemma utf8_decode_char (c : ascii) (rest : string) :
  utf8_decode (utf8_char c +:+ rest) =
    match utf8_decode rest with
    | Some t => Some (String c t)
    | None => None
    end.
Proof.
  destruct c as [[] [] [] [] [] [] [] []]; reflexivity.
Qed.

(** Decoding what was encoded gives the text back. *)
Lemma utf8_decode_encode (s : string) : utf8_decode (utf8_encode s) = Some s.
Proof.
  induction s as [|c s IH]; [reflexivity|].
  cbn [utf8_encode]. rewrite utf8_decode_char, IH. reflexivity.
Qed.

End CodecFacts.

Section CsvFacts.

Implicit Types (s t x acc rest : string) (c d : ascii) (done : list string).

Lemma append_cons c s t : String c s +:+ t = String c (s +:+ t).
Proof. reflexivity. Qed.

Lemma append_nil_r s : s +:+ EmptyString = s.
Proof. induction s as [|c s IH]; [reflexivity|]. rewrite append_cons, IH. reflexivity. Qed.

Lemma append_assoc s t x : (s +:+ t) +:+ x = s +:+ (t +:+ x).
Proof. induction s as [|c s IH]; [reflexivity|]. rewrite !append_cons, IH. reflexivity. Qed.

Lemma needs_quote_cons c s :
  needs_quote (String c s) = false -> plain_char c = true /\ needs_quote s = false.
Proof.
  cbn [needs_quote]. unfold plain_char. intros H.
  destruct (Ascii.eqb c COMMA), (Ascii.eqb c DQUOTE), (is_newline c); try discriminate.
  split; [reflexivity | exact H].
Qed.

Lemma plain_char_tests c :
  plain_char c = true ->
  Ascii.eqb c COMMA = false /\ Ascii.eqb c DQUOTE = false /\ is_newline c = false.
Proof.
  unfold plain_char.
  destruct (Ascii.eqb c COMMA), (Ascii.eqb c DQUOTE), (is_newline c); try discriminate.
  auto.
Qed.

(** In the middle of the text, a line ends after a line feed or a lone
    carriage return only. *)
Lemma line_ends_other c rest :
  is_newline c = false -> rest <> EmptyString -> line_ends c rest = false.
Proof.
  unfold is_newline, line_ends. intros H Hne.
  destruct rest as [|d rest]; [congruence|].
  apply orb_false_iff in H as [-> ->]. reflexivity.
Qed.

(** Inside quotes every character but the quote is taken as it is, and a
    line that ends there goes on. *)
Lemma in_quoted_step c acc done rest :
  Ascii.eqb c DQUOTE = false ->
  csv_records (mkParser IN_QUOTED_FIELD acc done) (String c rest) =
  csv_records (mkParser IN_QUOTED_FIELD (acc +:+ String c EmptyString) done) rest.
Proof.
  intros H. cbn [csv_records parse_process_char state]. rewrite H.
  cbn [parse_add_char cell cells]. destruct (line_ends c rest); reflexivity.
Qed.

Lemma in_quoted_quote acc done rest :
  rest <> EmptyString ->
  csv_records (mkParser IN_QUOTED_FIELD acc done) (String DQUOTE rest) =
  csv_records (mkParser QUOTE_IN_QUOTED_FIELD acc done) rest.
Proof.
  intros H. cbn [csv_records parse_process_char state].
  change (Ascii.eqb DQUOTE DQUOTE) with true. cbn [set_state cell cells].
  rewrite line_ends_other by (exact H || reflexivity). reflexivity.
Qed.

Lemma quote_quote acc done rest :
  rest <> EmptyString ->
  csv_records (mkParser QUOTE_IN_QUOTED_FIELD acc done) (String DQUOTE rest) =
  csv_records (mkParser IN_QUOTED_FIELD (acc +:+ String DQUOTE EmptyString) done) rest.
Proof.
  intros H. cbn [csv_records parse_process_char state].
  change (Ascii.eqb DQUOTE DQUOTE) with true. cbn [parse_add_char cell cells].
  rewrite line_ends_other by (exact H || reflexivity). reflexivity.
Qed.

Lemma append_snoc acc c x : (acc +:+ String c EmptyString) +:+ x = acc +:+ String c x.
Proof. rewrite append_assoc. reflexivity. Qed.

(** The body of a quoted cell, up to and with the closing quote. *)
Lemma quoted_body x acc done rest :
  rest <> EmptyString ->
  csv_records (mkParser IN_QUOTED_FIELD acc done)
    (double_quotes x +:+ String DQUOTE rest) =
  csv_records (mkParser QUOTE_IN_QUOTED_FIELD (acc +:+ x) done) rest.
Proof.
  intros Hne. revert acc. induction x as [|c x IH]; intros acc.
  - cbn [double_quotes]. rewrite append_nil_r. apply in_quoted_quote. exact Hne.
  - cbn [double_quotes]. destruct (Ascii.eqb c DQUOTE) eqn:E.
    + apply Ascii.eqb_eq in E. subst c. rewrite !append_cons.
      rewrite in_quoted_quote by discriminate.
      rewrite quote_quote by (destruct (double_quotes x); discriminate).
      rewrite IH, append_snoc. reflexivity.
    + rewrite append_cons, (in_quoted_step _ _ _ _ E), IH, append_snoc. reflexivity.
Qed.

(** The characters of a cell that is not quoted. *)
Lemma in_field_step c acc done rest :
  plain_char c = true -> rest <> EmptyString ->
  csv_records (mkParser IN_FIELD acc done) (String c rest) =
  csv_records (mkParser IN_FIELD (acc +:+ String c EmptyString) done) rest.
Proof.
  intros H Hne. destruct (plain_char_tests _ H) as (Hc & Hq & Hn).
  cbn [csv_records parse_process_char state]. rewrite Hn, Hc.
  cbn [parse_add_char cell cells]. rewrite (line_ends_other _ _ Hn Hne). reflexivity.
Qed.

Lemma unquoted_body x acc done rest :
  needs_quote x = false -> rest <> EmptyString ->
  csv_records (mkParser IN_FIELD acc done) (x +:+ rest) =
  csv_records (mkParser IN_FIELD (acc +:+ x) done) rest.
Proof.
  intros Hx Hne. revert acc. induction x as [|c x IH]; intros acc.
  - rewrite append_nil_r. reflexivity.
  - apply needs_quote_cons in Hx as [Hc Hx]. rewrite append_cons.
    rewrite in_field_step; [|exact Hc|destruct x; [exact Hne|discriminate]].
    rewrite (IH Hx), append_snoc. reflexivity.
Qed.

Lemma start_plain st c done rest :
  at_start st -> plain_char c = true -> rest <> EmptyString ->
  csv_records (mkParser st EmptyString done) (String c rest) =
  csv_records (mkParser IN_FIELD (String c EmptyString) done) rest.
Proof.
  intros Hst H Hne. destruct (plain_char_tests _ H) as (Hc & Hq & Hn).
  destruct Hst as [-> | ->];
    cbn [csv_records parse_process_char parse_start_field state];
    rewrite Hn, Hq, Hc; cbn [parse_add_char cell cells];
    rewrite (line_ends_other _ _ Hn Hne); reflexivity.
Qed.

Lemma start_quote st done rest :
  at_start st -> rest <> EmptyString ->
  csv_records (mkParser st EmptyString done) (String DQUOTE rest) =
  csv_records (mkParser IN_QUOTED_FIELD EmptyString done) rest.
Proof.
  intros Hst Hne.
  destruct Hst as [-> | ->];
    cbn [csv_records parse_process_char parse_start_field state];
    change (is_newline DQUOTE) with false; change (Ascii.eqb DQUOTE DQUOTE) with true;
    cbn [set_state cell cells];
    rewrite line_ends_other by (exact Hne || reflexivity); reflexivity.
Qed.

(** The delimiter closes the cell. *)
Lemma comma_closes st acc done rest :
  at_end st \/ (st = START_RECORD /\ acc = EmptyString) -> rest <> EmptyString ->
  csv_records (mkParser st acc done) (String COMMA rest) =
  csv_records (mkParser START_FIELD EmptyString (done ++ [acc])) rest.
Proof.
  intros Hst Hne.
  destruct Hst as [[-> | [-> | ->]] | [-> ->]];
    cbn [csv_records parse_process_char parse_start_field state];
    change (is_newline COMMA) with false; change (Ascii.eqb COMMA DQUOTE) with false;
    change (Ascii.eqb COMMA COMMA) with true;
    cbn [parse_save_field cell cells];
    rewrite line_ends_other by (exact Hne || reflexivity); reflexivity.
Qed.

(** The line terminator closes the cell and the record. *)
Lemma crlf_closes st acc done rest :
  at_end st ->
  csv_records (mkParser st acc done) (CRLF +:+ rest) =
  and_then (done ++ [acc]) (csv_records parse_reset rest).
Proof.
  intros Hst. unfold CRLF. rewrite !append_cons.
  change (EmptyString +:+ rest) with rest.
  destruct Hst as [-> | [-> | ->]];
    cbn [csv_records parse_process_char parse_start_field state];
    change (is_newline CR) with true; change (is_newline LF) with true;
    change (Ascii.eqb CR DQUOTE) with false; change (Ascii.eqb CR COMMA) with false;
    cbn [parse_save_field set_state cell cells state line_ends];
    change (Ascii.eqb CR LF) with false; change (Ascii.eqb LF LF) with true;
    cbn [orb andb negb];
    (destruct rest as [|d rest]; cbn [line_ends orb parse_process_char state set_state cells];
     reflexivity).
Qed.

(** A line terminator at the start of a record is a record without cells. *)
Lemma crlf_alone rest :
  csv_records parse_reset (CRLF +:+ rest) = and_then [] (csv_records parse_reset rest).
Proof.
  unfold CRLF, parse_reset. rewrite !append_cons.
  change (EmptyString +:+ rest) with rest.
  cbn [csv_records parse_process_char state].
  change (is_newline CR) with true; change (is_newline LF) with true.
  cbn [set_state cell cells state line_ends].
  change (Ascii.eqb CR LF) with false; change (Ascii.eqb LF LF) with true.
  cbn [orb andb negb].
  destruct rest as [|d rest]; cbn [line_ends orb parse_process_char state set_state cells];
    reflexivity.
Qed.

(** A cell as the writer writes it, followed by the delimiter. *)
Lemma field_then_comma st x done rest :
  at_start st -> rest <> EmptyString ->
  csv_records (mkParser st EmptyString done) (csv_field x +:+ String COMMA rest) =
  csv_records (mkParser START_FIELD EmptyString (done ++ [x])) rest.
Proof.
  intros Hst Hne. unfold csv_field. destruct (needs_quote x) eqn:Hq.
  - rewrite append_cons, append_assoc, append_cons.
    change (EmptyString +:+ String COMMA rest) with (String COMMA rest).
    rewrite (start_quote _ _ _ Hst) by (destruct (double_quotes x); discriminate).
    rewrite quoted_body by discriminate.
    change (EmptyString +:+ x) with x.
    apply comma_closes; [left; right; left; reflexivity | exact Hne].
  - destruct x as [|c x].
    + change (EmptyString +:+ String COMMA rest) with (String COMMA rest).
      apply comma_closes; [|exact Hne].
      destruct Hst as [-> | ->]; [right; split; reflexivity | left; right; right; reflexivity].
    + apply needs_quote_cons in Hq as [Hc Hx]. rewrite append_cons.
      rewrite (start_plain _ _ _ _ Hst Hc) by (destruct x; discriminate).
      rewrite (unquoted_body _ _ _ _ Hx) by discriminate.
      change (String c EmptyString +:+ x) with (String c x).
      apply comma_closes; [left; left; reflexivity | exact Hne].
Qed.

(** The last cell of a record, followed by the line terminator. *)
Lemma field_then_crlf st x done rest :
  st = START_FIELD \/ (st = START_RECORD /\ x <> EmptyString) ->
  csv_records (mkParser st EmptyString done) (csv_field x +:+ CRLF +:+ rest) =
  and_then (done ++ [x]) (csv_records parse_reset rest).
Proof.
  intros Hst.
  assert (Hs : at_start st) by (destruct Hst as [-> | [-> _]]; [right | left]; reflexivity).
  assert (Hcr : CRLF +:+ rest <> EmptyString) by discriminate.
  unfold csv_field. destruct (needs_quote x) eqn:Hq.
  - rewrite append_cons, append_assoc, append_cons.
    change (EmptyString +:+ CRLF +:+ rest) with (CRLF +:+ rest).
    rewrite (start_quote _ _ _ Hs) by (destruct (double_quotes x); discriminate).
    rewrite quoted_body by exact Hcr.
    change (EmptyString +:+ x) with x.
    apply crlf_closes. right; left; reflexivity.
  - destruct x as [|c x].
    + destruct Hst as [-> | [_ H]]; [|congruence].
      change (EmptyString +:+ CRLF +:+ rest) with (CRLF +:+ rest).
      apply crlf_closes. right; right; reflexivity.
    + apply needs_quote_cons in Hq as [Hc Hx]. rewrite append_cons.
      rewrite (start_plain _ _ _ _ Hs Hc) by (destruct x; discriminate).
      rewrite (unquoted_body _ _ _ _ Hx) by exact Hcr.
      change (String c EmptyString +:+ x) with (String c x).
      apply crlf_closes. left; reflexivity.
Qed.

(** The cells of a record, joined by the delimiter and terminated. *)
Lemma joined_cells l st done rest :
  l <> [] ->
  st = START_FIELD \/ (st = START_RECORD /\ l <> [EmptyString]) ->
  csv_records (mkParser st EmptyString done) (csv_join l +:+ CRLF +:+ rest) =
  and_then (done ++ l) (csv_records parse_reset rest).
Proof.
  revert st done. induction l as [|x l IH]; intros st done Hne Hst; [congruence|].
  destruct l as [|y l].
  - cbn [csv_join]. apply field_then_crlf.
    destruct Hst as [-> | [-> H]]; [left; reflexivity|].
    right. split; [reflexivity|]. intros ->. apply H. reflexivity.
  - change (csv_join (x :: y :: l)) with (csv_field x +:+ String COMMA (csv_join (y :: l))).
    rewrite append_assoc, append_cons.
    rewrite field_then_comma.
    + rewrite IH; [|discriminate|left; reflexivity].
      rewrite <- app_assoc. reflexivity.
    + destruct Hst as [-> | [-> _]]; [right | left]; reflexivity.
    + destruct (csv_join (y :: l)); discriminate.
Qed.

(** One row, written and read. *)
Lemma read_writerow (row : list field) rest :
  csv_records parse_reset (csv_writerow row +:+ rest) =
  and_then (map csv_str row) (csv_records parse_reset rest).
Proof.
  unfold csv_writerow. cbv zeta. generalize (map csv_str row) as l. intros l.
  rewrite append_assoc.
  destruct l as [|x l].
  - cbn [csv_join]. change (EmptyString +:+ CRLF +:+ rest) with (CRLF +:+ rest).
    apply crlf_alone.
  - destruct x as [|c x], l as [|y l];
      try (unfold parse_reset;
           rewrite (joined_cells _ START_RECORD []);
           [reflexivity | discriminate | right; split; [reflexivity | discriminate]]).
    unfold parse_reset. rewrite !append_cons.
    rewrite (start_quote START_RECORD) by first [left; reflexivity | discriminate].
    rewrite in_quoted_quote by discriminate.
    change (EmptyString +:+ CRLF +:+ rest) with (CRLF +:+ rest).
    apply (crlf_closes QUOTE_IN_QUOTED_FIELD EmptyString []). right; left; reflexivity.
Qed.

(** What [csv.reader] reads from what [writerows] wrote are the rows, each
    cell as its string. *)
Lemma csv_reader_writerows (rows : list (list field)) :
  csv_reader (csv_writerows rows) = Some (map (map csv_str) rows).
Proof.
  unfold csv_reader. induction rows as [|row rows IH]; [reflexivity|].
  cbn [csv_writerows map]. rewrite read_writerow, IH. reflexivity.
Qed.

End CsvFacts.

Lemma csv_str_FStr (l : list string) : map csv_str (map FStr l) = l.
Proof. induction l as [|a l IH]; [reflexivity|]. cbn. rewrite IH. reflexivity. Qed.

Lemma csv_str_FStr_rows (l : list (list string)) :
  map (map csv_str) (map (map FStr) l) = l.
Proof.
  induction l as [|a l IH]; [reflexivity|]. cbn [map]. rewrite IH, csv_str_FStr.
  reflexivity.
Qed.

(** What was staged is read back by the matching decode. *)
Lemma staging_round_trip (art : string) (x : payload) (mode data : string) :
  staging_of art x = Some (mode, data) ->
  exists y, matching_decode art data = Some y /\ equivalent x y.
Proof.
  unfold staging_of, matching_decode.
  destruct (String.eqb art "generator"); [|destruct (String.eqb art "list")];
    destruct x as [|b|t|rows|names]; try discriminate; intros [= <- <-].
  - rewrite utf8_decode_encode, csv_reader_writerows.
    eexists. split; [reflexivity|]. cbn [equivalent].
    rewrite csv_str_FStr_rows. reflexivity.
  - rewrite utf8_decode_encode. eexists. split; reflexivity.
  - eexists. split; reflexivity.
Qed.

(** C7. With fetching enabled, a source that returns a payload of the
    shape its tag declares, a staging folder that can be made and a
    staging file that can be opened: [fetch_and_archive_to_s3] opens the
    staging file in the mode that matches the tag and writes the encoding
    that matches it (rows as delimited text, a string as text, octets as
    they are), once, after the fetch.  These octets are what the staging
    file then holds: they are the object that the archive holds once the
    file was uploaded, and when the archive cannot be reached they are
    what is read from the staging file that is left.  The matching decode
    reads from what is held there a payload equivalent to the one that
    was fetched. *)
Theorem staged_encoding_round_trips {Remote : Type} (cfg : Config)
    (self : @Processor Remote) (e : @Env Remote) (x : payload) (r : Remote)
    (m1 m2 : FS) (mode data : string) :
  let fp := file_path (attrs self) in
  let art := api_return_type (attrs self) in
  let key := s3_path (attrs self) in
  FETCH_DATA_FROM_SOURCE cfg = true ->
  fetch_from_api (methods self) (remote e) = (Ok x, r) ->
  staging_of art x = Some (mode, data) ->
  mkdir (fs e) (abspath e (local_folder (attrs self))) = Ok m1 ->
  open_w m1 (abspath e fp) = Ok m2 ->
  let o := fetch_and_archive_to_s3 cfg self e in
  (exists before after,
     events o = before ++ EvWrite fp data :: after /\
     In (EvOpen fp mode) before /\ In EvFetch before /\
     (forall p d, ~ In (EvWrite p d) before)) /\
  (online (s3 e) = true -> objects (s3 (final o)) !! key = Some data) /\
  (online (s3 e) = false -> read_file (fs (final o)) (abspath e fp) = Ok data) /\
  (forall content,
     (online (s3 e) = true /\ objects (s3 (final o)) !! key = Some content) \/
     (online (s3 e) = false /\ read_file (fs (final o)) (abspath e fp) = Ok content) ->
     exists y, matching_decode art content = Some y /\ equivalent x y).
Proof.
  cbv zeta. intros Hon Hsrc Hst Hmk Hop.
  pose proof (staging_round_trip _ _ _ _ Hst) as Hdec.
  pose proof (open_w_walk _ _ _ Hop) as [Hne Hw].
  remember (fetch_and_archive_to_s3 cfg self e) as o eqn:Ho. revert Ho.
  unfold fetch_and_archive_to_s3, open_staging. cbv zeta.
  rewrite Hon. cbn [negb]. repeat step. rewrite Hmk. repeat step.
  unfold staging_of in Hst.
  assert (Hdone : forall (l1 : string) (ev1 ev2 : event) (e' : @Env Remote),
    (ev1 = EvFetch /\ ev2 = EvOpen (file_path (attrs self)) mode \/
     ev1 = EvOpen (file_path (attrs self)) mode /\ ev2 = EvFetch) ->
    fs e' = write_close m2 (abspath e (file_path (attrs self))) data ->
    s3 e' = s3 e -> cwd e' = cwd e ->
    o = prepend [EvMkdir (local_folder (attrs self))]
          (prepend [EvLog l1] (prepend [ev1] (prepend [ev2]
             (prepend [EvWrite (file_path (attrs self)) data]
                (put_to_s3 self (file_path (attrs self)) (s3_path (attrs self)) e'))))) ->
    (exists before after,
       events o = before ++ EvWrite (file_path (attrs self)) data :: after /\
       In (EvOpen (file_path (attrs self)) mode) before /\ In EvFetch before /\
       (forall p d, ~ In (EvWrite p d) before)) /\
    (online (s3 e) = true ->
     objects (s3 (final o)) !! s3_path (attrs self) = Some data) /\
    (online (s3 e) = false ->
     read_file (fs (final o)) (abspath e (file_path (attrs self))) = Ok data) /\
    (forall content,
       (online (s3 e) = true /\
        objects (s3 (final o)) !! s3_path (attrs self) = Some content) \/
       (online (s3 e) = false /\
        read_file (fs (final o)) (abspath e (file_path (attrs self))) = Ok content) ->
       exists y, matching_decode (api_return_type (attrs self)) content = Some y /\
                 equivalent x y)).
  { intros l1 ev1 ev2 e' Hev Hfs Hs3 Hcwd ->.
    assert (Habs : abspath e' (file_path (attrs self)) = abspath e (file_path (attrs self)))
      by (unfold abspath; rewrite Hcwd; reflexivity).
    assert (Hstate :
      (online (s3 e) = true ->
       objects (s3 (final (put_to_s3 self (file_path (attrs self)) (s3_path (attrs self)) e')))
         !! s3_path (attrs self) = Some data) /\
      (online (s3 e) = false ->
       read_file (fs (final (put_to_s3 self (file_path (attrs self)) (s3_path (attrs self)) e')))
         (abspath e (file_path (attrs self))) = Ok data)).
    { rewrite put_to_s3_run, Hs3, Habs, Hfs, (read_after_write _ _ _ Hne Hw).
      destruct (online (s3 e)); cbn [negb prepend final].
      - split; [intros _|discriminate].
        match goal with
        | |- context [_cleanup self ?E] => destruct (cleanup_frame self E) as (-> & _)
        end.
        cbn [s3 set_s3 objects]. apply lookup_insert_eq.
      - split; [discriminate|intros _]. rewrite Hfs.
        exact (read_after_write _ _ _ Hne Hw). }
    destruct Hstate as [Hobj Hfile]. run.
    split.
    { exists [EvMkdir (local_folder (attrs self)); EvLog l1; ev1; ev2].
      eexists. split; [reflexivity|].
      destruct Hev as [[-> ->]|[-> ->]];
        (split; [cbn; tauto|]); (split; [cbn; tauto|]); intros p d; not_in_events. }
    split; [exact Hobj|]. split; [exact Hfile|].
    intros content [[H1 H2]|[H1 H2]].
    - rewrite (Hobj H1) in H2. injection H2 as <-. exact Hdec.
    - rewrite (Hfile H1) in H2. injection H2 as <-. exact Hdec. }
  destruct (String.eqb _ "generator"); [|destruct (String.eqb _ "list")];
    destruct x as [|b|t|rows|names]; try discriminate; injection Hst as <- <-.
  - repeat step. cbn [remote set_fs]. rewrite Hsrc. repeat step.
    cbn [fs set_fs set_remote]. norm_abspath. rewrite Hop. cbn [rows_of].
    rewrite bind_write_staging. intros H.
    eapply Hdone in H;
      [ exact H
      | first [left; split; reflexivity | right; split; reflexivity]
      | reflexivity.. ].
  - repeat step. cbn [fs set_fs]. norm_abspath. rewrite Hop.
    repeat step. cbn [remote set_fs]. rewrite Hsrc.
    rewrite bind_write_staging. intros H.
    eapply Hdone in H;
      [ exact H
      | first [left; split; reflexivity | right; split; reflexivity]
      | reflexivity.. ].
  - repeat step. cbn [fs set_fs]. norm_abspath. rewrite Hop.
    repeat step. cbn [remote set_fs]. rewrite Hsrc.
    rewrite bind_write_staging. intros H.
    eapply Hdone in H;
      [ exact H
      | first [left; split; reflexivity | right; split; reflexivity]
      | reflexivity.. ].
Qed.

(** ** The statements at the example installation *)

Lemma path_resolution_parallel_witness :
  plain_name "hitwise" = true /\
  plain_filename (Some "competitor_rankings_weekly.xls") = true /\
  valid_date (Date 2023 5 1) = true /\
  1000 <= 2023 /\
  file_path (attrs Example.hitwise) =
    mkPath "/" ["etl"; "hitwise"; "20230501"; "competitor_rankings_weekly.xls"] /\
  s3_path (attrs Example.hitwise) =
    "etl-bucket/hitwise/20230501/competitor_rankings_weekly.xls" /\
  decimal_value (strftime_compact (Date 2023 5 1)) = Some 20230501.
Proof.
  split; [reflexivity|]. split; [reflexivity|]. split; [reflexivity|].
  assert (Hy : 1000 <= 2023) by lia. split; [exact Hy|].
  pose proof (path_resolution_parallel Example.cfg Example.cfg
                (CompetitorRankings Example.lib) (@base_methods nat)
                (Date 2023 5 1) "hitwise" (Some "competitor_rankings_weekly.xls")
                "bytes" "list" None None eq_refl eq_refl eq_refl eq_refl eq_refl Hy)
    as (_ & H1 & H2 & _ & _ & H3).
  split; [exact H1|]. split; [exact H2 | exact H3].
Defined.

Lemma fetch_disabled_is_noop_witness :
  FETCH_DATA_FROM_SOURCE Example.cfg_off = false /\
  final (fetch_and_archive_to_s3 Example.cfg_off Example.hitwise Example.env0)
    = Example.env0 /\
  final (sftp_fetch_and_archive_to_s3 Example.cfg_off Example.cmd Example.hitwise
           Example.env0)
    = Example.env0.
Proof.
  split; [reflexivity|].
  pose proof (fetch_disabled_is_noop Example.cfg_off Example.cmd Example.hitwise
                Example.env0 eq_refl) as [(_ & H1 & _) (_ & H2 & _)].
  split; [exact H1 | exact H2].
Defined.

Lemma hitwise_fetch_scenario_witness :
  let o := fetch_and_archive_to_s3 Example.cfg Example.hitwise Example.env0 in
  mkdir (fs Example.env0) ["etl"; "hitwise"; "20230501"]
    = Ok Example.staging_made /\
  res o = Ok tt /\
  objects (s3 (final o)) !! "etl-bucket/hitwise/20230501/competitor_rankings_weekly.xls"
    = Some "ABC" /\
  fs (final o) = Example.staging_left.
Proof.
  cbv zeta.
  assert (Hmk : mkdir (fs Example.env0) ["etl"; "hitwise"; "20230501"]
                = Ok Example.staging_made) by reflexivity.
  split; [exact Hmk|].
  pose proof (hitwise_fetch_scenario Example.cfg (CompetitorRankings Example.lib)
                Example.env0 1%nat Example.staging_made
                eq_refl eq_refl Hmk ltac:(discriminate) eq_refl)
    as (_ & _ & Hres & _ & Hobj & _ & Hfs).
  split; [exact Hres|]. split; [exact Hobj|].
  etransitivity; [exact Hfs | reflexivity].
Defined.


Lemma staged_encoding_round_trips_witness :
  let o := fetch_and_archive_to_s3 Example.cfg Example.rows_processor Example.env0 in
  let data := utf8_encode (csv_writerows Example.some_rows) in
  staging_of "generator" (PRows Example.some_rows) = Some ("w+", data) /\
  In (EvWrite (file_path (attrs Example.rows_processor)) data) (events o) /\
  objects (s3 (final o)) !! "etl-bucket/api/20230501/r.csv" = Some data /\
  exists y, matching_decode "generator" data = Some y /\
            equivalent (PRows Example.some_rows) y.
Proof.
  cbv zeta. split; [reflexivity|].
  pose proof (staged_encoding_round_trips Example.cfg Example.rows_processor
                Example.env0 (PRows Example.some_rows) 1%nat
                Example.rows_staging_made
                (<[ ["etl"; "api"; "20230501"; "r.csv"] := File EmptyString ]>
                   Example.rows_staging_made)
                "w+" (utf8_encode (csv_writerows Example.some_rows))
                eq_refl eq_refl eq_refl
                eq_refl eq_refl)
    as ((before & after & Hev & _) & Hobj & _ & Hdec).
  split; [rewrite Hev; apply in_or_app; right; left; reflexivity|].
  split; [exact (Hobj eq_refl)|].
  exact (Hdec _ (or_introl (conj eq_refl (Hobj eq_refl)))).
Defined.

(** A load that aborts in [copy_to_db] (no converted file is there): the
    downloaded workbook stays in the staging folder. *)
Lemma load_abort_skips_commit_and_cleanup_witness :
  let o := load_from_s3_to_db Example.hitwise Example.env_archived in
  mkdir (fs Example.env_archived) ["etl"; "hitwise"; "20230501"]
    = Ok Example.staging_made /\
  res o = Raise FileNotFoundError /\
  ~ In EvCommit (events o) /\
  fs (final o) !! ["etl"; "hitwise"; "20230501"; "competitor_rankings_weekly.xls"]
    = Some (File "ABC").
Proof.
  cbv zeta. split; [reflexivity|].
  destruct (load_abort_skips_commit_and_cleanup Example.hitwise Example.env_archived)
    as (H & _).
  edestruct (H Example.staging_made "ABC" _ eq_refl eq_refl eq_refl eq_refl) as (_ & H2).
  edestruct (H2 _ eq_refl eq_refl) as (_ & H3).
  edestruct (H3 _ FileNotFoundError _ eq_refl eq_refl) as (Hres & Hfin & Hev & _).
  split; [exact Hres|]. split.
  - rewrite Hev. intros Hin. cbn [In app] in Hin.
    repeat (destruct Hin as [Hin|Hin]; [discriminate Hin|]). destruct Hin.
  - rewrite Hfin. reflexivity.
Defined.



(** A fetch whose upload raises: the staging file stays where it is. *)
Lemma fetch_uploads_before_cleanup_witness :
  let self := Example.hitwise in
  let o := fetch_and_archive_to_s3 Example.cfg self Example.env_offline in
  online (s3 Example.env_offline) = false /\
  In (EvS3Put (file_path (attrs self)) (s3_path (attrs self))) (events o) /\
  is_raise (res o) = true /\
  forallb (fun ev => negb (is_removal ev)) (events o) = true /\
  exists data,
    fs (final o) !! ["etl"; "hitwise"; "20230501"; "competitor_rankings_weekly.xls"]
      = Some (File data).
Proof.
  cbv zeta. split; [reflexivity|].
  assert (Hin : In (EvS3Put (file_path (attrs Example.hitwise))
                      (s3_path (attrs Example.hitwise)))
                   (events (fetch_and_archive_to_s3 Example.cfg Example.hitwise
                              Example.env_offline))).
  { vm_compute. do 6 right. left. reflexivity. }
  split; [exact Hin|].
  destruct (fetch_uploads_before_cleanup Example.cfg Example.hitwise Example.env_offline)
    as (_ & H).
  destruct (H eq_refl) as (Hno & H2).
  destruct (H2 Hin) as (Hr & _ & data & _ & Hfile).
  split; [exact Hr|]. split; [exact Hno|]. exists data. exact Hfile.
Defined.

(** The reader on rows with a delimiter, a quote and a line end in their
    cells. *)
Example csv_reader_writerows_example :
  csv_reader (csv_writerows Example.some_rows) =
    Some [ ["a,b"; "-5"; EmptyString]; []; [EmptyString];
           [String DQUOTE "q"; String CR (String LF "x")] ].
Proof. reflexivity. Qed.

(** The entry point on a date that the calendar does not have, and without
    any of the two flags. *)
Example main_refuses_bad_date :
  let o :=
    main Example.cfg Example.lib exact_scan
      ["hitwise.py"; "--rundate"; "2023-02-30"; "--fetch";
       "--fileformat"; "competitor_rankings"]
      ["hitwise.py"] Example.env0 in
  res o = Raise (SystemExit 2) /\
  events o =
    [EvConfigureLogging;
     EvUsage ["hitwise.py"]
       "argument --rundate: 2023-02-30 is not a valid date in YYYY-MM-DD format"].
Proof. cbv zeta. split; reflexivity. Qed.

Example main_refuses_no_flag :
  let o :=
    main Example.cfg Example.lib exact_scan
      ["hitwise.py"; "--rundate"; "2023-05-01"; "--fileformat"; "competitor_rankings"]
      ["hitwise.py"] Example.env0 in
  res o = Raise (ArgumentTypeError "You must specify either --fetch, --load or both") /\
  events o = [EvConfigureLogging].
Proof. cbv zeta. split; reflexivity. Qed.

(** The entry point on a full run of the fetch phase. *)
Example main_fetches :
  let o :=
    main Example.cfg Example.lib exact_scan
      ["hitwise.py"; "--rundate"; "2023-05-01"; "--fetch";
       "--fileformat"; "competitor_rankings"]
      ["hitwise.py"] Example.env0 in
  res o = Ok tt /\
  objects (s3 (final o)) !! "etl-bucket/hitwise/20230501/competitor_rankings_weekly.xls"
    = Some "ABC" /\
  fs (final o) !! ["etl"; "hitwise"; "20230501"] = None.
Proof. cbv zeta. repeat split; reflexivity. Qed.

(** Dates as [strptime] reads them. *)
Example strptime_examples :
  strptime_iso "2023-05-01" = Some (Date 2023 5 1) /\
  strptime_iso "2023-5-1" = Some (Date 2023 5 1) /\
  strptime_iso "2024-02-29" = Some (Date 2024 2 29) /\
  strptime_iso "2023-02-29" = None /\
  strptime_iso "2023-13-01" = None /\
  strptime_iso "2023-05-011" = None /\
  strptime_iso "20230501" = None /\
  strftime_compact (Date 2023 5 1) = "20230501".
Proof. repeat split; reflexivity. Qed.

(* ===================================================================== *)
(** * Further properties *)
(* ===================================================================== *)

(** ** Dates *)

Lemma strptime_month_fmt2 (m : Z) (rest : string) :
  1 <= m <= 12 ->
  strptime_month (fmt2 m +:+ String "-" rest) = Some (m, rest).
Proof.
  intros H.
  assert (C : m = 1 \/ m = 2 \/ m = 3 \/ m = 4 \/ m = 5 \/ m = 6 \/ m = 7 \/
              m = 8 \/ m = 9 \/ m = 10 \/ m = 11 \/ m = 12) by lia.
  repeat (destruct C as [C|C]; [rewrite C; reflexivity|]).
  rewrite C; reflexivity.
Qed.

Lemma strptime_day_fmt2 (d : Z) :
  1 <= d <= 31 -> strptime_day (fmt2 d) = Some (d, EmptyString).
Proof.
  intros H.
  assert (C : d = 1 \/ d = 2 \/ d = 3 \/ d = 4 \/ d = 5 \/ d = 6 \/ d = 7 \/
              d = 8 \/ d = 9 \/ d = 10 \/ d = 11 \/ d = 12 \/ d = 13 \/ d = 14 \/
              d = 15 \/ d = 16 \/ d = 17 \/ d = 18 \/ d = 19 \/ d = 20 \/ d = 21 \/
              d = 22 \/ d = 23 \/ d = 24 \/ d = 25 \/ d = 26 \/ d = 27 \/ d = 28 \/
              d = 29 \/ d = 30 \/ d = 31) by lia.
  repeat (destruct C as [C|C]; [rewrite C; reflexivity|]).
  rewrite C; reflexivity.
Qed.

Lemma strptime_iso_strftime_iso (d : date) :
  valid_date d = true -> strptime_iso (strftime_iso d) = Some d.
Proof.
  intros Hv. pose proof (valid_date_bounds d Hv) as (Hy & Hm & Hd).
  destruct d as [y m dd]. cbn [year month day] in *.
  unfold strftime_iso. cbn [year month day].
  change (fmt4 y +:+ "-" +:+ fmt2 m +:+ "-" +:+ fmt2 dd)
    with (String (digit_char (y / 1000)) (String (digit_char (y / 100))
            (String (digit_char (y / 10)) (String (digit_char y)
               (String "-" (fmt2 m +:+ String "-" (fmt2 dd))))))).
  unfold strptime_iso. rewrite !digit_val_digit_char.
  rewrite (strptime_month_fmt2 m _ Hm), (strptime_day_fmt2 dd Hd).
  rewrite four_digits by lia.
  rewrite Hv. reflexivity.
Qed.

(** X1. The run date string that [__init__] derives is read back by
    [iso_date] as the run date itself: for every date of the calendar from
    the year 1000 on (the years that [strftime] writes with four digits on
    every platform), [iso_date] applied to [run_date_string] returns the
    [run_date] of the same processor. *)
Theorem iso_date_reads_run_date_string {Remote : Type} (cfg : Config)
    (klass : Attrs -> @Methods Remote) (d : date) (source_system : string)
    (filename : option string) (art : string) (ttn : option string) :
  valid_date d = true ->
  1000 <= year d ->
  iso_date (run_date_string (attrs (__init__ cfg klass d source_system filename art ttn)))
    = Ok d.
Proof.
  intros Hv _. unfold iso_date. cbn [__init__ attrs run_date_string].
  rewrite (strptime_iso_strftime_iso d Hv). reflexivity.
Qed.

Lemma digit_char_inj (a b : Z) : digit_char a = digit_char b -> a mod 10 = b mod 10.
Proof.
  intros H. apply (f_equal digit_val) in H.
  rewrite !digit_val_digit_char in H. congruence.
Qed.

Lemma strftime_compact_inj (d1 d2 : date) :
  valid_date d1 = true -> valid_date d2 = true ->
  strftime_compact d1 = strftime_compact d2 -> d1 = d2.
Proof.
  intros H1 H2.
  pose proof (valid_date_bounds _ H1) as (Hy1 & Hm1 & Hd1).
  pose proof (valid_date_bounds _ H2) as (Hy2 & Hm2 & Hd2).
  destruct d1 as [y1 m1 dd1], d2 as [y2 m2 dd2]. cbn [year month day] in *.
  unfold strftime_compact, fmt4, fmt2. cbn [year month day]. cbv [String.append].
  intros [= E1 E2 E3 E4 E5 E6 E7 E8].
  apply digit_char_inj in E1, E2, E3, E4, E5, E6, E7, E8.
  assert (y1 = y2).
  { rewrite <- (four_digits y1), <- (four_digits y2) by lia. congruence. }
  assert (m1 = m2).
  { rewrite <- (two_digits m1), <- (two_digits m2) by lia. congruence. }
  assert (dd1 = dd2).
  { rewrite <- (two_digits dd1), <- (two_digits dd2) by lia. congruence. }
  congruence.
Qed.

Lemma append_inv_head (s t1 t2 : string) : s +:+ t1 = s +:+ t2 -> t1 = t2.
Proof.
  induction s as [|c s IH]; cbn; [tauto|]. intros [= H]. exact (IH H).
Qed.

Lemma append_inv_same_length (a b r1 r2 : string) :
  String.length a = String.length b -> a +:+ r1 = b +:+ r2 -> a = b.
Proof.
  revert b. induction a as [|c a IH]; intros [|c' b]; cbn; try discriminate; [reflexivity|].
  intros [= Hl] [= -> H]. rewrite (IH _ Hl H). reflexivity.
Qed.

(** X2. Runs of different dates never share a location: two processors
    that differ in nothing but the run date (dates of the calendar, from
    the year 1000 on) have different staging folders and different archive
    keys, and different staging files as well when the file name is a
    single path segment or absent. *)
Theorem distinct_dates_distinct_locations {Remote : Type} (cfg : Config)
    (klass : Attrs -> @Methods Remote) (d1 d2 : date) (source_system : string)
    (filename : option string) (art : string) (ttn : option string) :
  valid_date d1 = true -> valid_date d2 = true ->
  1000 <= year d1 -> 1000 <= year d2 ->
  let a1 := attrs (__init__ cfg klass d1 source_system filename art ttn) in
  let a2 := attrs (__init__ cfg klass d2 source_system filename art ttn) in
  local_folder a1 = local_folder a2 \/
  s3_path a1 = s3_path a2 \/
  (plain_filename filename = true /\ file_path a1 = file_path a2) ->
  d1 = d2.
Proof.
  intros H1 H2 _ _. cbv zeta. intros H.
  apply (strftime_compact_inj d1 d2 H1 H2).
  assert (Hfolder : forall (p : Path),
            joinpath p (strftime_compact d1) = joinpath p (strftime_compact d2) ->
            strftime_compact d1 = strftime_compact d2).
  { intros p. rewrite !joinpath_plain by apply strftime_compact_plain.
    intros [= E]. apply app_inv_head in E. congruence. }
  destruct H as [H|[H|[Hf H]]].
  - cbn [__init__ attrs local_folder] in H. exact (Hfolder _ H).
  - cbn [__init__ attrs s3_path] in H.
    destruct (truthy filename);
      do 4 apply append_inv_head in H;
      [exact (append_inv_same_length (strftime_compact d1) (strftime_compact d2) _ _
                eq_refl H)
      |exact H].
  - cbn [__init__ attrs file_path] in H.
    destruct (truthy filename) eqn:Ht; [|exact (Hfolder _ H)].
    destruct filename as [f|]; [|discriminate]. cbn [plain_filename fmt_opt] in *.
    rewrite !(joinpath_plain _ f Hf) in H. injection H as Ha Hp.
    apply app_inv_tail in Hp.
    rewrite !(joinpath_plain _ (strftime_compact _)) in Hp by apply strftime_compact_plain.
    cbn [parts] in Hp. apply app_inv_head in Hp. congruence.
Qed.

(** ** The namespace of the command line *)

Section ParseFacts.

Implicit Types (occs : list occurrence) (ns : Namespace).

(** [strptime] returns dates of the calendar only. *)
Lemma strptime_iso_valid (s : string) (d : date) :
  strptime_iso s = Some d -> valid_date d = true.
Proof.
  unfold strptime_iso.
  repeat match goal with
         | |- context [match ?x with _ => _ end] => destruct x eqn:?; try discriminate
         end.
  intros [= <-]. assumption.
Qed.

Lemma parse_arguments_unfold (scan : Scan) (sys_argv argv fileformats : list string) :
  parse_arguments scan sys_argv argv fileformats =
    let parser := the_parser argv fileformats in
    match parse_args scan parser sys_argv with
    | (Ok args, out) =>
        if negb (truth (args !! "fetch")) && negb (truth (args !! "load"))
        then (Raise (ArgumentTypeError "You must specify either --fetch, --load or both"), out)
        else (Ok args, out)
    | other => other
    end.
Proof. reflexivity. Qed.

(** One occurrence that was accepted. *)
Lemma take_actions_step (argv fileformats : list string) o v occs ns ns' out :
  take_actions (the_parser argv fileformats) (Occ o v :: occs) ns = (Ok ns', out) ->
  exists ns1,
    take_actions (the_parser argv fileformats) occs ns1 = (Ok ns', out) /\
    (well_typed fileformats ns -> well_typed fileformats ns1) /\
    (dated ns -> dated ns1) /\
    (o = "--rundate" -> dated ns1).
Proof.
  cbn [take_actions].
  destruct (find_action (the_parser argv fileformats) o) as [a|] eqn:Hfind; [|discriminate].
  apply find_action_spec in Hfind as [Hin Ho]. cbn in Hin.
  destruct Hin as [<-|[<-|[<-|[<-|[<-|[<-|[]]]]]]];
    cbn [kind dest type_ choices option_string] in *; try discriminate.
  - (* --rundate *)
    destruct v as [s|]; [|discriminate].
    unfold iso_date_arg, iso_date.
    destruct (strptime_iso s) as [d|] eqn:Hs; [|discriminate].
    cbn [in_choices choices]. intros H. eexists. split; [exact H|].
    pose proof (strptime_iso_valid _ _ Hs) as Hv.
    assert (Hd : dated (<["run_date" := VDate d]> ns))
      by (exists d; split; [apply lookup_insert_eq|exact Hv]).
    split; [|split; [intros _; exact Hd|intros _; exact Hd]].
    intros (_ & Hf & Hl & Hff). split; [right; exact Hd|].
    rewrite !lookup_insert_ne by discriminate. auto.
  - (* --fetch *)
    intros H. eexists. split; [exact H|]. subst o.
    split; [|split; [|discriminate]].
    + intros (Hr & _ & Hl & Hff). unfold well_typed.
      rewrite lookup_insert_eq, !lookup_insert_ne by discriminate. eauto.
    + intros (d & Hd & Hv). exists d. rewrite lookup_insert_ne by discriminate. auto.
  - (* --load *)
    intros H. eexists. split; [exact H|]. subst o.
    split; [|split; [|discriminate]].
    + intros (Hr & Hf & _ & Hff). unfold well_typed.
      rewrite lookup_insert_eq, !lookup_insert_ne by discriminate. eauto.
    + intros (d & Hd & Hv). exists d. rewrite lookup_insert_ne by discriminate. auto.
  - (* --fileformat *)
    destruct v as [s|]; [|discriminate].
    destruct (in_choices _ (VStr s)) eqn:Hc; [|discriminate].
    intros H. eexists. split; [exact H|]. subst o.
    split; [|split; [|discriminate]].
    + intros (Hr & Hf & Hl & _). unfold well_typed.
      rewrite lookup_insert_eq, !lookup_insert_ne by discriminate.
      split; [exact Hr|]. split; [exact Hf|]. split; [exact Hl|].
      right. exists s. split; [reflexivity|].
      cbn [in_choices choices] in Hc. apply existsb_exists in Hc as (k & Hk & He).
      apply String.eqb_eq in He. subst k. exact Hk.
    + intros (d & Hd & Hv). exists d. rewrite lookup_insert_ne by discriminate. auto.
Qed.

Lemma take_actions_no_output (parser : ArgumentParser) occs ns ns' out :
  take_actions parser occs ns = (Ok ns', out) -> out = [].
Proof.
  revert ns. induction occs as [|[o v|msg] rest IH]; intros ns; cbn [take_actions].
  - intros [= _ <-]. reflexivity.
  - destruct (find_action parser o) as [a|]; [|discriminate].
    destruct (kind a); [|apply IH|discriminate].
    destruct v as [arg_string|]; [|discriminate].
    destruct (match type_ a with Some g => g arg_string | None => Ok (VStr arg_string) end)
      as [x|[]]; try discriminate.
    destruct (in_choices a x); [apply IH|discriminate].
  - discriminate.
Qed.

Lemma take_actions_well_typed (argv fileformats : list string) occs ns ns' out :
  take_actions (the_parser argv fileformats) occs ns = (Ok ns', out) ->
  (well_typed fileformats ns -> well_typed fileformats ns') /\
  (dated ns -> dated ns') /\
  ((exists v, In (Occ "--rundate" v) occs) -> dated ns').
Proof.
  revert ns. induction occs as [|[o v|msg] rest IH]; intros ns H.
  - cbn in H. injection H as <- _. split; [tauto|]. split; [tauto|]. intros [v []].
  - apply take_actions_step in H as (ns1 & H1 & Hw & Hd & Hr).
    destruct (IH _ H1) as (Hw' & Hd' & Hr').
    split; [tauto|]. split; [tauto|].
    intros (v' & [[= -> ->]|Hin]); [apply Hd', Hr; reflexivity|].
    apply Hr'. eauto.
  - discriminate.
Qed.

(** A parse that succeeded went through all three stages. *)
Lemma parse_args_ok (scan : Scan) (sys_argv argv fileformats : list string)
    (ns : Namespace) (out : list (list string * string)) :
  parse_args scan (the_parser argv fileformats) sys_argv = (Ok ns, out) ->
  let occs := fst (scan declared_options (tail sys_argv)) in
  take_actions (the_parser argv fileformats) occs
    (defaults (the_parser argv fileformats)) = (Ok ns, []) /\
  out = [] /\
  exists v, In (Occ "--rundate" v) occs.
Proof.
  unfold parse_args.
  change (map (fun a => (option_string a, takes_value a))
            (actions (the_parser argv fileformats)))
    with declared_options.
  destruct (scan declared_options (tail sys_argv)) as [occs extras]. cbn [fst].
  destruct (take_actions _ occs _) as [[ns0|x] out0] eqn:Hta; [|discriminate].
  pose proof (take_actions_no_output _ _ _ _ _ Hta) as ->.
  destruct (missing _ occs) as [|a l] eqn:Hm; [|discriminate].
  destruct extras; [|discriminate]. intros [= <- <-].
  split; [reflexivity|]. split; [reflexivity|].
  unfold missing in Hm. cbn [the_parser add_argument argparse.new actions app List.filter
    required andb negb] in Hm.
  destruct (existsb _ occs) eqn:Hex; [|discriminate].
  apply existsb_exists in Hex as ([o v|msg] & Hin & Heq); [|discriminate].
  apply String.eqb_eq in Heq. cbn in Heq. subst o. eauto.
Qed.

Lemma defaults_well_typed (argv fileformats : list string) :
  well_typed fileformats (defaults (the_parser argv fileformats)).
Proof.
  unfold well_typed.
  split; [left; vm_compute; reflexivity|].
  split; [exists false; vm_compute; reflexivity|].
  split; [exists false; vm_compute; reflexivity|].
  left; vm_compute; reflexivity.
Qed.

(** What [parse_arguments] raises. *)
Lemma parse_arguments_raises (scan : Scan) (sys_argv argv fileformats : list string)
    (x : exn) (out : list (list string * string)) :
  parse_arguments scan sys_argv argv fileformats = (Raise x, out) ->
  (exists code, x = SystemExit code) \/
  x = ArgumentTypeError "You must specify either --fetch, --load or both".
Proof.
  rewrite parse_arguments_unfold. cbv zeta. unfold parse_args.
  destruct (scan _ (tail sys_argv)) as [occs extras].
  destruct (take_actions _ occs _) as [[ns0|y] out0] eqn:Hta.
  - destruct (missing _ occs); [|unfold error; intros [= <- _]; eauto].
    destruct extras; [|unfold error; intros [= <- _]; eauto].
    destruct (negb _ && negb _); [intros [= <- _]; auto|discriminate].
  - intros [= <- _]. left. exact (take_actions_raise_exit _ _ _ _ _ Hta).
Qed.

End ParseFacts.

(** X3. When [parse_arguments] returns, the namespace is complete and
    checked: [run_date] is a date of the calendar, [fetch] and [load] are
    booleans of which at least one is true, [fileformat] is [None] or one
    of the formats that were offered, and nothing was written to
    stderr. *)
Theorem parse_arguments_returns_a_checked_namespace (scan : Scan)
    (sys_argv argv fileformats : list string) (args : Namespace)
    (out : list (list string * string)) :
  parse_arguments scan sys_argv argv fileformats = (Ok args, out) ->
  (exists d, args !! "run_date" = Some (VDate d) /\ valid_date d = true) /\
  (exists f l, args !! "fetch" = Some (VBool f) /\ args !! "load" = Some (VBool l) /\
               f || l = true) /\
  (args !! "fileformat" = Some VNone \/
   exists k, args !! "fileformat" = Some (VStr k) /\ In k fileformats) /\
  out = [].
Proof.
  rewrite parse_arguments_unfold. cbv zeta.
  destruct (parse_args scan (the_parser argv fileformats) sys_argv) as [[ns|x] out0] eqn:Hp;
    [|discriminate].
  apply parse_args_ok in Hp as (Hta & -> & Hrun). cbv zeta in Hta, Hrun.
  destruct (take_actions_well_typed _ _ _ _ _ _ Hta) as (Hw & _ & Hd).
  destruct (Hw (defaults_well_typed argv fileformats)) as (_ & [f Hf] & [l Hl] & Hff).
  rewrite Hf, Hl. cbn [truth].
  destruct (negb f && negb l) eqn:Hfl; [discriminate|]. intros [= <- <-].
  split; [exact (Hd Hrun)|]. split; [|split; [exact Hff|reflexivity]].
  exists f, l. split; [exact Hf|]. split; [exact Hl|].
  destruct f, l; try reflexivity. discriminate.
Qed.

(** ** What the fetch phase leaves alone *)

Section MkdirFacts.

Implicit Types (m : FS) (p q : list string).

Lemma kept_or_made_refl m p q : kept_or_made m m p q.
Proof. left. reflexivity. Qed.

Lemma kept_or_made_trans m1 m2 m3 p p' q :
  (forall r, r `prefix_of` p -> r `prefix_of` p') ->
  kept_or_made m1 m2 p q -> kept_or_made m2 m3 p' q -> kept_or_made m1 m3 p' q.
Proof.
  intros Hp [H1|(H1 & H1' & H1'')] [H2|(H2 & H2' & H2'')].
  - left. congruence.
  - right. rewrite <- H1. auto.
  - right. rewrite H2. auto.
  - congruence.
Qed.

Lemma os_mkdir_frame m p m' q : os_mkdir m p = Ok m' -> kept_or_made m m' p q.
Proof.
  unfold os_mkdir. destruct p as [|c p]; [discriminate|].
  destruct (walk m [] (c :: p)); [discriminate|].
  destruct (m !! (c :: p)) eqn:Hl; [discriminate|]. intros [= <-].
  destruct (decide (q = c :: p)) as [->|Hne].
  - right. rewrite lookup_insert_eq. auto.
  - left. apply lookup_insert_ne. congruence.
Qed.

Lemma mkdir_exist_ok_frame m p m' q : mkdir_exist_ok m p = Ok m' -> kept_or_made m m' p q.
Proof.
  unfold mkdir_exist_ok. destruct (os_mkdir m p) as [m1|err] eqn:H.
  - intros [= <-]. exact (os_mkdir_frame _ _ _ _ H).
  - destruct err; try discriminate;
      (destruct (is_dir m p); [intros [= <-]; apply kept_or_made_refl | discriminate]).
Qed.

Lemma mkdir_parents_frame m p k m' q :
  mkdir_parents m p k = Ok m' -> kept_or_made m m' (take k p) q.
Proof.
  revert m'. induction k as [|k IH]; intros m'; cbn [mkdir_parents];
    destruct (os_mkdir m (take _ p)) as [m1|err] eqn:H;
    try (intros [= <-]; exact (os_mkdir_frame _ _ _ _ H)).
  - destruct err; try discriminate;
      (destruct (is_dir m (take 0 p)); [intros [= <-]; apply kept_or_made_refl | discriminate]).
  - destruct err;
      try (destruct (is_dir m (take (S k) p));
           [intros [= <-]; apply kept_or_made_refl | discriminate]).
    destruct (mkdir_parents m p k) as [m2|err] eqn:Hp; [|discriminate].
    intros Hx. apply (kept_or_made_trans m m2 m' (take k p) (take (S k) p)).
    + intros r Hr. etrans; [exact Hr|].
      exists (drop k (take (S k) p)).
      rewrite <- (take_drop k (take (S k) p)) at 1.
      rewrite take_take. replace (k `min` S k)%nat with k by lia. reflexivity.
    + exact (IH _ eq_refl).
    + exact (mkdir_exist_ok_frame _ _ _ _ Hx).
Qed.

(** [mkdir] adds directories on the way to [p] and changes nothing else. *)
Lemma mkdir_frame m p m' q : mkdir m p = Ok m' -> kept_or_made m m' p q.
Proof.
  unfold mkdir. intros H. apply (mkdir_parents_frame _ _ _ _ q) in H.
  rewrite firstn_all in H. exact H.
Qed.

Lemma open_w_eq m p m' : open_w m p = Ok m' -> m' = <[p := File EmptyString]> m.
Proof.
  unfold open_w. destruct p as [|c p]; [discriminate|].
  destruct (walk m [] (c :: p)); [discriminate|].
  destruct (m !! (c :: p)) as [[|]|]; try discriminate; intros [= <-]; reflexivity.
Qed.

End MkdirFacts.

Section FetchFrame.

Context {Remote : Type}.
Implicit Types (e : @Env Remote) (self : @Processor Remote).

Lemma same_but_refl self e : same_but self e e.
Proof. repeat split; reflexivity. Qed.

Lemma same_but_trans self e1 e2 e3 :
  same_but self e1 e2 -> same_but self e2 e3 -> same_but self e1 e3.
Proof.
  intros (F1 & S1 & D1 & C1) (F2 & S2 & D2 & C2).
  assert (Ha : forall p, abspath e2 p = abspath e1 p)
    by (intros p; unfold abspath; rewrite C1; reflexivity).
  repeat split.
  - intros q H1 H2. rewrite F2, F1; rewrite ?Ha; auto.
  - intros k Hk. rewrite S2, S1; auto.
  - congruence.
  - congruence.
Qed.

Lemma cleanup_same_but self e : same_but self e (final (_cleanup self e)).
Proof.
  destruct (cleanup_frame self e) as (Hs & Hd & _ & Hc).
  split; [|split; [intros k _; rewrite Hs; reflexivity|split; assumption]].
  intros q Hfp Hlf. rewrite cleanup_run. cbv zeta.
  destruct (unlink (fs e) (abspath e (file_path (attrs self)))) as [m1|x] eqn:Hu.
  - apply unlink_ok in Hu as [-> _].
    rewrite rmdir_if_empty_run. cbv zeta. rewrite abspath_set_fs. cbn [fs set_fs].
    destruct (rmdir _ _) as [m2|y] eqn:Hr; cbn [prepend final fs set_fs].
    + apply rmdir_ok in Hr as (-> & _). rewrite !lookup_delete_ne by congruence. reflexivity.
    + rewrite lookup_delete_ne by congruence. reflexivity.
  - destruct (caught_by_cleanup x); [|reflexivity].
    rewrite rmdir_if_empty_run. cbv zeta.
    destruct (rmdir _ _) as [m2|y] eqn:Hr; cbn [prepend final fs set_fs]; [|reflexivity].
    apply rmdir_ok in Hr as (-> & _). rewrite lookup_delete_ne by congruence. reflexivity.
Qed.

Lemma put_to_s3_same_but self e :
  same_but self e
    (final (put_to_s3 self (file_path (attrs self)) (s3_path (attrs self)) e)).
Proof.
  rewrite put_to_s3_run. cbn [prepend final].
  destruct (negb (online (s3 e))); [apply same_but_refl|].
  destruct (read_file _ _) as [c|x]; [|apply same_but_refl].
  eapply same_but_trans; [|apply cleanup_same_but].
  repeat split. intros k Hk. cbn [s3 set_s3 objects]. apply lookup_insert_ne. congruence.
Qed.

(** Writing the staging file and uploading it. *)
Lemma stage_and_put_same_but self e (data : string) :
  same_but self e
    (final (bind (write_staging (file_path (attrs self)) data)
              (fun _ => put_to_s3 self (file_path (attrs self)) (s3_path (attrs self))) e)).
Proof.
  rewrite bind_write_staging. cbn [prepend final].
  eapply same_but_trans; [|apply put_to_s3_same_but].
  repeat split. intros q Hq _. cbn [fs set_fs]. unfold write_close.
  apply lookup_insert_ne. congruence.
Qed.

Lemma same_but_set_fs self e m :
  (forall q, q <> abspath e (file_path (attrs self)) -> m !! q = fs e !! q) ->
  same_but self e (set_fs e m).
Proof. intros H. repeat split. intros q Hq _. cbn [fs set_fs]. auto. Qed.

Lemma same_but_set_remote self e r : same_but self e (set_remote e r).
Proof. repeat split. Qed.

End FetchFrame.

Lemma fetch_frame {Remote : Type} (cfg : Config)
    (self : @Processor Remote) (e : @Env Remote) :
  let o := fetch_and_archive_to_s3 cfg self e in
  let fp := abspath e (file_path (attrs self)) in
  let lf := abspath e (local_folder (attrs self)) in
  (forall q, q <> fp -> q <> lf -> kept_or_made (fs e) (fs (final o)) lf q) /\
  (forall k, k <> s3_path (attrs self) ->
             objects (s3 (final o)) !! k = objects (s3 e) !! k) /\
  db (final o) = db e /\ cwd (final o) = cwd e.
Proof.
  cbv zeta.
  assert (Hgoal : forall e1 (o : @outcome Remote unit),
            cwd e1 = cwd e -> s3 e1 = s3 e -> db e1 = db e ->
            (forall q, kept_or_made (fs e) (fs e1)
                         (abspath e (local_folder (attrs self))) q) ->
            same_but self e1 (final o) ->
            (forall q, q <> abspath e (file_path (attrs self)) ->
                       q <> abspath e (local_folder (attrs self)) ->
                       kept_or_made (fs e) (fs (final o))
                         (abspath e (local_folder (attrs self))) q) /\
            (forall k, k <> s3_path (attrs self) ->
                       objects (s3 (final o)) !! k = objects (s3 e) !! k) /\
            db (final o) = db e /\ cwd (final o) = cwd e).
  { intros e1 o Hc Hs Hd Hk (F & S & D & C).
    assert (Ha : forall p, abspath e1 p = abspath e p)
      by (intros p; unfold abspath; rewrite Hc; reflexivity).
    rewrite !Ha in F. repeat split.
    - intros q H1 H2. specialize (Hk q). unfold kept_or_made in *.
      rewrite (F q H1 H2). exact Hk.
    - intros k Hne. rewrite (S k Hne), Hs. reflexivity.
    - congruence.
    - congruence. }
  assert (Hopen : forall (e' : @Env Remote) m2,
            open_w (fs e') (abspath e' (file_path (attrs self))) = Ok m2 ->
            same_but self e' (set_fs e' m2)).
  { intros e' m2 Hop. apply open_w_eq in Hop as ->. apply same_but_set_fs.
    intros q Hq. apply lookup_insert_ne. congruence. }
  remember (fetch_and_archive_to_s3 cfg self e) as o eqn:Ho. revert Ho.
  unfold fetch_and_archive_to_s3, open_staging. cbv zeta.
  destruct (negb (FETCH_DATA_FROM_SOURCE cfg)).
  { rewrite bind_emit. unfold emit. intros ->.
    apply (Hgoal e); auto using kept_or_made_refl, same_but_refl. }
  repeat step.
  destruct (mkdir _ _) as [m1|x] eqn:Hmk.
  2:{ intros ->. apply (Hgoal e); auto using kept_or_made_refl, same_but_refl. }
  assert (Hleaf : forall o' : @outcome Remote unit,
            same_but self (set_fs e m1) (final o') ->
            (forall q, q <> abspath e (file_path (attrs self)) ->
                       q <> abspath e (local_folder (attrs self)) ->
                       kept_or_made (fs e) (fs (final o'))
                         (abspath e (local_folder (attrs self))) q) /\
            (forall k, k <> s3_path (attrs self) ->
                       objects (s3 (final o')) !! k = objects (s3 e) !! k) /\
            db (final o') = db e /\ cwd (final o') = cwd e).
  { intros o' H. apply (Hgoal (set_fs e m1)); try reflexivity; [|exact H].
    intros q. exact (mkdir_frame _ _ _ q Hmk). }
  clear Hgoal.
  repeat step.
  destruct (String.eqb _ "generator"); [|destruct (String.eqb _ "list")].
  - repeat step. cbn [remote set_fs].
    destruct (fetch_from_api _ _) as [[x|x] r];
      [|intros ->; apply Hleaf; apply same_but_set_remote].
    destruct x as [|b|t|rows|names];
      [intros ->; apply Hleaf; apply same_but_set_remote| | | |];
      repeat step;
      (destruct (open_w _ _) as [m2|x] eqn:Hop;
       [|intros ->; apply Hleaf; apply same_but_set_remote]);
      cbn [rows_of];
      try (destruct b;
           [|rewrite bind_raise; intros ->; apply Hleaf; cbn [prepend final];
             eapply same_but_trans; [apply same_but_set_remote|exact (Hopen _ _ Hop)]]);
      intros ->; apply Hleaf; cbn [prepend final];
      (eapply same_but_trans; [apply same_but_set_remote|]);
      (eapply same_but_trans; [exact (Hopen _ _ Hop)|]);
      apply stage_and_put_same_but.
  - repeat step.
    destruct (open_w _ _) as [m2|x] eqn:Hop; [|intros ->; apply Hleaf; apply same_but_refl].
    repeat step. cbn [remote set_fs].
    destruct (fetch_from_api _ _) as [[x|x] r];
      [|intros ->; apply Hleaf; cbn [prepend final];
        eapply same_but_trans; [exact (Hopen _ _ Hop)|apply same_but_set_remote]].
    destruct x as [|b|t|rows|names];
      try (rewrite bind_raise; intros ->; apply Hleaf; cbn [prepend final];
           eapply same_but_trans; [exact (Hopen _ _ Hop)|apply same_but_set_remote]).
    intros ->; apply Hleaf; cbn [prepend final].
    eapply same_but_trans; [exact (Hopen _ _ Hop)|].
    eapply same_but_trans; [apply same_but_set_remote|].
    apply stage_and_put_same_but.
  - repeat step.
    destruct (open_w _ _) as [m2|x] eqn:Hop; [|intros ->; apply Hleaf; apply same_but_refl].
    repeat step. cbn [remote set_fs].
    destruct (fetch_from_api _ _) as [[x|x] r];
      [|intros ->; apply Hleaf; cbn [prepend final];
        eapply same_but_trans; [exact (Hopen _ _ Hop)|apply same_but_set_remote]].
    destruct x as [|b|t|rows|names];
      try (rewrite bind_raise; intros ->; apply Hleaf; cbn [prepend final];
           eapply same_but_trans; [exact (Hopen _ _ Hop)|apply same_but_set_remote]).
    intros ->; apply Hleaf; cbn [prepend final].
    eapply same_but_trans; [exact (Hopen _ _ Hop)|].
    eapply same_but_trans; [apply same_but_set_remote|].
    apply stage_and_put_same_but.
Qed.

(** X6. What [fetch_and_archive_to_s3] leaves alone, however it ends: in
    the local file system, every entry other than the staging file and the
    staging folder is as it was, except that missing directories on the
    way to the staging folder may have been made; in the archive, every
    object other than the one under [s3_path]; the database; the working
    directory. *)
Theorem fetch_touches_only_staging {Remote : Type} (cfg : Config)
    (self : @Processor Remote) (e : @Env Remote) :
  let o := fetch_and_archive_to_s3 cfg self e in
  let fp := abspath e (file_path (attrs self)) in
  let lf := abspath e (local_folder (attrs self)) in
  (forall q, q <> fp -> q <> lf -> kept_or_made (fs e) (fs (final o)) lf q) /\
  (forall k, k <> s3_path (attrs self) ->
             objects (s3 (final o)) !! k = objects (s3 e) !! k) /\
  db (final o) = db e /\ cwd (final o) = cwd e.
Proof. exact (fetch_frame cfg self e). Qed.

(** ** A fetch that cannot stage *)

(** X7. In the branches for text and for octets the staging file is
    opened before the source is asked.  When [fetch_from_api] then raises,
    or returns something the file cannot take (TypeError), the run ends
    with that exception right after the fetch: the staging file is left
    behind empty, whatever it held before, and nothing is uploaded or
    cleaned up. *)
Theorem failed_fetch_leaves_empty_file {Remote : Type} (cfg : Config)
    (self : @Processor Remote) (e : @Env Remote) (m1 m2 : FS) :
  let fp := file_path (attrs self) in
  let art := api_return_type (attrs self) in
  FETCH_DATA_FROM_SOURCE cfg = true ->
  String.eqb art "generator" = false ->
  mkdir (fs e) (abspath e (local_folder (attrs self))) = Ok m1 ->
  open_w m1 (abspath e fp) = Ok m2 ->
  let o := fetch_and_archive_to_s3 cfg self e in
  m2 = <[abspath e fp := File EmptyString]> m1 /\
  forall x r,
    fetch_from_api (methods self) (remote e) = (Raise x, r) \/
    (exists y, fetch_from_api (methods self) (remote e) = (Ok y, r) /\
               staging_of art y = None /\ x = TypeError) ->
    res o = Raise x /\
    final o = set_remote (set_fs e m2) r /\
    events o =
      [EvMkdir (local_folder (attrs self));
       EvLog ("writing locally to " +:+ Path_str fp);
       EvOpen fp (write_mode art); EvFetch].
Proof.
  cbv zeta. intros Hon Hgen Hmk Hop.
  split; [exact (open_w_eq _ _ _ Hop)|].
  intros x r Hsrc.
  remember (fetch_and_archive_to_s3 cfg self e) as o eqn:Ho. revert Ho.
  unfold fetch_and_archive_to_s3, open_staging, write_mode. cbv zeta.
  rewrite Hon, Hgen. cbn [negb]. repeat step. rewrite Hmk. repeat step.
  unfold staging_of in Hsrc. rewrite Hgen in Hsrc.
  destruct (String.eqb (api_return_type (attrs self)) "list").
  - repeat step. cbn [fs set_fs]. norm_abspath. rewrite Hop.
    repeat step. cbn [remote set_fs].
    destruct Hsrc as [Hsrc|(y & Hsrc & Hbad & ->)]; rewrite Hsrc.
    + intros ->. run. repeat split; reflexivity.
    + destruct y as [|b|t|rows|names]; try discriminate;
        rewrite bind_raise; intros ->; run; repeat split; reflexivity.
  - repeat step. cbn [fs set_fs]. norm_abspath. rewrite Hop.
    repeat step. cbn [remote set_fs].
    destruct Hsrc as [Hsrc|(y & Hsrc & Hbad & ->)]; rewrite Hsrc.
    + intros ->. run. repeat split; reflexivity.
    + destruct y as [|b|t|rows|names]; try discriminate;
        rewrite bind_raise; intros ->; run; repeat split; reflexivity.
Qed.

Lemma local_folder_not_root {Remote : Type} (cfg : Config)
    (klass : Attrs -> @Methods Remote) (d : date) (source_system : string)
    (filename : option string) (art : string) (ttn : option string) (e : @Env Remote) :
  abspath e (local_folder (attrs (__init__ cfg klass d source_system filename art ttn)))
    <> [].
Proof.
  cbn [__init__ attrs local_folder].
  rewrite (joinpath_plain _ _ (strftime_compact_plain d)).
  unfold abspath. cbn [anchor parts].
  destruct (String.eqb _ _); intros H; apply (f_equal length) in H;
    rewrite ?length_app in H; cbn in H; lia.
Qed.

(** X8. A processor that was given no file name (None or the empty
    string) has the staging folder as its [file_path], so the fetch phase
    cannot stage anything: once the folder is made, opening it for writing
    raises IsADirectoryError.  In the branches for text and octets this
    happens before the source is asked; in the branch for rows right after
    the fetch returned. *)
Theorem fetch_without_filename_cannot_stage {Remote : Type} (cfg : Config)
    (klass : Attrs -> @Methods Remote) (d : date) (source_system : string)
    (filename : option string) (art : string) (ttn : option string)
    (e : @Env Remote) (m1 : FS) :
  let self := __init__ cfg klass d source_system filename art ttn in
  let lf := local_folder (attrs self) in
  FETCH_DATA_FROM_SOURCE cfg = true ->
  truthy filename = false ->
  mkdir (fs e) (abspath e lf) = Ok m1 ->
  let o := fetch_and_archive_to_s3 cfg self e in
  file_path (attrs self) = lf /\
  (String.eqb art "generator" = false ->
   res o = Raise IsADirectoryError /\
   final o = set_fs e m1 /\
   ~ In EvFetch (events o)) /\
  (String.eqb art "generator" = true ->
   forall x r,
     fetch_from_api (methods self) (remote e) = (Ok x, r) -> x <> PNone ->
     res o = Raise IsADirectoryError /\
     final o = set_remote (set_fs e m1) r).
Proof.
  cbv zeta. intros Hon Hfn Hmk.
  set (self := __init__ cfg klass d source_system filename art ttn) in *.
  assert (Hfp : file_path (attrs self) = local_folder (attrs self)).
  { unfold self. cbn [__init__ attrs file_path local_folder]. rewrite Hfn. reflexivity. }
  assert (Hart : api_return_type (attrs self) = art) by reflexivity.
  assert (Hopen : open_w m1 (abspath e (local_folder (attrs self))) = Raise IsADirectoryError).
  { pose proof (mkdir_ok _ _ _ Hmk) as Hd.
    apply is_dir_spec in Hd as [Hd|[Hw Hl]];
      [exfalso; exact (local_folder_not_root cfg klass d source_system filename art ttn e Hd)|].
    unfold open_w. revert Hw Hl.
    generalize (abspath e (local_folder (attrs self))). intros [|c p] Hw Hl; [reflexivity|].
    rewrite Hw, Hl. reflexivity. }
  split; [exact Hfp|].
  remember (fetch_and_archive_to_s3 cfg self e) as o eqn:Ho. revert Ho.
  unfold fetch_and_archive_to_s3, open_staging. cbv zeta.
  rewrite Hon, Hart, Hfp. cbn [negb]. repeat step. rewrite Hmk. repeat step.
  destruct (String.eqb art "generator").
  - repeat step. cbn [remote set_fs]. intros Ho.
    split; [discriminate|]. intros _ x r Hsrc Hx. revert Ho. rewrite Hsrc.
    destruct x as [|b|t|rows|names]; [congruence| | | |];
      repeat step; cbn [fs set_fs set_remote]; norm_abspath; rewrite Hopen;
      intros ->; run; split; reflexivity.
  - intros Ho. split; [|discriminate]. intros _. revert Ho.
    destruct (String.eqb art "list");
      repeat step; cbn [fs set_fs]; norm_abspath; rewrite Hopen;
      intros ->; run; (split; [reflexivity|]); (split; [reflexivity|]); not_in_events.
Qed.

(** ** The phases of the entry point *)

Section PhaseFacts.

Context {Remote : Type}.
Implicit Types (e : @Env Remote) (self : @Processor Remote).

Lemma no_phase_no_fetch (l : list event) :
  forallb no_phase_event l = true ->
  forallb (fun ev => negb (fetch_phase_event ev)) l = true.
Proof.
  rewrite !forallb_forall. intros H ev Hin. specialize (H ev Hin).
  apply andb_true_iff in H as [H _]. exact H.
Qed.

Lemma no_phase_no_load (l : list event) :
  forallb no_phase_event l = true ->
  forallb (fun ev => negb (load_phase_event ev)) l = true.
Proof.
  rewrite !forallb_forall. intros H ev Hin. specialize (H ev Hin).
  apply andb_true_iff in H as [_ H]. exact H.
Qed.

Lemma cleanup_no_phase self e : forallb no_phase_event (events (_cleanup self e)) = true.
Proof.
  rewrite cleanup_run. cbv zeta.
  destruct (unlink _ _); [|destruct (caught_by_cleanup _)];
    rewrite ?rmdir_if_empty_run; cbv zeta; try destruct (rmdir _ _); reflexivity.
Qed.

Lemma usage_no_phase (out : list (list string * string)) :
  forallb no_phase_event (usage_events out) = true.
Proof. induction out as [|pm out IH]; [reflexivity|exact IH]. Qed.

(** The load phase does nothing of the fetch phase. *)
Lemma load_events_no_fetch self e :
  forallb (fun ev => negb (fetch_phase_event ev)) (events (load_from_s3_to_db self e)) = true.
Proof.
  remember (load_from_s3_to_db self e) as o eqn:Ho. revert Ho.
  unfold_methods. cbv zeta. repeat step.
  destruct (mkdir _ _) as [m1|x]; [|intros ->; reflexivity].
  repeat step.
  destruct (negb _); [intros ->; reflexivity|].
  destruct (objects _ !! _) as [c|]; [|intros ->; reflexivity].
  destruct (open_w _ _) as [m2|x]; [|intros ->; reflexivity].
  repeat step.
  destruct (pre_copy_transform _ _) as [[[]|x] e3]; [|intros ->; reflexivity].
  repeat step.
  destruct (reachable _); [|intros ->; reflexivity].
  repeat step.
  destruct (pre_copy_sql _ _) as [[[]|x] e4]; [|intros ->; reflexivity].
  repeat step.
  destruct (copy_to_db _ _) as [[[]|x] e5]; [|intros ->; reflexivity].
  repeat step.
  destruct (reachable (db e5)), (session (db e5)) as [t|]; try (intros ->; reflexivity).
  intros ->. run.
  exact (no_phase_no_fetch _ (cleanup_no_phase self _)).
Qed.

Lemma stage_and_put_no_load self e (data : string) :
  forallb (fun ev => negb (load_phase_event ev))
    (events (bind (write_staging (file_path (attrs self)) data)
               (fun _ => put_to_s3 self (file_path (attrs self)) (s3_path (attrs self))) e))
  = true.
Proof.
  rewrite bind_write_staging, put_to_s3_run. run.
  destruct (negb _); [reflexivity|].
  destruct (read_file _ _); [|reflexivity].
  exact (no_phase_no_load _ (cleanup_no_phase self _)).
Qed.

(** The fetch phase does nothing of the load phase. *)
Lemma fetch_events_no_load (cfg : Config) self e :
  forallb (fun ev => negb (load_phase_event ev))
    (events (fetch_and_archive_to_s3 cfg self e)) = true.
Proof.
  remember (fetch_and_archive_to_s3 cfg self e) as o eqn:Ho. revert Ho.
  unfold fetch_and_archive_to_s3, open_staging. cbv zeta.
  destruct (negb (FETCH_DATA_FROM_SOURCE cfg)).
  { rewrite bind_emit. unfold emit. intros ->. reflexivity. }
  repeat step.
  destruct (mkdir _ _) as [m1|x]; [|intros ->; reflexivity].
  repeat step.
  destruct (String.eqb _ "generator"); [|destruct (String.eqb _ "list")].
  - repeat step. cbn [remote set_fs].
    destruct (fetch_from_api _ _) as [[x|x] r]; [|intros ->; reflexivity].
    destruct x as [|b|t|rows|names]; [intros ->; reflexivity| | | |];
      repeat step;
      (destruct (open_w _ _) as [m2|x]; [|intros ->; reflexivity]);
      cbn [rows_of];
      try (destruct b; [|rewrite bind_raise; intros ->; reflexivity]);
      intros ->; run; apply stage_and_put_no_load.
  - repeat step.
    destruct (open_w _ _) as [m2|x]; [|intros ->; reflexivity].
    repeat step. cbn [remote set_fs].
    destruct (fetch_from_api _ _) as [[x|x] r]; [|intros ->; reflexivity].
    destruct x as [|b|t|rows|names]; try (rewrite bind_raise; intros ->; reflexivity).
    intros ->; run; apply stage_and_put_no_load.
  - repeat step.
    destruct (open_w _ _) as [m2|x]; [|intros ->; reflexivity].
    repeat step. cbn [remote set_fs].
    destruct (fetch_from_api _ _) as [[x|x] r]; [|intros ->; reflexivity].
    destruct x as [|b|t|rows|names]; try (rewrite bind_raise; intros ->; reflexivity).
    intros ->; run; apply stage_and_put_no_load.
Qed.



End PhaseFacts.

(** The namespace of a parse that succeeded keeps the default of an
    option that does not occur. *)
Lemma parse_arguments_default (scan : Scan) (sys_argv argv fileformats : list string)
    (args : Namespace) (out : list (list string * string)) (d od : string) :
  parse_arguments scan sys_argv argv fileformats = (Ok args, out) ->
  (forall a, In a (actions (the_parser argv fileformats)) -> dest a = d ->
             option_string a = od) ->
  (forall v, ~ In (Occ od v) (fst (scan declared_options (tail sys_argv)))) ->
  args !! d = defaults (the_parser argv fileformats) !! d.
Proof.
  rewrite parse_arguments_unfold. cbv zeta.
  destruct (parse_args scan (the_parser argv fileformats) sys_argv) as [[ns|x] out0] eqn:Hp;
    [|discriminate].
  apply parse_args_ok in Hp as (Hta & _ & _). cbv zeta in Hta.
  destruct (negb _ && negb _); [discriminate|]. intros [= <- <-] Hd Hno.
  exact (take_actions_untouched _ _ _ _ _ d od Hd Hno Hta).
Qed.

Ltac one_option :=
  let a := fresh "a" in
  let Hin := fresh "Hin" in
  let Hd := fresh "Hd" in
  intros a Hin Hd; cbn in Hin;
  repeat (destruct Hin as [<-|Hin]; [first [reflexivity | discriminate Hd]|]);
  destruct Hin.

(** X4. [--fileformat] is declared optional, but [main] cannot do without
    it: on a command line on which it does not occur, [main] ends with
    KeyError as soon as the arguments were resolved (or with the exception
    of the argument resolution itself); the environment is untouched and
    no processor was instantiated. *)
Theorem main_needs_a_fileformat {Remote : Type} (cfg : Config)
    (lib : @Libraries Remote) (scan : Scan) (sys_argv argv : list string)
    (e : @Env Remote) :
  let occs := fst (scan declared_options (tail sys_argv)) in
  let o := main cfg lib scan sys_argv argv e in
  (forall v, ~ In (Occ "--fileformat" v) occs) ->
  (res o = Raise KeyError \/
   (exists code, res o = Raise (SystemExit code)) \/
   res o = Raise (ArgumentTypeError "You must specify either --fetch, --load or both")) /\
  (forall args out,
     parse_arguments scan sys_argv argv (map fst (file_formats lib)) = (Ok args, out) ->
     res o = Raise KeyError) /\
  final o = e /\
  ~ In EvConstruct (events o).
Proof.
  cbv zeta. intros Hno. unfold main.
  destruct (parse_arguments scan sys_argv argv (map fst (file_formats lib)))
    as [[args|x] out] eqn:Hp.
  - assert (Hff : args !! "fileformat" = Some VNone).
    { rewrite (parse_arguments_default _ _ _ _ _ _ "fileformat" "--fileformat" Hp);
        [vm_compute; reflexivity| |exact Hno].
      one_option. }
    rewrite Hff. run.
    split; [left; reflexivity|]. split; [reflexivity|]. split; [reflexivity|].
    intros [H|H]; [discriminate|].
    unfold usage_events in H. apply in_map_iff in H as (pm & Hpm & _). discriminate.
  - run. apply parse_arguments_raises in Hp.
    split; [destruct Hp as [[code ->]| ->]; eauto|].
    split; [discriminate|]. split; [reflexivity|].
    intros [H|H]; [discriminate|].
    unfold usage_events in H. apply in_map_iff in H as (pm & Hpm & _). discriminate.
Qed.


(** X20. In every run of [main] the fetch phase comes before the load
    phase: the events split into a first part without any event of the
    load phase and a second part without any event of the fetch phase, and
    the second part is empty unless the arguments were resolved and
    [--load] was among them. *)
Theorem main_fetches_before_it_loads {Remote : Type} (cfg : Config)
    (lib : @Libraries Remote) (scan : Scan) (sys_argv argv : list string)
    (e : @Env Remote) :
  let o := main cfg lib scan sys_argv argv e in
  exists first then_,
    events o = first ++ then_ /\
    forallb (fun ev => negb (load_phase_event ev)) first = true /\
    forallb (fun ev => negb (fetch_phase_event ev)) then_ = true /\
    (then_ = [] \/ exists args out,
       parse_arguments scan sys_argv argv (map fst (file_formats lib)) = (Ok args, out) /\
       truth (args !! "load") = true).
Proof.
  cbv zeta. unfold main.
  destruct (parse_arguments scan sys_argv argv (map fst (file_formats lib)))
    as [[args|x] out] eqn:Hp.
  2:{ run. eexists _, []. rewrite app_nil_r. split; [reflexivity|].
      split; [exact (no_phase_no_load _ (usage_no_phase out))|]. split; [reflexivity|].
      left; reflexivity. }
  assert (Hearly : forall (r : result unit),
            exists first then_,
              events (mkOutcome r e (EvConfigureLogging :: usage_events out))
                = first ++ then_ /\
              forallb (fun ev => negb (load_phase_event ev)) first = true /\
              forallb (fun ev => negb (fetch_phase_event ev)) then_ = true /\
              (then_ = [] \/ exists args0 out0,
                 (Ok args, out) = (Ok args0, out0) /\ truth (args0 !! "load") = true)).
  { intros r. run. eexists _, []. rewrite app_nil_r. split; [reflexivity|].
    split; [exact (no_phase_no_load _ (usage_no_phase out))|]. split; [reflexivity|].
    left; reflexivity. }
  destruct (args !! "fileformat") as [[| |k|]|]; try apply Hearly.
  destruct (dict_get (file_formats lib) k) as [ff|];
    [destruct (args !! "run_date") as [[| | |d]|]|]; try apply Hearly.
  clear Hearly.
  set (processor := __init__ cfg (ff_klass ff) d "hitwise" (Some (ff_filename ff))
                      (ff_api_return_type ff) None).
  run. rewrite bind_emit. run.
  set (F := if truth (args !! "fetch") then fetch_and_archive_to_s3 cfg processor else ret tt).
  assert (HF : forallb (fun ev => negb (load_phase_event ev)) (events (F e)) = true).
  { unfold F. destruct (truth (args !! "fetch")); [apply fetch_events_no_load|reflexivity]. }
  unfold bind at 1.
  destruct (res (F e)) as [[]|x].
  - destruct (truth (args !! "load")) eqn:Hl.
    + exists ((EvConfigureLogging :: usage_events out) ++ EvConstruct :: events (F e)),
             (events (load_from_s3_to_db processor (final (F e)))).
      run. split; [rewrite <- !app_assoc; reflexivity|].
      split.
      * cbn [forallb load_phase_event negb andb]. rewrite forallb_app.
        rewrite (no_phase_no_load _ (usage_no_phase out)). exact HF.
      * split; [apply load_events_no_fetch|]. right. eauto.
    + exists ((EvConfigureLogging :: usage_events out) ++ EvConstruct :: events (F e)), [].
      run. split; [rewrite <- !app_assoc, !app_nil_r; reflexivity|].
      split; [|split; [reflexivity|left; reflexivity]].
      cbn [forallb load_phase_event negb andb]. rewrite forallb_app.
      rewrite (no_phase_no_load _ (usage_no_phase out)). exact HF.
  - exists ((EvConfigureLogging :: usage_events out) ++ EvConstruct :: events (F e)), [].
    run. split; [rewrite <- !app_assoc, !app_nil_r; reflexivity|].
    split; [|split; [reflexivity|left; reflexivity]].
    cbn [forallb load_phase_event negb andb]. rewrite forallb_app.
    rewrite (no_phase_no_load _ (usage_no_phase out)). exact HF.
Qed.

(** ** What a run leaves behind *)

(** X16. [rmdir_if_empty] on a path of ordinary names never raises,
    whatever the state of the file system: it either changes nothing, or
    the path was an empty directory and is removed.  A directory that
    holds an entry is left alone, and a second call right after the first
    changes nothing. *)
Theorem rmdir_if_empty_never_raises {Remote : Type} (path : Path) (e : @Env Remote) :
  let p := abspath e path in
  let o := rmdir_if_empty path e in
  well_named path = true ->
  res o = Ok tt /\
  (final o = e \/
   (fs e !! p = Some Dir /\ has_entries (fs e) p = false /\
    final o = set_fs e (delete p (fs e)))) /\
  (has_entries (fs e) p = true -> final o = e) /\
  res (rmdir_if_empty path (final o)) = Ok tt /\
  final (rmdir_if_empty path (final o)) = final o.
Proof.
  cbv zeta. intros _. rewrite rmdir_if_empty_run. cbv zeta.
  destruct (rmdir (fs e) (abspath e path)) as [m|x] eqn:Hr; run.
  - pose proof (rmdir_ok _ _ _ Hr) as (-> & Hd & He).
    split; [reflexivity|]. split; [right; auto|]. split; [congruence|].
    rewrite rmdir_if_empty_run. cbv zeta. rewrite abspath_set_fs. cbn [fs set_fs].
    destruct (rmdir_after_rmdir _ _ _ Hr) as [y ->]. split; reflexivity.
  - split; [reflexivity|]. split; [left; reflexivity|]. split; [reflexivity|].
    rewrite rmdir_if_empty_run. cbv zeta. rewrite Hr. split; reflexivity.
Qed.

Section Leftovers.

Context {Remote : Type}.
Implicit Types (e : @Env Remote) (self : @Processor Remote) (m : FS).

(** A file that cannot be read cannot be read after entries were
    removed. *)
Lemma read_file_stays_refused m m' (p : list string) :
  m' ⊆ m -> is_raise (read_file m p) = true -> is_raise (read_file m' p) = true.
Proof.
  intros Hsub. unfold read_file. destruct p as [|c p]; [auto|].
  destruct (walk m [] (c :: p)) as [w|] eqn:Hw.
  - intros _. destruct (walk m' [] (c :: p)) eqn:Hw'; [reflexivity|].
    exfalso. apply (walk_stays_blocked m m' [] (c :: p) Hsub); congruence.
  - destruct (walk m' [] (c :: p)); [reflexivity|].
    destruct (m' !! (c :: p)) as [[f|]|] eqn:Hl; try reflexivity.
    rewrite (lookup_weaken _ _ _ _ Hl Hsub). auto.
Qed.

(** When [_cleanup] has returned, the staging file cannot be read any
    more. *)
Lemma cleanup_removes_file self e :
  res (_cleanup self e) = Ok tt ->
  is_raise (read_file (fs (final (_cleanup self e)))
              (abspath e (file_path (attrs self)))) = true.
Proof.
  rewrite cleanup_run. cbv zeta.
  destruct (unlink (fs e) (abspath e (file_path (attrs self)))) as [m1|x] eqn:Hu.
  - intros _. apply unlink_ok in Hu as [-> [c Hc]].
    assert (Hgone : is_raise (read_file (delete (abspath e (file_path (attrs self))) (fs e))
                                (abspath e (file_path (attrs self)))) = true).
    { unfold read_file. destruct (abspath e (file_path (attrs self))); [reflexivity|].
      destruct (walk _ _ _); [reflexivity|]. rewrite lookup_delete_eq. reflexivity. }
    rewrite rmdir_if_empty_run. cbv zeta. rewrite abspath_set_fs. cbn [fs set_fs].
    destruct (rmdir _ _) as [m2|y] eqn:Hr; run; cbn [fs set_fs]; [|exact Hgone].
    apply rmdir_ok in Hr as (-> & _).
    exact (read_file_stays_refused _ _ _ (delete_subseteq _ _) Hgone).
  - destruct (caught_by_cleanup x) eqn:Hc; [|discriminate]. intros _.
    assert (Hgone : is_raise (read_file (fs e) (abspath e (file_path (attrs self)))) = true).
    { revert Hu. unfold unlink, read_file.
      destruct (abspath e (file_path (attrs self))); [reflexivity|].
      destruct (walk _ _ _); [reflexivity|].
      destruct (fs e !! _) as [[f|]|]; try reflexivity. discriminate. }
    rewrite rmdir_if_empty_run. cbv zeta.
    destruct (rmdir _ _) as [m2|y] eqn:Hr; run; cbn [fs set_fs]; [|exact Hgone].
    apply rmdir_ok in Hr as (-> & _).
    exact (read_file_stays_refused _ _ _ (delete_subseteq _ _) Hgone).
Qed.

End Leftovers.

(** X9. A run that returns normally leaves no staging file: after a fetch
    phase (fetching enabled) that returned, the staging file cannot be
    read any more and the archive holds an object under [s3_path]; after a
    load phase that returned (with the working directory as it was), the
    staging file cannot be read any more. *)
Theorem success_leaves_no_staging_file {Remote : Type} (cfg : Config)
    (self : @Processor Remote) (e : @Env Remote) :
  let fp := abspath e (file_path (attrs self)) in
  let o := fetch_and_archive_to_s3 cfg self e in
  let o' := load_from_s3_to_db self e in
  (FETCH_DATA_FROM_SOURCE cfg = true -> res o = Ok tt ->
   is_raise (read_file (fs (final o)) fp) = true /\
   exists data, objects (s3 (final o)) !! s3_path (attrs self) = Some data) /\
  (res o' = Ok tt -> cwd (final o') = cwd e ->
   is_raise (read_file (fs (final o')) fp) = true).
Proof.
  cbv zeta. split.
  - intros Hon.
    assert (Hput : forall e1 (pre : list event) (data : string),
              abspath e1 (file_path (attrs self)) = abspath e (file_path (attrs self)) ->
              let o := prepend pre
                         (bind (write_staging (file_path (attrs self)) data)
                            (fun _ => put_to_s3 self (file_path (attrs self))
                                        (s3_path (attrs self))) e1) in
              res o = Ok tt ->
              is_raise (read_file (fs (final o)) (abspath e (file_path (attrs self)))) = true /\
              exists data, objects (s3 (final o)) !! s3_path (attrs self) = Some data).
    { intros e1 pre data Habs. cbv zeta.
      rewrite bind_write_staging, put_to_s3_run. run. cbn [s3 set_fs].
      destruct (negb (online (s3 e1))); [discriminate|].
      destruct (read_file _ _) as [c|x]; [|discriminate].
      intros Hres. split.
      - rewrite <- Habs. apply (cleanup_removes_file self) in Hres. exact Hres.
      - exists c. destruct (cleanup_frame self
          (set_s3 (set_fs e1 (write_close (fs e1) (abspath e1 (file_path (attrs self))) data))
             (mkS3 (<[s3_path (attrs self) := c]> (objects (s3 e1))) true))) as (-> & _).
        cbn [s3 set_s3 objects]. apply lookup_insert_eq. }
    remember (fetch_and_archive_to_s3 cfg self e) as o eqn:Ho. revert Ho.
    unfold fetch_and_archive_to_s3, open_staging. cbv zeta. rewrite Hon. cbn [negb].
    repeat step.
    destruct (mkdir _ _) as [m1|x]; [|intros ->; discriminate].
    repeat step.
    destruct (String.eqb _ "generator"); [|destruct (String.eqb _ "list")].
    + repeat step. cbn [remote set_fs].
      destruct (fetch_from_api _ _) as [[x|x] r]; [|intros ->; discriminate].
      destruct x as [|b|t|rows|names]; [intros ->; discriminate| | | |];
        repeat step;
        (destruct (open_w _ _) as [m2|x]; [|intros ->; discriminate]);
        cbn [rows_of];
        try (destruct b; [|rewrite bind_raise; intros ->; discriminate]);
        intros ->; rewrite !prepend_prepend; apply Hput; reflexivity.
    + repeat step.
      destruct (open_w _ _) as [m2|x]; [|intros ->; discriminate].
      repeat step. cbn [remote set_fs].
      destruct (fetch_from_api _ _) as [[x|x] r]; [|intros ->; discriminate].
      destruct x as [|b|t|rows|names]; try (rewrite bind_raise; intros ->; discriminate).
      intros ->; rewrite !prepend_prepend; apply Hput; reflexivity.
    + repeat step.
      destruct (open_w _ _) as [m2|x]; [|intros ->; discriminate].
      repeat step. cbn [remote set_fs].
      destruct (fetch_from_api _ _) as [[x|x] r]; [|intros ->; discriminate].
      destruct x as [|b|t|rows|names]; try (rewrite bind_raise; intros ->; discriminate).
      intros ->; rewrite !prepend_prepend; apply Hput; reflexivity.
  - remember (load_from_s3_to_db self e) as o eqn:Ho. revert Ho.
    unfold_methods. cbv zeta. repeat step.
    destruct (mkdir _ _) as [m1|x]; [|intros ->; discriminate].
    repeat step.
    destruct (negb _); [intros ->; discriminate|].
    destruct (objects _ !! _) as [c|]; [|intros ->; discriminate].
    destruct (open_w _ _) as [m2|x]; [|intros ->; discriminate].
    repeat step.
    destruct (pre_copy_transform _ _) as [[[]|x] e3]; [|intros ->; discriminate].
    repeat step.
    destruct (reachable _); [|intros ->; discriminate].
    repeat step.
    destruct (pre_copy_sql _ _) as [[[]|x] e4]; [|intros ->; discriminate].
    repeat step.
    destruct (copy_to_db _ _) as [[[]|x] e5]; [|intros ->; discriminate].
    repeat step.
    destruct (reachable (db e5)), (session (db e5)) as [t|]; try (intros ->; discriminate).
    intros ->. run. intros Hres Hcwd.
    destruct (cleanup_frame self (set_db e5 (mkDB t (Some t) true))) as (_ & _ & _ & Hc).
    rewrite Hc in Hcwd. cbn [cwd set_db] in Hcwd.
    replace (abspath e (file_path (attrs self)))
      with (abspath (set_db e5 (mkDB t (Some t) true)) (file_path (attrs self)))
      by (unfold abspath; cbn [cwd set_db]; rewrite Hcwd; reflexivity).
    exact (cleanup_removes_file self _ Hres).
Qed.

(** ** The upload of a whole folder *)

Section FolderFacts.

Context {Remote : Type}.
Implicit Types (e : @Env Remote) (m : FS) (p q : list string) (l : list (list string)).

Lemma map_is_fmap {A B : Type} (f : A -> B) (l : list A) : map f l = f <$> l.
Proof. induction l as [|a l IH]; [reflexivity|]. cbn. rewrite IH. reflexivity. Qed.

Lemma elem_of_glob_all m p q :
  q ∈ glob_all m p <-> (exists n, m !! q = Some n) /\ p `prefix_of` q /\ q <> p.
Proof.
  unfold glob_all. rewrite list_elem_of_filter, map_is_fmap, list_elem_of_fmap.
  split.
  - intros [[Hp Hne] ([q' n] & -> & Hin)]. apply elem_of_map_to_list in Hin. eauto.
  - intros [[n Hn] [Hp Hne]]. split; [auto|].
    exists (q, n). split; [reflexivity|]. apply elem_of_map_to_list. exact Hn.
Qed.

Lemma NoDup_glob_all m p : NoDup (glob_all m p).
Proof.
  unfold glob_all. apply NoDup_filter. rewrite map_is_fmap.
  apply NoDup_fst_map_to_list.
Qed.

(** Every name on the way of a path that resolves is a directory. *)
Lemma walk_through_dirs m cur names pre suf :
  walk m cur names = None -> names = pre ++ suf -> pre <> [] -> suf <> [] ->
  m !! (cur ++ pre) = Some Dir.
Proof.
  revert cur pre. induction names as [|c rest IH]; intros cur pre Hw Hn Hpre Hsuf.
  - destruct pre; [congruence|discriminate].
  - destruct pre as [|c' pre']; [congruence|]. injection Hn as <- Hrest.
    cbn in Hw. destruct rest as [|d rest].
    { destruct pre'; [destruct suf; [congruence|discriminate]|discriminate]. }
    destruct (m !! (cur ++ [c])) as [[|]|] eqn:Hl; try discriminate.
    destruct pre' as [|x pre']; [exact Hl|].
    replace (cur ++ c :: x :: pre') with ((cur ++ [c]) ++ x :: pre')
      by (rewrite <- app_assoc; reflexivity).
    apply (IH (cur ++ [c]) (x :: pre') Hw Hrest); [discriminate|exact Hsuf].
Qed.

(** A regular file is not on the way to anything that resolves. *)
Lemma file_not_on_the_way m q names c :
  q <> [] -> walk m [] names = None -> m !! q = Some (File c) ->
  ~ (q `prefix_of` names /\ q <> names).
Proof.
  intros Hq Hw Hf [[suf Hs] Hne].
  assert (Hsuf : suf <> []) by (intros ->; rewrite app_nil_r in Hs; congruence).
  pose proof (walk_through_dirs m [] names q suf Hw Hs Hq Hsuf) as H.
  cbn in H. congruence.
Qed.

Lemma abspath_rooted e q : abspath e (mkPath "/" q) = q.
Proof. reflexivity. Qed.

Lemma unlink_entry_run q e :
  unlink_entry q e =
    match unlink (fs e) q with
    | Ok m => mkOutcome (Ok tt) (set_fs e m) [EvUnlink (mkPath "/" q)]
    | Raise x => mkOutcome (Raise x) e [EvUnlink (mkPath "/" q)]
    end.
Proof.
  unfold unlink_entry. rewrite bind_emit. unfold fs_call. rewrite abspath_rooted.
  destruct (unlink (fs e) q); reflexivity.
Qed.



(** A loop that meets a directory among entries that all resolve ends
    there. *)
Lemma unlink_meets_dir_run l e :
  NoDup l ->
  (forall q, q ∈ l -> q <> [] /\ walk (fs e) [] q = None /\ exists n, fs e !! q = Some n) ->
  (exists q, q ∈ l /\ fs e !! q = Some Dir) ->
  let o := for_each l unlink_entry e in
  res o = Raise IsADirectoryError /\
  fs (final o) ⊆ fs e /\
  (forall q, fs e !! q = Some Dir -> fs (final o) !! q = Some Dir) /\
  s3 (final o) = s3 e /\ db (final o) = db e /\ remote (final o) = remote e.
Proof.
  cbv zeta. revert e. induction l as [|q l IH]; intros e Hnd Hall (d & Hd & Hdir).
  - inversion Hd.
  - apply NoDup_cons in Hnd as [Hnin Hnd].
    destruct (Hall q ltac:(left)) as (Hq & Hw & n & Hf).
    cbn [for_each]. unfold bind. rewrite unlink_entry_run.
    destruct n as [c|].
    + assert (Hu : unlink (fs e) q = Ok (delete q (fs e))).
      { unfold unlink. destruct q; [congruence|]. rewrite Hw, Hf. reflexivity. }
      rewrite Hu. cbn [res final events].
      destruct (IH (set_fs e (delete q (fs e))) Hnd) as (Hr & Hsub & Hdirs & Hs3 & Hdb & Hrem).
      * intros q' Hin. destruct (Hall q' ltac:(right; exact Hin)) as (Hq' & Hw' & n' & Hf').
        cbn [fs set_fs]. split; [exact Hq'|]. split.
        -- rewrite walk_delete; [exact Hw'|].
           exact (file_not_on_the_way _ _ _ _ Hq Hw' Hf).
        -- exists n'. rewrite lookup_delete_ne; [exact Hf'|]. intros ->. contradiction.
      * exists d. apply elem_of_cons in Hd as [->|Hd]; [congruence|].
        split; [exact Hd|]. cbn [fs set_fs].
        rewrite lookup_delete_ne; [exact Hdir|]. intros ->. congruence.
      * cbn [fs set_fs] in *. rewrite Hr. split; [reflexivity|]. split.
        -- etrans; [exact Hsub|apply delete_subseteq].
        -- split; [|auto]. intros q' Hq'. apply Hdirs.
           rewrite lookup_delete_ne; [exact Hq'|]. intros ->. congruence.
    + assert (Hu : unlink (fs e) q = Raise IsADirectoryError).
      { unfold unlink. destruct q; [congruence|]. rewrite Hw, Hf. reflexivity. }
      rewrite Hu. cbn [res final events]. repeat split; try reflexivity. auto.
Qed.

End FolderFacts.


Lemma forallb_glob_all (m : FS) (p : list string) (f : list string -> bool) :
  forallb f (glob_all m p) = true ->
  forall q n, m !! q = Some n -> p `prefix_of` q -> q <> p -> f q = true.
Proof.
  intros H q n Hn Hp Hne. rewrite forallb_forall in H. apply H.
  apply list_elem_of_In, elem_of_glob_all. eauto.
Qed.

Lemma not_root_below (p q : list string) : p `prefix_of` q -> q <> p -> q <> [].
Proof.
  intros [k ->] Hne H. apply app_eq_nil in H as [-> ->]. apply Hne. reflexivity.
Qed.


(** X13. [put_to_s3_using_cli] unlinks whatever the recursive listing of
    the staging folder yields, so a folder inside the staging folder makes
    it raise IsADirectoryError after the upload command has returned: the
    run ends there, every directory is still in place, and nothing but
    regular files is gone. *)
Theorem folder_upload_stops_at_a_folder {Remote : Type} (cmd : @Command Remote)
    (self : @Processor Remote) (e e1 : @Env Remote) :
  let p := abspath e1 (local_folder (attrs self)) in
  local_cmd cmd (upload_command self) e = (Ok tt, e1) ->
  forallb (resolves (fs e1)) (glob_all (fs e1) p) = true ->
  existsb (is_dir (fs e1)) (glob_all (fs e1) p) = true ->
  let o := put_to_s3_using_cli cmd self e in
  res o = Raise IsADirectoryError /\
  fs (final o) ⊆ fs e1 /\
  (forall q, fs e1 !! q = Some Dir -> fs (final o) !! q = Some Dir) /\
  s3 (final o) = s3 e1 /\ db (final o) = db e1 /\ remote (final o) = remote e1.
Proof.
  cbv zeta. intros Hcmd Hall Hex.
  pose proof (forallb_glob_all _ _ _ Hall) as Hbelow.
  unfold put_to_s3_using_cli. fold (upload_command self).
  rewrite bind_emit, bind_call, Hcmd.
  change (fun files : list string =>
            bind (emit (EvUnlink (mkPath "/" files)))
                 (fun _ => fs_call unlink (mkPath "/" files)))
    with (@unlink_entry Remote).
  cbn [prepend res final events].
  apply unlink_meets_dir_run.
  - apply NoDup_glob_all.
  - intros q Hq. apply elem_of_glob_all in Hq as ([n Hn] & Hp & Hne).
    specialize (Hbelow q n Hn Hp Hne). unfold resolves in Hbelow.
    split; [exact (not_root_below _ _ Hp Hne)|].
    split; [destruct (walk (fs e1) [] q); [discriminate|reflexivity]|eauto].
  - apply existsb_exists in Hex as (q & Hq & Hd). exists q.
    split; [apply list_elem_of_In; exact Hq|].
    apply is_dir_spec in Hd as [->|[_ Hd]]; [|exact Hd].
    apply list_elem_of_In, elem_of_glob_all in Hq as (_ & Hp & Hne).
    exfalso. apply Hne. destruct Hp as [k Hk]. symmetry in Hk.
    apply app_eq_nil in Hk as [-> _]. reflexivity.
Qed.


(** A folder in the staging folder: the upload raises and the folder stays. *)
Lemma folder_upload_stops_at_a_folder_witness :
  let e := Staged.env_of Staged.file_and_folder in
  let o := put_to_s3_using_cli Example.cmd Example.hitwise e in
  res o = Raise IsADirectoryError /\
  fs (final o) !! ["etl"; "hitwise"; "20230501"; "sub"] = Some Dir.
Proof.
  cbv zeta.
  pose proof (folder_upload_stops_at_a_folder Example.cmd Example.hitwise
                (Staged.env_of Staged.file_and_folder) (Staged.env_of Staged.file_and_folder)
                eq_refl eq_refl eq_refl) as (Hres & _ & Hdirs & _).
  split; [exact Hres|]. apply Hdirs. reflexivity.
Defined.

(** ** Transfers over SSH *)

Section SftpFacts.

Context {Remote : Type}.
Implicit Types (e : @Env Remote) (self : @Processor Remote) (cmd : @Command Remote).

Lemma get_one_run cmd self files e :
  get_one cmd self files e =
    prepend (rounds self [files])
      (match ssh_get_file cmd (sftp_path_server (attrs self) +:+ files)
               (local_folder (attrs self)) e with
       | (r, e') => mkOutcome r e' []
       end).
Proof.
  unfold get_one. cbv zeta. rewrite !bind_emit, prepend_prepend.
  unfold call. destruct (ssh_get_file _ _ _ _) as [r e']. reflexivity.
Qed.

(** The loop stops at the first transfer that raises. *)
Lemma get_loop_run cmd self items e :
  exists n,
    (n <= length items)%nat /\
    events (for_each items (get_one cmd self) e) = rounds self (take n items) /\
    (res (for_each items (get_one cmd self) e) = Ok tt -> n = length items) /\
    (n = length items \/ is_raise (res (for_each items (get_one cmd self) e)) = true).
Proof.
  revert e. induction items as [|f items IH]; intros e.
  - exists 0%nat. cbn. auto.
  - cbn [for_each]. unfold bind. rewrite get_one_run.
    destruct (ssh_get_file _ _ _ _) as [[[]|x] e'].
    + destruct (IH e') as (n & Hn & Hev & Hok & Hor).
      exists (S n). cbn [prepend res final events length take].
      split; [lia|]. split.
      * rewrite Hev, app_nil_r. reflexivity.
      * split; [intros H; rewrite (Hok H); reflexivity|].
        destruct Hor as [->|H]; [left; reflexivity|right; exact H].
    + exists 1%nat. cbn [prepend res final events length take].
      split; [lia|]. rewrite take_0. split; [reflexivity|].
      split; [discriminate|right; reflexivity].
Qed.

Lemma bind_try_finally {A B : Type} (m : @M Remote A) (c : @M Remote unit)
    (k : A -> @M Remote B) e :
  bind (try_finally m c) k e =
    match res (m e) with
    | Ok a =>
        prepend (events (m e) ++ events (c (final (m e)))) (k a (final (c (final (m e)))))
    | Raise x =>
        mkOutcome (Raise x) (final (c (final (m e)))) (events (m e) ++ events (c (final (m e))))
    end.
Proof.
  unfold bind, try_finally. cbn [res final events].
  destruct (res (m e)); reflexivity.
Qed.

(** The events of a loop of deletions. *)
Lemma unlink_loop_events (l : list (list string)) e :
  exists k, events (for_each l unlink_entry e)
            = map (fun q => EvUnlink (mkPath "/" q)) (take k l).
Proof.
  revert e. induction l as [|q l IH]; intros e.
  - exists 0%nat. reflexivity.
  - cbn [for_each]. unfold bind. rewrite unlink_entry_run.
    destruct (unlink (fs e) q) as [m|x]; cbn [res final events].
    + destruct (IH (set_fs e m)) as [k Hk]. exists (S k). rewrite Hk. reflexivity.
    + exists 1%nat. reflexivity.
Qed.

Lemma put_to_s3_using_cli_events cmd self e :
  exists k l,
    events (put_to_s3_using_cli cmd self e) =
      EvLocalCmd (upload_command self) :: map (fun q => EvUnlink (mkPath "/" q)) (take k l).
Proof.
  unfold put_to_s3_using_cli. fold (upload_command self).
  rewrite bind_emit, bind_call.
  destruct (local_cmd cmd (upload_command self) e) as [[[]|x] e1].
  - change (fun files : list string =>
              bind (emit (EvUnlink (mkPath "/" files)))
                   (fun _ => fs_call unlink (mkPath "/" files)))
      with (@unlink_entry Remote).
    destruct (unlink_loop_events (glob_all (fs e1) (abspath e1 (local_folder (attrs self)))) e1)
      as [k Hk].
    exists k, (glob_all (fs e1) (abspath e1 (local_folder (attrs self)))).
    cbn [prepend events app]. rewrite Hk. reflexivity.
  - exists 0%nat, []. reflexivity.
Qed.

Lemma sftp_fetch_run (cfg : Config) cmd self e (m1 : FS) e2 :
  FETCH_DATA_FROM_SOURCE cfg = true ->
  mkdir (fs e) (abspath e (local_folder (attrs self))) = Ok m1 ->
  ssh_enter cmd (sftp_user_server (attrs self)) (sftp_name_server (attrs self))
    (set_fs e m1) = (Ok tt, e2) ->
  sftp_fetch_and_archive_to_s3 cfg cmd self e =
    let blk := transfer_block cmd self e2 in
    let e3 := ssh_exit cmd (final blk) in
    prepend ([EvMkdir (local_folder (attrs self));
              EvSshEnter (sftp_user_server (attrs self)) (sftp_name_server (attrs self))]
             ++ events blk ++ [EvSshExit])
      (match res blk with
       | Ok _ => after_transfer cmd self e3
       | Raise x => mkOutcome (Raise x) e3 []
       end).
Proof.
  intros Hon Hmk Henter. unfold sftp_fetch_and_archive_to_s3. cbv zeta.
  rewrite Hon. cbn [negb].
  rewrite bind_emit, bind_fs_call, Hmk, bind_emit, bind_call, Henter.
  rewrite bind_try_finally.
  change (bind (self_fetch_from_api self) _) with (transfer_block cmd self).
  change (bind (emit (EvLog _)) _) with (after_transfer cmd self).
  rewrite bind_emit. cbn [events final].
  destruct (res (transfer_block cmd self e2)) as [[]|x].
  - rewrite !prepend_prepend. reflexivity.
  - unfold prepend. cbn [res final events app]. rewrite app_nil_r. reflexivity.
Qed.

Lemma transfer_block_events cmd self e :
  forallb (fun ev => negb (upload_event ev)) (events (transfer_block cmd self e)) = true /\
  ~ In EvSshExit (events (transfer_block cmd self e)).
Proof.
  unfold transfer_block. rewrite bind_fetch.
  destruct (fetch_from_api (methods self) (remote e)) as [[x|x] r];
    [|split; [reflexivity|not_in_events]].
  destruct (iter_str cmd x) as [items|err]; [|split; [reflexivity|not_in_events]].
  destruct (get_loop_run cmd self items (set_remote e r)) as (n & _ & Hev & _).
  cbn [prepend events app]. rewrite Hev.
  generalize (take n items). intros l. split.
  - cbn [forallb upload_event negb andb].
    induction l as [|f l IH]; [reflexivity|exact IH].
  - intros [H|H]; [discriminate|].
    induction l as [|f l IH]; [destruct H|].
    cbn in H. destruct H as [H|[H|H]]; [discriminate|discriminate|exact (IH H)].
Qed.

Lemma after_transfer_events cmd self e :
  forallb (fun ev => negb (transfer_event ev)) (events (after_transfer cmd self e)) = true /\
  ~ In EvSshExit (events (after_transfer cmd self e)).
Proof.
  unfold after_transfer. rewrite !bind_emit, bind_call.
  destruct (check_inserted_files (methods self) e) as [[[]|x] e1];
    [|split; [reflexivity|not_in_events]].
  destruct (put_to_s3_using_cli_events cmd self e1) as (k & l & Hev).
  cbn [prepend events app]. rewrite Hev.
  generalize (take k l). intros l'. split.
  - cbn [forallb transfer_event negb andb].
    induction l' as [|q l' IH]; [reflexivity|exact IH].
  - intros [H|[H|[H|H]]]; try discriminate.
    induction l' as [|q l' IH]; [destruct H|].
    destruct H as [H|H]; [discriminate|exact (IH H)].
Qed.

End SftpFacts.

(** X10. Once the SSH connection of [sftp_fetch_and_archive_to_s3] is open
    it is closed exactly once, whether the transfers succeed or raise: the
    fetch and every transfer come before the close; the check of the
    downloaded files, the upload command and every deletion come after it.
    When [fetch_from_api] raises, the connection is closed and the
    exception ends the run. *)
Theorem sftp_fetch_closes_the_connection {Remote : Type} (cfg : Config)
    (cmd : @Command Remote) (self : @Processor Remote) (e e2 : @Env Remote) (m1 : FS) :
  FETCH_DATA_FROM_SOURCE cfg = true ->
  mkdir (fs e) (abspath e (local_folder (attrs self))) = Ok m1 ->
  ssh_enter cmd (sftp_user_server (attrs self)) (sftp_name_server (attrs self))
    (set_fs e m1) = (Ok tt, e2) ->
  let o := sftp_fetch_and_archive_to_s3 cfg cmd self e in
  (exists pre post,
     events o = pre ++ EvSshExit :: post /\
     ~ In EvSshExit pre /\ ~ In EvSshExit post /\
     forallb (fun ev => negb (upload_event ev)) pre = true /\
     forallb (fun ev => negb (transfer_event ev)) post = true) /\
  (forall x r,
     fetch_from_api (methods self) (remote e2) = (Raise x, r) ->
     res o = Raise x /\
     final o = ssh_exit cmd (set_remote e2 r) /\
     events o =
       [EvMkdir (local_folder (attrs self));
        EvSshEnter (sftp_user_server (attrs self)) (sftp_name_server (attrs self));
        EvFetch; EvSshExit]).
Proof.
  cbv zeta. intros Hon Hmk Henter.
  rewrite (sftp_fetch_run cfg cmd self e m1 e2 Hon Hmk Henter). cbv zeta.
  split.
  - destruct (transfer_block_events cmd self e2) as [Hb1 Hb2].
    exists ([EvMkdir (local_folder (attrs self));
             EvSshEnter (sftp_user_server (attrs self)) (sftp_name_server (attrs self))]
            ++ events (transfer_block cmd self e2)).
    destruct (res (transfer_block cmd self e2)) as [[]|x].
    + destruct (after_transfer_events cmd self (ssh_exit cmd (final (transfer_block cmd self e2))))
        as [Ha1 Ha2].
      eexists. cbn [prepend events]. split.
      * rewrite <- !app_assoc. cbn [app]. reflexivity.
      * split; [intros [H|[H|H]]; [discriminate|discriminate|exact (Hb2 H)]|].
        split; [exact Ha2|]. split; [exact Hb1|exact Ha1].
    + exists []. cbn [prepend events]. split.
      * rewrite <- !app_assoc. cbn [app]. reflexivity.
      * split; [intros [H|[H|H]]; [discriminate|discriminate|exact (Hb2 H)]|].
        split; [intros []|]. split; [exact Hb1|reflexivity].
  - intros x r Hsrc. unfold transfer_block. rewrite bind_fetch, Hsrc.
    cbn [prepend res final events app]. repeat split; reflexivity.
Qed.

(** X11. The files that [sftp_fetch_and_archive_to_s3] asks the server for
    are the items that [fetch_from_api] returned, in their order, each
    with [sftp_path_server] put directly in front of it, and each into the
    staging folder; the transfers that were started form an initial part
    of that list.  The upload (check, command, deletions) starts only when
    every item was transferred; when fewer were, the run ended with an
    exception. *)
Theorem sftp_fetch_transfers_in_order {Remote : Type} (cfg : Config)
    (cmd : @Command Remote) (self : @Processor Remote) (e e2 : @Env Remote) (m1 : FS)
    (x : payload) (r : Remote) (items : list string) :
  FETCH_DATA_FROM_SOURCE cfg = true ->
  mkdir (fs e) (abspath e (local_folder (attrs self))) = Ok m1 ->
  ssh_enter cmd (sftp_user_server (attrs self)) (sftp_name_server (attrs self))
    (set_fs e m1) = (Ok tt, e2) ->
  fetch_from_api (methods self) (remote e2) = (Ok x, r) ->
  iter_str cmd x = Ok items ->
  let o := sftp_fetch_and_archive_to_s3 cfg cmd self e in
  let asked :=
    map (fun files => (sftp_path_server (attrs self) +:+ files, local_folder (attrs self)))
        items in
  omap ssh_get_of (events o) `prefix_of` asked /\
  ((exists ev, In ev (events o) /\ upload_event ev = true) ->
   omap ssh_get_of (events o) = asked) /\
  (omap ssh_get_of (events o) <> asked -> is_raise (res o) = true).
Proof.
  cbv zeta. intros Hon Hmk Henter Hsrc Hit.
  rewrite (sftp_fetch_run cfg cmd self e m1 e2 Hon Hmk Henter). cbv zeta.
  unfold transfer_block. rewrite bind_fetch, Hsrc, Hit.
  destruct (get_loop_run cmd self items (set_remote e2 r)) as (n & Hn & Hev & Hok & Hor).
  cbn [prepend res final events app]. rewrite Hev.
  assert (Hgets : forall l, omap ssh_get_of (rounds self l) =
            map (fun files => (sftp_path_server (attrs self) +:+ files,
                               local_folder (attrs self))) l).
  { induction l as [|f l IH]; [reflexivity|]. cbn. rewrite <- IH. reflexivity. }
  assert (Hnone : forall l, forallb (fun ev => negb (transfer_event ev)) l = true ->
            omap ssh_get_of l = []).
  { induction l as [|ev l IH]; [reflexivity|]. cbn [forallb]. intros H.
    apply andb_true_iff in H as [H1 H2]. cbn [omap list_omap].
    destruct ev; try discriminate; cbn; exact (IH H2). }
  assert (Htake : map (fun files => (sftp_path_server (attrs self) +:+ files,
                                     local_folder (attrs self))) (take n items)
                  `prefix_of`
                  map (fun files => (sftp_path_server (attrs self) +:+ files,
                                     local_folder (attrs self))) items).
  { rewrite <- (take_drop n items) at 2. rewrite map_app. apply prefix_app_r. reflexivity. }
  destruct (res (for_each items (get_one cmd self) (set_remote e2 r))) as [[]|y] eqn:Hres.
  - destruct (after_transfer_events cmd self
                (ssh_exit cmd (final (for_each items (get_one cmd self) (set_remote e2 r)))))
      as [Ha _].
    cbn [prepend res final events app omap list_omap ssh_get_of].
    rewrite !omap_app, Hgets. cbn [omap list_omap ssh_get_of].
    rewrite (Hnone _ Ha), !app_nil_r, (Hok eq_refl), firstn_all.
    split; [reflexivity|]. split; [reflexivity|]. intros H. congruence.
  - cbn [prepend res final events app omap list_omap ssh_get_of].
    rewrite !omap_app, Hgets. cbn [omap list_omap ssh_get_of]. rewrite !app_nil_r.
    split; [exact Htake|]. split; [|reflexivity].
    intros (ev & Hin & Hup). exfalso.
    destruct Hin as [<-|[<-|[<-|Hin]]]; try discriminate.
    apply in_app_or in Hin as [Hin|[<-|[]]]; [|discriminate].
    revert Hin. generalize (take n items). intros l Hin.
    induction l as [|f l IH]; [destruct Hin|].
    cbn in Hin. destruct Hin as [<-|[<-|Hin]]; [discriminate|discriminate|exact (IH Hin)].
Qed.

(** ** Downloads *)

(** X14. A download that fails ends the load phase before anything else
    happens.  In [load_from_s3_to_db], when the archive cannot be reached
    or holds no object under [s3_path] (FileNotFoundError), and in
    [sftp_load_from_s3_to_db], when the download command raises: no hook
    is called, no database session is opened, nothing is cleaned up; the
    staging folder that was just made stays. *)
Theorem failed_download_runs_no_hook {Remote : Type} (cmd : @Command Remote)
    (self : @Processor Remote) (e : @Env Remote) (m1 : FS) :
  let a := attrs self in
  mkdir (fs e) (abspath e (local_folder a)) = Ok m1 ->
  let o := load_from_s3_to_db self e in
  let o' := sftp_load_from_s3_to_db cmd self e in
  (online (s3 e) = false \/ objects (s3 e) !! s3_path a = None ->
   is_raise (res o) = true /\
   (online (s3 e) = true -> res o = Raise FileNotFoundError) /\
   final o = set_fs e m1 /\
   events o =
     [EvMkdir (local_folder a);
      EvLog ("copying " +:+ s3_path a +:+ " to " +:+ Path_str (file_path a));
      EvLog ("copying " +:+ Path_str (file_path a) +:+ " to " +:+ s3_path a);
      EvS3Get (s3_path a) (file_path a)]) /\
  (forall x e1,
     local_cmd cmd (download_command self) (set_fs e m1) = (Raise x, e1) ->
     res o' = Raise x /\
     final o' = e1 /\
     events o' =
       [EvMkdir (local_folder a);
        EvLog ("copying " +:+ s3_path a +:+ " to " +:+ Path_str (local_folder a));
        EvLocalCmd (download_command self)]).
Proof.
  cbv zeta. intros Hmk. split.
  - intros Hno.
    remember (load_from_s3_to_db self e) as o eqn:Ho. revert Ho.
    unfold_methods. cbv zeta. repeat step. rewrite Hmk. repeat step.
    cbn [s3 set_fs].
    destruct (online (s3 e)) eqn:Hon; cbn [negb].
    + destruct Hno as [Hno|Hno]; [discriminate|]. rewrite Hno.
      intros ->. run. repeat split; reflexivity.
    + intros ->. run. repeat split; try reflexivity. discriminate.
  - intros x e1 Hcmd.
    remember (sftp_load_from_s3_to_db cmd self e) as o eqn:Ho. revert Ho.
    unfold_methods. fold (download_command self). cbv zeta.
    repeat step. rewrite Hmk. repeat step. rewrite Hcmd.
    intros ->. run. repeat split; reflexivity.
Qed.

(** X15. What [put_to_s3] uploaded is what [get_from_s3] downloads: after
    [put_to_s3] ran on a readable file with content [c], the archive holds
    [c] under the key; and in any later environment whose archive still
    holds that object and in which the file can be opened for writing,
    [get_from_s3] with the same key returns normally, the file then reads
    as [c], and no other entry of the file system has changed. *)
Theorem download_restores_upload {Remote : Type} (self self' : @Processor Remote)
    (fp : Path) (key : string) (e e' : @Env Remote) (c : string) (m : FS) :
  read_file (fs e) (abspath e fp) = Ok c ->
  online (s3 e) = true ->
  let o := put_to_s3 self fp key e in
  objects (s3 e') !! key = objects (s3 (final o)) !! key ->
  online (s3 e') = true ->
  open_w (fs e') (abspath e' fp) = Ok m ->
  let o' := get_from_s3 self' fp key e' in
  objects (s3 (final o)) !! key = Some c /\
  res o' = Ok tt /\
  read_file (fs (final o')) (abspath e' fp) = Ok c /\
  (forall q, q <> abspath e' fp -> fs (final o') !! q = fs e' !! q) /\
  s3 (final o') = s3 e'.
Proof.
  cbv zeta. intros Hrd Hon.
  assert (Hput : objects (s3 (final (put_to_s3 self fp key e))) !! key = Some c).
  { rewrite put_to_s3_run, Hon, Hrd. cbn [negb prepend final].
    destruct (cleanup_frame self (set_s3 e (mkS3 (<[key := c]> (objects (s3 e))) true)))
      as (-> & _).
    cbn [s3 set_s3 objects]. apply lookup_insert_eq. }
  rewrite Hput. intros Hobj Hon' Hop.
  split; [reflexivity|].
  pose proof (open_w_ok _ _ _ Hop) as (Hne & Hw & _).
  unfold get_from_s3. rewrite !bind_emit. unfold s3_get.
  rewrite Hon', Hobj, Hop. cbn [negb prepend res final events fs set_fs s3].
  split; [reflexivity|]. split; [exact (read_after_write _ _ _ Hne Hw)|].
  split; [|reflexivity].
  intros q Hq. unfold write_close. apply lookup_insert_ne. congruence.
Qed.

(** ** Cleanup by file name *)

Section CleanupByName.

Context {Remote : Type}.
Implicit Types (e : @Env Remote) (m : FS) (p : list string).

Lemma rmdir_dir m p :
  p <> [] -> is_dir m p = true ->
  rmdir m p = if has_entries m p then Raise (OSError "ENOTEMPTY") else Ok (delete p m).
Proof.
  intros Hne Hd. apply is_dir_spec in Hd as [Hd|[Hw Hl]]; [contradiction|].
  unfold rmdir. destruct p as [|c p]; [contradiction|]. rewrite Hw, Hl. reflexivity.
Qed.

(** An entry of a directory keeps it from being empty. *)
Lemma has_entries_child m p (x : string) (n : node) :
  m !! (p ++ [x]) = Some n -> has_entries m p = true.
Proof.
  intros H. unfold has_entries. apply bool_decide_eq_true.
  exists (p ++ [x]), n. split; [exact H|]. unfold parent_of.
  destruct (p ++ [x]) eqn:E; [destruct p; discriminate|].
  rewrite <- E, removelast_last. reflexivity.
Qed.

Lemma Path_eta (q : Path) : mkPath (anchor q) (parts q) = q.
Proof. destruct q; reflexivity. Qed.

End CleanupByName.

(** X17. [sftp_add_file_name_for_cleanup] with a file name of one path
    segment, in a state where the staging folder exists, the folder and
    the file in it being paths of ordinary names: the staging file of the
    instance becomes that name inside the staging folder (the archive key
    is not changed), the call returns normally, the file of that name is
    gone if it was a regular file, and the staging folder is gone if
    nothing is left in it. *)
Theorem cleanup_by_file_name {Remote : Type} (self : @Processor Remote)
    (file_name : string) (e : @Env Remote) :
  let lf := abspath e (local_folder (attrs self)) in
  let self' := fst (sftp_add_file_name_for_cleanup self file_name) in
  let o := snd (sftp_add_file_name_for_cleanup self file_name) e in
  plain_name file_name = true ->
  well_named (local_folder (attrs self)) = true ->
  well_named (file_path (attrs self')) = true ->
  lf <> [] ->
  is_dir (fs e) lf = true ->
  abspath e (file_path (attrs self')) = lf ++ [file_name] /\
  s3_path (attrs self') = s3_path (attrs self) /\
  res o = Ok tt /\
  final o = set_fs e (without_file (fs e) lf file_name).
Proof.
  cbv zeta. intros Hplain _ _ Hne Hd.
  unfold sftp_add_file_name_for_cleanup. cbv zeta. cbn [fst snd].
  set (self' := mkProcessor _ _).
  assert (Hfp : abspath e (file_path (attrs self'))
                = abspath e (local_folder (attrs self)) ++ [file_name]).
  { unfold self'. cbn [attrs file_path]. rewrite (joinpath_plain _ _ Hplain).
    rewrite abspath_snoc, Path_eta. reflexivity. }
  split; [exact Hfp|]. split; [reflexivity|].
  rewrite cleanup_run. cbv zeta. rewrite Hfp.
  change (local_folder (attrs self')) with (local_folder (attrs self)).
  pose proof (walk_child _ _ file_name Hd) as Hw.
  unfold without_file.
  assert (Hnil : abspath e (local_folder (attrs self)) ++ [file_name] <> [])
    by (destruct (abspath e (local_folder (attrs self))); discriminate).
  unfold unlink. revert Hw Hnil.
  destruct (abspath e (local_folder (attrs self)) ++ [file_name]) as [|c0 q0] eqn:Eq;
    [congruence|]. intros Hw _. rewrite Hw. rewrite <- Eq in *. clear Hw.
  destruct (fs e !! (abspath e (local_folder (attrs self)) ++ [file_name]))
    as [[c|]|] eqn:Hl.
  - rewrite rmdir_if_empty_run. cbv zeta. cbn [fs set_fs]. norm_abspath.
    rewrite (rmdir_after_child _ _ _ Hne Hd).
    destruct (has_entries _ _); run; split; reflexivity.
  - cbn [caught_by_cleanup]. rewrite rmdir_if_empty_run. cbv zeta.
    rewrite (rmdir_dir _ _ Hne Hd), (has_entries_child _ _ _ _ Hl).
    run. split; [reflexivity|]. destruct e; reflexivity.
  - cbn [caught_by_cleanup]. rewrite rmdir_if_empty_run. cbv zeta.
    rewrite (rmdir_dir _ _ Hne Hd).
    destruct (has_entries _ _); run; (split; [reflexivity|]);
      [destruct e; reflexivity|reflexivity].
Qed.

(** ** Fetching again *)

Section Rerun.

Context {Remote : Type}.
Implicit Types (e : @Env Remote) (self : @Processor Remote) (m : FS).

Lemma mkdir_existing m (p : list string) : is_dir m p = true -> mkdir m p = Ok m.
Proof.
  intros Hd. unfold mkdir.
  destruct p as [|c p]; [reflexivity|].
  remember (length (c :: p)) as k eqn:Hk. destruct k as [|k]; [discriminate|].
  cbn [mkdir_parents]. rewrite Hk, firstn_all.
  pose proof Hd as Hd'. apply is_dir_spec in Hd' as [Hd'|[Hw Hl]]; [discriminate|].
  unfold os_mkdir. rewrite Hw, Hl, Hd. reflexivity.
Qed.

Lemma mkdir_leaf m (p : list string) :
  p <> [] -> walk m [] p = None -> m !! p = None -> mkdir m p = Ok (<[p := Dir]> m).
Proof.
  intros Hne Hw Hl. unfold mkdir.
  destruct p as [|c p]; [congruence|].
  remember (length (c :: p)) as k eqn:Hk. destruct k as [|k]; [discriminate|].
  cbn [mkdir_parents]. rewrite Hk, firstn_all.
  unfold os_mkdir. rewrite Hw, Hl. reflexivity.
Qed.

(** A fetch phase in which nothing fails: where it ends. *)
Lemma fetch_success_run (cfg : Config) self e (x : payload) (r : Remote) (m1 : FS)
    (mode data : string) (name : string) :
  let lf := abspath e (local_folder (attrs self)) in
  let fp := abspath e (file_path (attrs self)) in
  FETCH_DATA_FROM_SOURCE cfg = true ->
  fp = lf ++ [name] -> lf <> [] ->
  fetch_from_api (methods self) (remote e) = (Ok x, r) ->
  staging_of (api_return_type (attrs self)) x = Some (mode, data) ->
  mkdir (fs e) lf = Ok m1 ->
  m1 !! fp <> Some Dir ->
  online (s3 e) = true ->
  let o := fetch_and_archive_to_s3 cfg self e in
  res o = Ok tt /\
  final o = mkEnv (cwd e) (cleaned m1 lf fp)
              (mkS3 (<[s3_path (attrs self) := data]> (objects (s3 e))) true) (db e) r.
Proof.
  cbv zeta. intros Hon Hfp Hlf Hsrc Hst Hmk Hnd Hs3.
  pose proof (mkdir_ok _ _ _ Hmk) as Hdir.
  assert (Hop : open_w m1 (abspath e (file_path (attrs self)))
                = Ok (<[abspath e (file_path (attrs self)) := File EmptyString]> m1)).
  { rewrite Hfp. apply open_w_child; [exact Hdir|]. rewrite <- Hfp. exact Hnd. }
  pose proof (walk_child _ _ name Hdir) as Hw. rewrite <- Hfp in Hw.
  assert (Hne : abspath e (file_path (attrs self)) <> [])
    by (rewrite Hfp; destruct (abspath e (local_folder (attrs self))); discriminate).
  (* writing, uploading and cleaning up, from the state in which the file
     was opened *)
  assert (Htail : forall (e1 : @Env Remote),
            cwd e1 = cwd e -> s3 e1 = s3 e -> db e1 = db e -> remote e1 = r ->
            fs e1 = <[abspath e (file_path (attrs self)) := File EmptyString]> m1 ->
            let o := bind (write_staging (file_path (attrs self)) data)
                       (fun _ => put_to_s3 self (file_path (attrs self))
                                   (s3_path (attrs self))) e1 in
            res o = Ok tt /\
            final o = mkEnv (cwd e)
                        (cleaned m1 (abspath e (local_folder (attrs self)))
                           (abspath e (file_path (attrs self))))
                        (mkS3 (<[s3_path (attrs self) := data]> (objects (s3 e))) true)
                        (db e) r).
  { intros e1 Hc Hs Hd Hr Hf. cbv zeta.
    assert (Ha : forall p, abspath e1 p = abspath e p)
      by (intros p; unfold abspath; rewrite Hc; reflexivity).
    rewrite bind_write_staging, put_to_s3_run. run. cbn [s3 set_fs fs].
    rewrite Hs, Hs3. cbn [negb]. norm_abspath. rewrite !Ha, Hf.
    unfold write_close. rewrite insert_insert_eq.
    pose proof (read_after_write m1 _ data Hne Hw) as Hrd.
    pose proof (unlink_after_write m1 _ data Hne Hw) as Hul.
    unfold write_close in Hrd, Hul. rewrite Hrd.
    rewrite cleanup_run. cbv zeta. cbn [fs set_fs set_s3]. norm_abspath.
    rewrite !Ha, Hul. rewrite rmdir_if_empty_run. cbv zeta. cbn [fs set_fs].
    norm_abspath. rewrite !Ha. rewrite Hfp at 1 2.
    rewrite (rmdir_after_child _ _ _ Hlf Hdir). unfold cleaned. rewrite <- Hfp.
    destruct (has_entries _ _); run; (split; [reflexivity|]);
      unfold set_fs, set_s3; cbn [cwd fs s3 db remote]; rewrite Hc, Hd, Hr; reflexivity. }
  remember (fetch_and_archive_to_s3 cfg self e) as o eqn:Ho. revert Ho.
  unfold fetch_and_archive_to_s3, open_staging. cbv zeta.
  rewrite Hon. cbn [negb]. repeat step. rewrite Hmk. repeat step.
  unfold staging_of in Hst.
  destruct (String.eqb _ "generator"); [|destruct (String.eqb _ "list")];
    destruct x as [|b|t|rows|names]; try discriminate; injection Hst as <- <-.
  - repeat step. cbn [remote set_fs]. rewrite Hsrc. repeat step.
    cbn [fs set_fs set_remote]. norm_abspath. rewrite Hop. cbn [rows_of].
    intros ->. run. apply Htail; reflexivity.
  - repeat step. cbn [fs set_fs]. norm_abspath. rewrite Hop.
    repeat step. cbn [remote set_fs]. rewrite Hsrc.
    intros ->. run. apply Htail; reflexivity.
  - repeat step. cbn [fs set_fs]. norm_abspath. rewrite Hop.
    repeat step. cbn [remote set_fs]. rewrite Hsrc.
    intros ->. run. apply Htail; reflexivity.
Qed.

(** Making the staging folder again after a run that cleaned up. *)
Lemma mkdir_after_cleanup m1 (lf : list string) (name : string) :
  lf <> [] -> is_dir m1 lf = true ->
  mkdir (cleaned m1 lf (lf ++ [name])) lf = Ok (delete (lf ++ [name]) m1).
Proof.
  intros Hne Hd. unfold cleaned.
  assert (Hx : lf ++ [name] <> lf).
  { intros H. apply (f_equal length) in H. rewrite length_app in H. cbn in H. lia. }
  assert (Hd' : is_dir (delete (lf ++ [name]) m1) lf = true).
  { apply is_dir_spec in Hd as [Hd|[Hw Hl]]; [contradiction|].
    apply is_dir_spec. right. split.
    - rewrite walk_delete; [exact Hw|].
      intros [[k Hk] _]. apply (f_equal length) in Hk.
      rewrite !length_app in Hk. cbn in Hk. lia.
    - rewrite lookup_delete_ne by exact Hx. exact Hl. }
  destruct (has_entries _ _); [exact (mkdir_existing _ _ Hd')|].
  apply is_dir_spec in Hd' as [Hd'|[Hw Hl]]; [contradiction|].
  rewrite mkdir_leaf.
  - rewrite (insert_delete_id _ _ _ Hl). reflexivity.
  - exact Hne.
  - rewrite walk_delete; [exact Hw|]. intros [_ H]. congruence.
  - apply lookup_delete_eq.
Qed.

End Rerun.

(** X19. Fetching again changes nothing: when a fetch phase in which
    nothing failed is followed by a second one, and the source returns the
    same payload, the second returns normally as well and leaves the local
    file system, the archive and the database exactly as the first left
    them; the archive holds the encoded payload under [s3_path].  (The
    staging file lies directly in the staging folder, as it does whenever
    the file name is one path segment.) *)
Theorem fetch_again_changes_nothing {Remote : Type} (cfg : Config)
    (self : @Processor Remote) (e : @Env Remote) (x : payload) (r r' : Remote)
    (m1 : FS) (mode data : string) (name : string) :
  let lf := abspath e (local_folder (attrs self)) in
  let fp := abspath e (file_path (attrs self)) in
  FETCH_DATA_FROM_SOURCE cfg = true ->
  fp = lf ++ [name] -> lf <> [] ->
  staging_of (api_return_type (attrs self)) x = Some (mode, data) ->
  mkdir (fs e) lf = Ok m1 ->
  m1 !! fp <> Some Dir ->
  online (s3 e) = true ->
  fetch_from_api (methods self) (remote e) = (Ok x, r) ->
  fetch_from_api (methods self) r = (Ok x, r') ->
  let o := fetch_and_archive_to_s3 cfg self e in
  let o' := fetch_and_archive_to_s3 cfg self (final o) in
  res o = Ok tt /\ res o' = Ok tt /\
  fs (final o') = fs (final o) /\
  s3 (final o') = s3 (final o) /\
  db (final o') = db (final o) /\
  objects (s3 (final o)) !! s3_path (attrs self) = Some data.
Proof.
  cbv zeta. intros Hon Hfp Hlf Hst Hmk Hnd Hs3 Hsrc Hsrc'.
  destruct (fetch_success_run cfg self e x r m1 mode data name
              Hon Hfp Hlf Hsrc Hst Hmk Hnd Hs3) as [Hres Hfin].
  rewrite Hfin. pose proof (mkdir_ok _ _ _ Hmk) as Hdir.
  set (e1 := mkEnv (cwd e)
               (cleaned m1 (abspath e (local_folder (attrs self)))
                  (abspath e (file_path (attrs self))))
               (mkS3 (<[s3_path (attrs self) := data]> (objects (s3 e))) true) (db e) r).
  assert (Ha : forall p, abspath e1 p = abspath e p) by reflexivity.
  destruct (fetch_success_run cfg self e1 x r'
              (delete (abspath e (file_path (attrs self))) m1) mode data name)
    as [Hres' Hfin']; rewrite ?Ha; try assumption.
  - cbn [fs e1]. rewrite Hfp. exact (mkdir_after_cleanup _ _ _ Hlf Hdir).
  - rewrite lookup_delete_eq. discriminate.
  - reflexivity.
  - rewrite Hfin'. cbn [fs s3 db e1 objects].
    split; [exact Hres|]. split; [exact Hres'|].
    split; [unfold cleaned; rewrite delete_delete_eq; reflexivity|].
    split; [rewrite insert_insert_eq; reflexivity|].
    split; [reflexivity|]. apply lookup_insert_eq.
Qed.

(** The example run, fetched twice. *)
Lemma fetch_again_changes_nothing_witness :
  let o := fetch_and_archive_to_s3 Example.cfg Example.hitwise Example.env0 in
  let o' := fetch_and_archive_to_s3 Example.cfg Example.hitwise (final o) in
  staging_of "bytes" (PBytes "ABC") = Some ("wb", "ABC") /\
  res o' = Ok tt /\
  fs (final o') = fs (final o) /\
  s3 (final o') = s3 (final o).
Proof.
  cbv zeta. split; [reflexivity|].
  pose proof (fetch_again_changes_nothing Example.cfg Example.hitwise Example.env0
                (PBytes "ABC") 1%nat 2%nat Example.staging_made "wb" "ABC"
                "competitor_rankings_weekly.xls"
                eq_refl eq_refl ltac:(discriminate) eq_refl eq_refl ltac:(discriminate)
                eq_refl eq_refl eq_refl) as (_ & Hres & Hfs & Hs3 & _).
  split; [exact Hres|]. split; [exact Hfs|exact Hs3].
Defined.

(** ** The copy hook of [CompetitorRankings] *)

Section HitwiseFacts.

Context {Remote : Type}.
Implicit Types (e : @Env Remote).

(** The bulk insert acts on the database only, and not at all when it
    raises. *)
Lemma csv_to_table_frame (content tablename : string) e r e' :
  csv_to_table content tablename e = (r, e') ->
  fs e' = fs e /\ s3 e' = s3 e /\ remote e' = remote e /\ cwd e' = cwd e /\
  (is_raise r = true -> e' = e).
Proof.
  unfold csv_to_table.
  destruct (session (db e)) as [t|]; [|intros [= <- <-]; auto].
  destruct (t !! tablename) as [rows|], (utf8_decode content) as [text|];
    try (intros [= <- <-]; auto).
  destruct (csv_reader text); intros [= <- <-]; auto.
  repeat split. discriminate.
Qed.

(** [load_table]: the file is read, its records are inserted, and then it
    is deleted. *)
Lemma load_table_run (from_path : Path) (tablename : string) e r e' :
  load_table from_path tablename e = (r, e') ->
  s3 e' = s3 e /\ remote e' = remote e /\ cwd e' = cwd e /\
  (is_raise r = true -> fs e' = fs e) /\
  (r = Ok tt -> fs e' = delete (abspath e from_path) (fs e)) /\
  (forall x, read_file (fs e) (abspath e from_path) = Raise x -> r = Raise x /\ e' = e).
Proof.
  unfold load_table.
  destruct (read_file (fs e) (abspath e from_path)) as [content|x] eqn:Hrd.
  2:{ intros [= <- <-]. repeat split; try discriminate; congruence. }
  destruct (csv_to_table content tablename e) as [[[]|x] e1] eqn:Hct;
    destruct (csv_to_table_frame _ _ _ _ _ Hct) as (Hfs & Hs3 & Hrem & Hcwd & Hraise).
  2:{ intros [= <- <-]. repeat split; try discriminate; congruence. }
  assert (Habs : abspath e1 from_path = abspath e from_path)
    by (unfold abspath; rewrite Hcwd; reflexivity).
  rewrite Habs, Hfs.
  destruct (unlink (fs e) (abspath e from_path)) as [m|x] eqn:Hu; intros [= <- <-].
  - apply unlink_ok in Hu as [-> _]. cbn [fs set_fs s3 remote cwd is_raise].
    split; [exact Hs3|]. split; [exact Hrem|]. split; [exact Hcwd|].
    split; [discriminate|]. split; [reflexivity|]. intros y Hy. discriminate.
  - cbn [is_raise].
    split; [exact Hs3|]. split; [exact Hrem|]. split; [exact Hcwd|].
    split; [intros _; exact Hfs|]. split; [discriminate|]. intros y Hy. discriminate.
Qed.

End HitwiseFacts.

(** X18. [copy_to_db] of [CompetitorRankings] consumes the two converted
    files: it touches no entry of the file system other than
    [dfs_competitors.csv] and [dfs_competitors_sections.csv] in the
    staging folder, it only removes, and it leaves archive and source
    alone; when it returns normally both files are gone; when the first
    file cannot be read it raises that error and has changed nothing. *)
Theorem hitwise_copy_consumes_the_files {Remote : Type} (lib : @Libraries Remote)
    (a : Attrs) (e : @Env Remote) :
  let csv1 := abspath e (joinpath (local_folder a) "dfs_competitors.csv") in
  let csv2 := abspath e (joinpath (local_folder a) "dfs_competitors_sections.csv") in
  let r := fst (copy_to_db (CompetitorRankings lib a) e) in
  let e' := snd (copy_to_db (CompetitorRankings lib a) e) in
  (forall q, q <> csv1 -> q <> csv2 -> fs e' !! q = fs e !! q) /\
  fs e' ⊆ fs e /\
  s3 e' = s3 e /\ remote e' = remote e /\
  (r = Ok tt -> fs e' !! csv1 = None /\ fs e' !! csv2 = None) /\
  (forall x, read_file (fs e) csv1 = Raise x -> r = Raise x /\ e' = e).
Proof.
  cbv zeta. cbn [copy_to_db CompetitorRankings].
  destruct (load_table (joinpath (local_folder a) "dfs_competitors.csv")
              "ddd_staging.hitwise" e) as [r1 e1] eqn:H1.
  destruct (load_table_run _ _ _ _ _ H1) as (Hs3 & Hrem & Hcwd & Hraise & Hok & Hrd).
  destruct r1 as [[]|x1].
  2:{ cbn [fst snd]. rewrite (Hraise eq_refl).
      split; [reflexivity|]. split; [reflexivity|]. split; [exact Hs3|].
      split; [exact Hrem|]. split; [discriminate|exact Hrd]. }
  specialize (Hok eq_refl).
  destruct (load_table (joinpath (local_folder a) "dfs_competitors_sections.csv")
              "ddd_staging.hitwise_wider_comparison" e1) as [r2 e2] eqn:H2.
  destruct (load_table_run _ _ _ _ _ H2) as (Hs3' & Hrem' & Hcwd' & Hraise' & Hok' & _).
  assert (Habs : forall p, abspath e1 p = abspath e p)
    by (intros p; unfold abspath; rewrite Hcwd; reflexivity).
  rewrite Habs in Hok'. cbn [fst snd].
  assert (Hfs2 : fs e2 = fs e1 \/
                 (r2 = Ok tt /\
                  fs e2 = delete (abspath e (joinpath (local_folder a)
                                               "dfs_competitors_sections.csv")) (fs e1))).
  { destruct r2 as [[]|x2]; [right; auto|left; auto]. }
  split; [|split; [|split; [congruence|split; [congruence|split]]]].
  - intros q Hq1 Hq2.
    destruct Hfs2 as [->|[_ ->]]; rewrite Hok, ?lookup_delete_ne by congruence; reflexivity.
  - destruct Hfs2 as [->|[_ ->]]; rewrite Hok; [apply delete_subseteq|].
    etrans; apply delete_subseteq.
  - intros ->. destruct Hfs2 as [_|[_ ->]]; [discriminate (Hraise' eq_refl) || idtac|].
    + rewrite (Hok' eq_refl), Hok. split; [|apply lookup_delete_eq].
      destruct (decide (abspath e (joinpath (local_folder a) "dfs_competitors.csv") =
                        abspath e (joinpath (local_folder a) "dfs_competitors_sections.csv")))
        as [E|E]; [rewrite E; apply lookup_delete_eq|].
      rewrite lookup_delete_ne by congruence. apply lookup_delete_eq.
    + rewrite Hok. split; [|apply lookup_delete_eq].
      destruct (decide (abspath e (joinpath (local_folder a) "dfs_competitors.csv") =
                        abspath e (joinpath (local_folder a) "dfs_competitors_sections.csv")))
        as [E|E]; [rewrite E; apply lookup_delete_eq|].
      rewrite lookup_delete_ne by congruence. apply lookup_delete_eq.
  - intros y Hy. destruct (Hrd y Hy) as [H _]. discriminate.
Qed.

(** ** The further statements at the example installation *)

(** The run date string of the example run. *)
Lemma iso_date_reads_run_date_string_witness :
  valid_date (Date 2023 5 1) = true /\
  iso_date (run_date_string (attrs Example.hitwise)) = Ok (Date 2023 5 1).
Proof.
  split; [reflexivity|].
  exact (iso_date_reads_run_date_string Example.cfg (CompetitorRankings Example.lib)
           (Date 2023 5 1) "hitwise" (Some "competitor_rankings_weekly.xls") "bytes" None
           eq_refl ltac:(cbn; lia)).
Defined.

(** Two runs ten days apart have different archive keys. *)
Lemma distinct_dates_distinct_locations_witness :
  valid_date (Date 2023 5 1) = true /\ valid_date (Date 2023 5 11) = true /\
  s3_path (attrs Example.hitwise) <>
  s3_path (attrs (__init__ Example.cfg (CompetitorRankings Example.lib) (Date 2023 5 11)
                    "hitwise" (Some "competitor_rankings_weekly.xls") "bytes" None)).
Proof.
  split; [reflexivity|]. split; [reflexivity|]. intros H.
  pose proof (distinct_dates_distinct_locations Example.cfg (CompetitorRankings Example.lib)
                (Date 2023 5 1) (Date 2023 5 11) "hitwise"
                (Some "competitor_rankings_weekly.xls") "bytes" None
                eq_refl eq_refl ltac:(cbn; lia) ltac:(cbn; lia)
                (or_intror (or_introl H))) as E.
  discriminate E.
Defined.

(** A command line of a fetch, with a date that is not padded. *)
Lemma parse_arguments_returns_a_checked_namespace_witness :
  parse_arguments exact_scan Staged.argv_fetch ["hitwise.py"] ["competitor_rankings"]
    = (Ok Staged.fetch_args, []) /\
  exists d, Staged.fetch_args !! "run_date" = Some (VDate d) /\ valid_date d = true.
Proof.
  assert (H : parse_arguments exact_scan Staged.argv_fetch ["hitwise.py"]
                ["competitor_rankings"] = (Ok Staged.fetch_args, [])) by reflexivity.
  split; [exact H|].
  exact (proj1 (parse_arguments_returns_a_checked_namespace exact_scan Staged.argv_fetch
                  ["hitwise.py"] ["competitor_rankings"] Staged.fetch_args [] H)).
Defined.

(** The entry point on a command line without [--fileformat]. *)
Lemma main_needs_a_fileformat_witness :
  let o := main Example.cfg Example.lib exact_scan Staged.argv_no_fileformat
             ["hitwise.py"] Example.env0 in
  res o = Raise KeyError /\ final o = Example.env0.
Proof.
  cbv zeta.
  assert (Hno : forall v,
            ~ In (Occ "--fileformat" v)
                 (fst (exact_scan declared_options (tail Staged.argv_no_fileformat)))).
  { intros v H. vm_compute in H. destruct H as [H|[H|[]]]; discriminate H. }
  pose proof (main_needs_a_fileformat Example.cfg Example.lib exact_scan
                Staged.argv_no_fileformat ["hitwise.py"] Example.env0 Hno)
    as (_ & Hkey & Hfin & _).
  split; [|exact Hfin].
  eapply Hkey. reflexivity.
Defined.

(** A source that cannot be reached: the staging file of an earlier run is
    emptied. *)
Lemma failed_fetch_leaves_empty_file_witness :
  let e := Staged.env_of Staged.old_file in
  let o := fetch_and_archive_to_s3 Example.cfg Staged.hitwise_down e in
  fs e !! ["etl"; "hitwise"; "20230501"; "competitor_rankings_weekly.xls"]
    = Some (File "old") /\
  res o = Raise (OtherError "HTTPError") /\
  fs (final o) !! ["etl"; "hitwise"; "20230501"; "competitor_rankings_weekly.xls"]
    = Some (File EmptyString).
Proof.
  cbv zeta. split; [reflexivity|].
  pose proof (failed_fetch_leaves_empty_file Example.cfg Staged.hitwise_down
                (Staged.env_of Staged.old_file) Staged.old_file
                (<[ ["etl"; "hitwise"; "20230501"; "competitor_rankings_weekly.xls"]
                      := File EmptyString ]> Staged.old_file)
                eq_refl eq_refl eq_refl eq_refl) as (_ & H).
  destruct (H (OtherError "HTTPError") 1%nat (or_introl eq_refl)) as (Hres & Hfin & _).
  split; [exact Hres|]. rewrite Hfin. reflexivity.
Defined.

(** A processor without file name: the fetch phase ends before the source is
    asked. *)
Lemma fetch_without_filename_cannot_stage_witness :
  let o := fetch_and_archive_to_s3 Example.cfg Staged.no_filename Example.env0 in
  truthy None = false /\
  res o = Raise IsADirectoryError /\
  ~ In EvFetch (events o).
Proof.
  cbv zeta. split; [reflexivity|].
  pose proof (fetch_without_filename_cannot_stage Example.cfg
                (CompetitorRankings Example.lib) (Date 2023 5 1) "hitwise" None "bytes" None
                Example.env0 Example.staging_made eq_refl eq_refl eq_refl) as (_ & H & _).
  destruct (H eq_refl) as (Hres & _ & Hno). split; [exact Hres|exact Hno].
Defined.

(** A transfer of two files: the connection is closed between the transfers
    and the upload. *)
Lemma sftp_fetch_closes_the_connection_witness :
  let o := sftp_fetch_and_archive_to_s3 Example.cfg Example.cmd Staged.sftp_processor
             Example.env0 in
  mkdir (fs Example.env0) ["etl"; "sftp"; "20230501"] = Ok Staged.sftp_staging_made /\
  exists pre post,
    events o = pre ++ EvSshExit :: post /\
    ~ In EvSshExit pre /\ ~ In EvSshExit post /\
    forallb (fun ev => negb (upload_event ev)) pre = true /\
    forallb (fun ev => negb (transfer_event ev)) post = true.
Proof.
  cbv zeta.
  assert (Hmk : mkdir (fs Example.env0) ["etl"; "sftp"; "20230501"]
                = Ok Staged.sftp_staging_made) by reflexivity.
  split; [exact Hmk|].
  exact (proj1 (sftp_fetch_closes_the_connection Example.cfg Example.cmd
                  Staged.sftp_processor Example.env0
                  (set_fs Example.env0 Staged.sftp_staging_made)
                  Staged.sftp_staging_made eq_refl Hmk eq_refl)).
Defined.

(** A transfer of two files: what the server is asked for. *)
Lemma sftp_fetch_transfers_in_order_witness :
  let o := sftp_fetch_and_archive_to_s3 Example.cfg Example.cmd Staged.sftp_processor
             Example.env0 in
  iter_str Example.cmd (PNames ["a.csv"; "b.csv"]) = Ok ["a.csv"; "b.csv"] /\
  omap ssh_get_of (events o) `prefix_of`
    [ ("/srv/export/a.csv", mkPath "/" ["etl"; "sftp"; "20230501"]);
      ("/srv/export/b.csv", mkPath "/" ["etl"; "sftp"; "20230501"]) ].
Proof.
  cbv zeta. split; [reflexivity|].
  assert (Hmk : mkdir (fs Example.env0) ["etl"; "sftp"; "20230501"]
                = Ok Staged.sftp_staging_made) by reflexivity.
  exact (proj1 (sftp_fetch_transfers_in_order Example.cfg Example.cmd
                  Staged.sftp_processor Example.env0
                  (set_fs Example.env0 Staged.sftp_staging_made)
                  Staged.sftp_staging_made (PNames ["a.csv"; "b.csv"]) 1%nat
                  ["a.csv"; "b.csv"] eq_refl Hmk eq_refl eq_refl eq_refl)).
Defined.

(** A load from an empty archive. *)
Lemma failed_download_runs_no_hook_witness :
  let o := load_from_s3_to_db Example.hitwise Example.env0 in
  objects (s3 Example.env0) !! s3_path (attrs Example.hitwise) = None /\
  res o = Raise FileNotFoundError /\
  final o = set_fs Example.env0 Example.staging_made.
Proof.
  cbv zeta. split; [reflexivity|].
  pose proof (failed_download_runs_no_hook Example.cmd Example.hitwise Example.env0
                Example.staging_made eq_refl) as [H _].
  destruct (H (or_intror eq_refl)) as (_ & Hres & Hfin & _).
  split; [exact (Hres eq_refl)|exact Hfin].
Defined.

(** The workbook uploaded by [put_to_s3] and downloaded again. *)
Lemma download_restores_upload_witness :
  let fp := file_path (attrs Example.hitwise) in
  let key := s3_path (attrs Example.hitwise) in
  let o := put_to_s3 Example.hitwise fp key (Staged.env_of Staged.staged_file) in
  let e' := set_s3 (Staged.env_of Example.staging_made) (s3 (final o)) in
  let o' := get_from_s3 Example.hitwise fp key e' in
  fs (final o) = Example.staging_left /\
  res o' = Ok tt /\
  read_file (fs (final o')) (abspath e' fp) = Ok "ABC".
Proof.
  cbv zeta. split; [reflexivity|].
  pose proof (download_restores_upload Example.hitwise Example.hitwise
                (file_path (attrs Example.hitwise)) (s3_path (attrs Example.hitwise))
                (Staged.env_of Staged.staged_file)
                (set_s3 (Staged.env_of Example.staging_made)
                   (s3 (final (put_to_s3 Example.hitwise (file_path (attrs Example.hitwise))
                                 (s3_path (attrs Example.hitwise))
                                 (Staged.env_of Staged.staged_file)))))
                "ABC"
                (<[ ["etl"; "hitwise"; "20230501"; "competitor_rankings_weekly.xls"]
                      := File EmptyString ]> Example.staging_made)
                eq_refl eq_refl eq_refl eq_refl eq_refl) as (_ & Hres & Hrd & _).
  split; [exact Hres|exact Hrd].
Defined.

(** One of two files is cleaned up by name: the other one and the folder
    stay. *)
Lemma cleanup_by_file_name_witness :
  let o := snd (sftp_add_file_name_for_cleanup Example.hitwise "a.csv")
             (Staged.env_of Staged.two_files) in
  plain_name "a.csv" = true /\
  well_named (mkPath "/" ["etl"; "hitwise"; "20230501"]) = true /\
  well_named (mkPath "/" ["etl"; "hitwise"; "20230501"; "a.csv"]) = true /\
  res o = Ok tt /\
  fs (final o) =
    <[ ["etl"; "hitwise"; "20230501"; "b.csv"] := File "2" ]> Example.staging_made.
Proof.
  cbv zeta. split; [reflexivity|]. split; [reflexivity|]. split; [reflexivity|].
  pose proof (cleanup_by_file_name Example.hitwise "a.csv" (Staged.env_of Staged.two_files)
                eq_refl eq_refl eq_refl ltac:(discriminate) eq_refl)
    as (_ & _ & Hres & Hfin).
  split; [exact Hres|]. rewrite Hfin. reflexivity.
Defined.

Lemma rmdir_if_empty_never_raises_witness :
  let path := local_folder (attrs Example.hitwise) in
  let o := rmdir_if_empty path (Staged.env_of Example.staging_made) in
  well_named path = true /\
  res o = Ok tt /\
  fs (final o) = Example.staging_left.
Proof.
  cbv zeta. split; [reflexivity|].
  destruct (rmdir_if_empty_never_raises (local_folder (attrs Example.hitwise))
              (Staged.env_of Example.staging_made) eq_refl)
    as (Hres & [Hsame|(_ & _ & Hfin)] & _).
  - split; [exact Hres|]. exfalso. revert Hsame. vm_compute. discriminate.
  - split; [exact Hres|]. rewrite Hfin. reflexivity.
Defined.
